(** * Nonogram: hint derivation and the game state machine

    A shallow embedding of [utils.py] (hint derivation, puzzle loading) and of
    the game logic of [Nonogram.py] (click handling, restart, win check,
    puzzle selection), with the properties of the specification proved over
    it.

    Python values are modelled as follows: [int] as [Z]; a list as [list],
    indexed the way Python indexes it (a negative index counts from the end,
    an index outside the list raises [IndexError]); the cell tags ["0"],
    ["1"], ["x"] of the play grid as the strings they are; an exception as a
    [Raise] result.  The methods of the [Nonogram] object run in a state
    monad over the object's attributes which also records the calls made to
    the toolkit (label updates, dialogs, canvas redraws) in order. *)

From Stdlib Require Import ZArith Lia Bool Ascii.
From stdpp Require Import base list strings.

Local Open Scope Z_scope.

(** ** Python values *)

Inductive exn : Type :=
  | IndexError
  | ValueError
  | FileNotFoundError.

Inductive result (A : Type) : Type :=
  | Ok (a : A)
  | Raise (e : exn).

Arguments Ok {A} a.
Arguments Raise {A} e.

Definition result_bind {A B} (r : result A) (k : A -> result B) : result B :=
  match r with
  | Ok a => k a
  | Raise e => Raise e
  end.

Notation "'try!' x := r 'in' k" := (result_bind r (fun x => k))
  (at level 10, x name, r at level 100, k at level 200).

(** [len(l)]. *)
Definition len {A} (l : list A) : Z := Z.of_nat (length l).

(** A Python index resolved against a list of length [n]: a negative index
    counts from the end; [None] when it falls outside the list. *)
Definition py_pos (n i : Z) : option nat :=
  let k := if i <? 0 then i + n else i in
  if (0 <=? k) && (k <? n) then Some (Z.to_nat k) else None.

(** [l[i]]. *)
Definition py_getitem {A} (l : list A) (i : Z) : result A :=
  match py_pos (len l) i with
  | Some k =>
      match l !! k with
      | Some a => Ok a
      | None => Raise IndexError
      end
  | None => Raise IndexError
  end.

(** [l[i] = v]. *)
Definition py_setitem {A} (l : list A) (i : Z) (v : A) : result (list A) :=
  match py_pos (len l) i with
  | Some k => Ok (<[k := v]> l)
  | None => Raise IndexError
  end.

(** [range(n)]. *)
Definition range (n : Z) : list Z := seqZ 0 n.

(** ** utils.py *)

Module Utils.

(** One iteration of the scanning loops of [determine_hints]: the pair is
    the hint list built so far and the running [count]. *)
Definition scan_step (acc : list Z * Z) (square : Z) : list Z * Z :=
  let '(hint, count) := acc in
  if square =? 1 then (hint, count + 1)
  else if count >? 0 then (hint ++ [count], 0)
  else (hint, count).

(** The test after the loop: a run still open is appended. *)
Definition scan_finish (acc : list Z * Z) : list Z :=
  let '(hint, count) := acc in
  if count >? 0 then hint ++ [count] else hint.

(** The inner loop over [range(len(solution))] for one column. *)
Fixpoint col_scan (solution : list (list Z)) (col : Z) (rows : list Z)
    (acc : list Z * Z) : result (list Z * Z) :=
  match rows with
  | [] => Ok acc
  | row :: rest =>
      try! r := py_getitem solution row in
      try! square := py_getitem r col in
      col_scan solution col rest (scan_step acc square)
  end.

(** The outer loop over [range(len(solution[0]))]. *)
Fixpoint col_loop (solution : list (list Z)) (cols : list Z)
    (column_hints : list (list Z)) : result (list (list Z)) :=
  match cols with
  | [] => Ok column_hints
  | col :: rest =>
      try! acc := col_scan solution col (range (len solution)) ([], 0) in
      col_loop solution rest (column_hints ++ [scan_finish acc])
  end.

(** The loop [for row in solution]. *)
Definition row_loop (solution : list (list Z)) : list (list Z) :=
  fold_left
    (fun row_hints row =>
       row_hints ++ [scan_finish (fold_left scan_step row ([], 0))])
    solution [].

(** [determine_hints(solution)]: the pair [(column_hints, row_hints)]. *)
Definition determine_hints (solution : list (list Z))
    : result (list (list Z) * list (list Z)) :=
  try! first_row := py_getitem solution 0 in
  try! column_hints := col_loop solution (range (len first_row)) [] in
  Ok (column_hints, row_loop solution).

(** [line.split(" ")]: the pieces of [line] between single spaces. *)
Fixpoint split_space (line : string) : list string :=
  match line with
  | EmptyString => [EmptyString]
  | String c rest =>
      if Ascii.eqb c " "%char then EmptyString :: split_space rest
      else
        match split_space rest with
        | piece :: pieces => String c piece :: pieces
        | [] => [String c EmptyString]
        end
  end.

(** The file system as [get_solution] sees it: opening
    ["puzzles/puzzle_<n>.txt"] either fails because the file does not exist
    or gives the lines of the file. *)
Definition puzzle_store : Type := Z -> option (list string).

Section GetSolution.

(** [int(x.strip())] on one token: Python's integer parser, [None] when it
    raises [ValueError]. *)
Variable py_int : string -> option Z.

Fixpoint parse_row (tokens : list string) : result (list Z) :=
  match tokens with
  | [] => Ok []
  | x :: rest =>
      match py_int x with
      | Some v => try! row := parse_row rest in Ok (v :: row)
      | None => Raise ValueError
      end
  end.

Fixpoint parse_lines (lines : list string) (solution : list (list Z))
    : result (list (list Z)) :=
  match lines with
  | [] => Ok solution
  | line :: rest =>
      try! row := parse_row (split_space line) in
      parse_lines rest (solution ++ [row])
  end.

(** [get_solution(puzzle_number)]. *)
Definition get_solution (files : puzzle_store) (puzzle_number : Z)
    : result (list (list Z)) :=
  match files puzzle_number with
  | None => Raise FileNotFoundError
  | Some lines => parse_lines lines []
  end.

End GetSolution.

End Utils.

(** ** Nonogram.py *)

Module Game.

(** The attributes of a [Nonogram] object that the game logic uses. *)
Record Nonogram : Type := mkNonogram {
  solution : list (list Z);
  n_columns : Z;
  n_rows : Z;
  grid : list (list string);
  column_hints : list (list Z);
  row_hints : list (list Z);
  tries_left : Z
}.

Definition set_solution (v : list (list Z)) (self : Nonogram) : Nonogram :=
  mkNonogram v (n_columns self) (n_rows self) (grid self)
    (column_hints self) (row_hints self) (tries_left self).

Definition set_n_columns (v : Z) (self : Nonogram) : Nonogram :=
  mkNonogram (solution self) v (n_rows self) (grid self)
    (column_hints self) (row_hints self) (tries_left self).

Definition set_n_rows (v : Z) (self : Nonogram) : Nonogram :=
  mkNonogram (solution self) (n_columns self) v (grid self)
    (column_hints self) (row_hints self) (tries_left self).

Definition set_grid (v : list (list string)) (self : Nonogram) : Nonogram :=
  mkNonogram (solution self) (n_columns self) (n_rows self) v
    (column_hints self) (row_hints self) (tries_left self).

Definition set_hints (v : list (list Z) * list (list Z)) (self : Nonogram)
    : Nonogram :=
  mkNonogram (solution self) (n_columns self) (n_rows self) (grid self)
    (fst v) (snd v) (tries_left self).

Definition set_tries_left (v : Z) (self : Nonogram) : Nonogram :=
  mkNonogram (solution self) (n_columns self) (n_rows self) (grid self)
    (column_hints self) (row_hints self) v.

(** The calls into the toolkit that the player can observe. *)
Inductive effect : Type :=
  | LabelConfig (tries : Z)   (* tries_label.config(text="Tries left: ...") *)
  | ShowInfo (title : string) (* tk.messagebox.showinfo(title, ...) *)
  | ShowError (title : string) (* tk.messagebox.showerror(title, ...) *)
  | CanvasDraw.               (* canvas.draw(), the last call of draw() *)

(** A method: from the object before the call to the object after it, the
    toolkit calls it made, and its return value or the exception that
    escaped it. *)
Definition M (A : Type) : Type :=
  Nonogram -> Nonogram * list effect * result A.

Definition ret {A} (a : A) : M A := fun self => (self, [], Ok a).

Definition bind {A B} (m : M A) (k : A -> M B) : M B := fun self =>
  match m self with
  | (self1, t1, Ok a) =>
      match k a self1 with
      | (self2, t2, r) => (self2, t1 ++ t2, r)
      end
  | (self1, t1, Raise e) => (self1, t1, Raise e)
  end.

Notation "'let*' x := m 'in' k" := (bind m (fun x => k))
  (at level 10, x name, m at level 100, k at level 200).
Notation "m ;; k" := (bind m (fun _ => k))
  (at level 100, right associativity).

(** Read an attribute, assign attributes, run a computation that only reads
    the object, call the toolkit. *)
Definition read {A} (f : Nonogram -> A) : M A := fun self => (self, [], Ok (f self)).
Definition write (f : Nonogram -> Nonogram) : M unit :=
  fun self => (f self, [], Ok tt).
Definition reads {A} (f : Nonogram -> result A) : M A :=
  fun self => (self, [], f self).
Definition signal (e : effect) : M unit := fun self => (self, [e], Ok tt).

Definition exn_eqb (a b : exn) : bool :=
  match a, b with
  | IndexError, IndexError => true
  | ValueError, ValueError => true
  | FileNotFoundError, FileNotFoundError => true
  | _, _ => false
  end.

(** [try: m  except e: handler]. *)
Definition try_except (m : M unit) (e : exn) (handler : M unit) : M unit :=
  fun self =>
    match m self with
    | (self1, t1, Raise e') =>
        if exn_eqb e' e then
          match handler self1 with
          | (self2, t2, r) => (self2, t1 ++ t2, r)
          end
        else (self1, t1, Raise e')
    | done => done
    end.

(** [g[y][x]]. *)
Definition getitem2 {A} (g : list (list A)) (y x : Z) : result A :=
  try! row := py_getitem g y in
  py_getitem row x.

(** [g[y][x] = v]: the row object [g[y]] is updated in place. *)
Definition setitem2 {A} (g : list (list A)) (y x : Z) (v : A)
    : result (list (list A)) :=
  match py_pos (len g) y with
  | Some k =>
      match g !! k with
      | Some row =>
          try! row' := py_setitem row x v in
          Ok (<[k := row']> g)
      | None => Raise IndexError
      end
  | None => Raise IndexError
  end.

(** [self.grid[y][x] = v]. *)
Definition set_cell (y x : Z) (v : string) : M unit := fun self =>
  match setitem2 (grid self) y x v with
  | Ok g => (set_grid g self, [], Ok tt)
  | Raise e => (self, [], Raise e)
  end.

(** [[["0" for _ in range(n_columns)] for _ in range(n_rows)]]. *)
Definition fresh_grid (n_columns n_rows : Z) : list (list string) :=
  map (fun _ => map (fun _ => "0"%string) (range n_columns)) (range n_rows).

(** [max(len(line) for line in hints)]: [ValueError] on no line at all. *)
Definition max_len (hints : list (list Z)) : result Z :=
  match hints with
  | [] => Raise ValueError
  | line :: rest => Ok (foldl (fun m l => Z.max m (len l)) (len line) rest)
  end.

(** The cell reads of [draw]: every [self.grid[i][j]] with [i] in
    [range(n_rows)] and [j] in [range(n_columns)]. *)
Fixpoint draw_cols (self : Nonogram) (i : Z) (js : list Z) : result unit :=
  match js with
  | [] => Ok tt
  | j :: rest =>
      try! cell := getitem2 (grid self) i j in
      draw_cols self i rest
  end.

Fixpoint draw_rows (self : Nonogram) (rows : list Z) : result unit :=
  match rows with
  | [] => Ok tt
  | i :: rest =>
      try! done := draw_cols self i (range (n_columns self)) in
      draw_rows self rest
  end.

(** [draw()]: what it reads of the object, then the redraw of the canvas. *)
Definition draw : M unit :=
  reads (fun self => draw_rows self (range (n_rows self))) ;;
  (let* max_hints_column := reads (fun self => max_len (column_hints self)) in
   let* max_hints_row := reads (fun self => max_len (row_hints self)) in
   signal CanvasDraw).

(** The inner loop of [check_state] for row [i]: [Ok false] when it
    returned [False], [Ok true] when it ran to its end. *)
Fixpoint check_cols (self : Nonogram) (i : Z) (js : list Z) : result bool :=
  match js with
  | [] => Ok true
  | j :: rest =>
      try! s := getitem2 (solution self) (n_rows self - i - 1) j in
      if s =? 1 then
        try! cell := getitem2 (grid self) i j in
        if negb (String.eqb cell "1") then Ok false
        else check_cols self i rest
      else check_cols self i rest
  end.

Fixpoint check_rows (self : Nonogram) (rows : list Z) : result bool :=
  match rows with
  | [] => Ok true
  | i :: rest =>
      try! go_on := check_cols self i (range (n_columns self)) in
      if go_on then check_rows self rest else Ok false
  end.

(** [check_state()]. *)
Definition check_state : M bool :=
  reads (fun self => check_rows self (range (n_rows self))).

Section Methods.

(** [settings.MAX_TRIES]. *)
Variable MAX_TRIES : Z.

(** The puzzle files and Python's integer parser. *)
Variable files : Utils.puzzle_store.
Variable py_int : string -> option Z.

(** [restart_game()]. *)
Definition restart_game : M unit :=
  write (fun self => set_grid (fresh_grid (n_columns self) (n_rows self)) self) ;;
  write (set_tries_left MAX_TRIES) ;;
  (let* tries := read tries_left in signal (LabelConfig tries)) ;;
  (let* hints := reads (fun self => Utils.determine_hints (solution self)) in
   write (set_hints hints)) ;;
  draw.

(** The end of [on_click]: redraw, then the win check. *)
Definition after_click : M unit :=
  draw ;;
  (let* won := check_state in
   if won then signal (ShowInfo "You won!") else ret tt).

(** [on_click(event)], with [button = event.button], [x = int(event.xdata)]
    and [y = int(event.ydata)].  (A click outside the axes has no [xdata];
    there [int] raises before the object is read, and the call is not part
    of the model.) *)
Definition on_click (button x y : Z) : M unit :=
  if button =? 1 then
    let* cell := reads (fun self => getitem2 (grid self) y x) in
    if String.eqb cell "0" then
      let* s := reads (fun self =>
                  getitem2 (solution self) (n_rows self - y - 1) x) in
      if s =? 1 then
        set_cell y x "1" ;;
        after_click
      else
        set_cell y x "x" ;;
        write (fun self => set_tries_left (tries_left self - 1) self) ;;
        (let* tries := read tries_left in signal (LabelConfig tries)) ;;
        (let* tries := read tries_left in
         if tries =? 0 then
           signal (ShowInfo "Game over") ;;
           restart_game
         else
           signal (ShowInfo "Mistake") ;;
           after_click)
    else after_click
  else if button =? 3 then
    let* cell := reads (fun self => getitem2 (grid self) y x) in
    if String.eqb cell "0" then
      set_cell y x "x" ;;
      after_click
    else
      let* cell := reads (fun self => getitem2 (grid self) y x) in
      if String.eqb cell "x" then
        set_cell y x "0" ;;
        after_click
      else after_click
  else after_click.

(** [load_puzzle(puzzle_number)]. *)
Definition load_puzzle (puzzle_number : Z) : M unit :=
  try_except
    ((let* sol := reads (fun _ => Utils.get_solution py_int files puzzle_number) in
      write (set_solution sol)) ;;
     (let* first := reads (fun self => py_getitem (solution self) 0) in
      write (set_n_columns (len first))) ;;
     write (fun self => set_n_rows (len (solution self)) self) ;;
     restart_game)
    FileNotFoundError
    (signal (ShowError "Error")).

(** [Nonogram()]: the object that [__init__] builds and the toolkit calls
    it makes on the way, or the exception that escapes it. *)
Definition new_game : result (Nonogram * list effect) :=
  try! sol := Utils.get_solution py_int files 1 in
  try! first := py_getitem sol 0 in
  try! hints := Utils.determine_hints sol in
  let self :=
    mkNonogram sol (len first) (len sol) (fresh_grid (len first) (len sol))
      (fst hints) (snd hints) MAX_TRIES in
  match draw self with
  | (self', t, Ok _) => Ok (self', LabelConfig MAX_TRIES :: t)
  | (_, _, Raise e) => Raise e
  end.

(** What the player and the presentation layer can do to the object. *)
Inductive action : Type :=
  | Click (button x y : Z)
  | Restart
  | Load (puzzle_number : Z).

Definition run (a : action) : M unit :=
  match a with
  | Click button x y => on_click button x y
  | Restart => restart_game
  | Load puzzle_number => load_puzzle puzzle_number
  end.

End Methods.

(** The primary and the secondary mouse button. *)
Definition Primary : Z := 1.
Definition Secondary : Z := 3.

(** The three cell states. *)
Definition Unmarked : string := "0".
Definition Filled : string := "1".
Definition Crossed : string := "x".

End Game.

(** ** Hint sequences as the specification words them *)

Module HintSpec.

(** A solution cell is filled when it holds [1]. *)
Definition filled (v : Z) : bool := v =? 1.

(** Cell [i] of [line] exists and is filled. *)
Definition filled_at (line : list Z) (i : nat) : bool :=
  match line !! i with
  | Some v => filled v
  | None => false
  end.

(** Cells [s .. s+n-1] of [line] are a maximal contiguous block of filled
    cells: there is at least one, all are filled, the cell before (if any)
    and the cell after (if any) are not. *)
Definition is_block (line : list Z) (s n : nat) : bool :=
  (0 <? n)%nat
  && forallb (filled_at line) (seq s n)
  && match s with O => true | S p => negb (filled_at line p) end
  && negb (filled_at line (s + n)).

(** The lengths of the maximal blocks of [line], by increasing start. *)
Definition run_lengths (line : list Z) : list Z :=
  flat_map
    (fun s =>
       flat_map
         (fun n => if is_block line s n then [Z.of_nat n] else [])
         (seq 1 (length line)))
    (seq 0 (length line)).

(** Column [j] of a grid, top to bottom. *)
Definition column (grid : list (list Z)) (j : nat) : list Z :=
  map (fun row => default 0 (row !! j)) grid.

(** Every row of the grid has [m] cells. *)
Definition rectangular (grid : list (list Z)) (m : nat) : Prop :=
  Forall (fun row => length row = m) grid.

(** The number of filled cells of a line. *)
Definition filled_count (line : list Z) : Z :=
  Z.of_nat (length (List.filter filled line)).

(** The sum of a hint sequence. *)
Definition hint_sum (hint : list Z) : Z := foldr Z.add 0 hint.

(** The sum of all hints of a list of hint sequences. *)
Definition hint_total (hints : list (list Z)) : Z :=
  hint_sum (map hint_sum hints).

End HintSpec.

(** ** Auxiliary functions used in the proofs *)

Module Aux.

Import HintSpec.

(** The hints the scanning loop still emits when it stands before [cells]
    with running count [count]. *)
Fixpoint emit (count : Z) (cells : list Z) : list Z :=
  match cells with
  | [] => if count >? 0 then [count] else []
  | square :: rest =>
      if square =? 1 then emit (count + 1) rest
      else if count >? 0 then count :: emit 0 rest
      else emit count rest
  end.

(** The length of the filled prefix of a line. *)
Fixpoint run_len (line : list Z) : nat :=
  match line with
  | [] => O
  | v :: rest => if filled v then S (run_len rest) else O
  end.

(** The lengths of the blocks that start inside [line], when the cell
    before [line] is filled ([prev]) or not. *)
Fixpoint runs_from (prev : bool) (line : list Z) : list Z :=
  match line with
  | [] => []
  | v :: rest =>
      (if filled v && negb prev then [Z.of_nat (S (run_len rest))] else [])
      ++ runs_from (filled v) rest
  end.

(** Whether the last cell of [pre] is filled. *)
Definition last_filled (pre : list Z) : bool :=
  match length pre with
  | O => false
  | S p => filled_at pre p
  end.

(** The start test of a block: the cell is filled and the one before it,
    if any, is not. *)
Definition block_start (line : list Z) (s : nat) : bool :=
  filled_at line s
  && match s with O => true | S p => negb (filled_at line p) end.

(** What one cell adds to the count of filled cells. *)
Definition cell_count (v : Z) : Z := if filled v then 1 else 0.

End Aux.

(** ** The game as the specification words it *)

Module GameSpec.

Import Game.

(** The play-grid cell at row [y], column [x]. *)
Definition play_cell (self : Nonogram) (y x : Z) : result string :=
  getitem2 (grid self) y x.

(** The solution cell that belongs to the play-grid cell at row [y], column
    [x]: the solution is kept in file order, top row first, the play grid in
    drawing order, bottom row first. *)
Definition solution_cell (self : Nonogram) (y x : Z) : result Z :=
  getitem2 (solution self) (n_rows self - y - 1) x.

(** A position inside the grid. *)
Definition in_bounds (self : Nonogram) (y x : Z) : Prop :=
  0 <= y < n_rows self /\ 0 <= x < n_columns self.

(** The states the game is played in: the dimensions are those of the
    solution, whose rows are at least as long as its first, the play grid
    has these dimensions, and the hints are those of the solution. *)
Record wf (self : Nonogram) : Prop := mk_wf {
  wf_n_rows : n_rows self = len (solution self);
  wf_n_columns :
    exists first, solution self !! 0%nat = Some first
                  /\ n_columns self = len first;
  wf_columns_pos : 0 < n_columns self;
  wf_solution : Forall (fun row => n_columns self <= len row) (solution self);
  wf_grid_rows : len (grid self) = n_rows self;
  wf_grid_columns : Forall (fun row => len row = n_columns self) (grid self);
  wf_hints :
    Utils.determine_hints (solution self)
    = Ok (column_hints self, row_hints self)
}.

(** Every cell that the solution marks filled is [Filled] in the play
    grid. *)
Definition solved (self : Nonogram) : Prop :=
  forall y x, in_bounds self y x ->
    solution_cell self y x = Ok 1 -> play_cell self y x = Ok Filled.

(** A play-grid cell is [Filled] only where the solution is filled. *)
Definition filled_correct (self : Nonogram) : Prop :=
  forall y x, in_bounds self y x ->
    play_cell self y x = Ok Filled -> solution_cell self y x = Ok 1.

(** The play grid with the cell at row [y], column [x] set to [v]. *)
Definition mark (self : Nonogram) (y x : Z) (v : string) : Nonogram :=
  match setitem2 (grid self) y x v with
  | Ok g => set_grid g self
  | Raise _ => self
  end.

(** The dialog that follows a win check with result [won]. *)
Definition won_dialog (won : bool) : list effect :=
  if won then [ShowInfo "You won!"] else [].

(** The object after a restart: a fresh play grid and all tries. *)
Definition fresh (MAX_TRIES : Z) (self : Nonogram) : Nonogram :=
  mkNonogram (solution self) (n_columns self) (n_rows self)
    (fresh_grid (n_columns self) (n_rows self))
    (column_hints self) (row_hints self) MAX_TRIES.

(** The cell state after a secondary click on a cell in state [c]. *)
Definition toggle (c : string) : string :=
  if String.eqb c Unmarked then Crossed
  else if String.eqb c Crossed then Unmarked
  else c.

(** Primary clicks on the cells [(y, x)] of a list, one after the other. *)
Fixpoint click_all (MAX_TRIES : Z) (cells : list (Z * Z)) : M unit :=
  match cells with
  | [] => ret tt
  | (y, x) :: rest => on_click MAX_TRIES Primary x y ;; click_all MAX_TRIES rest
  end.

(** A concrete game: the 2x2 puzzle of the specification's scenario. *)
Definition demo (g : list (list string)) (tries : Z) : Nonogram :=
  mkNonogram [[1; 0]; [0; 1]] 2 2 g [[1]; [1]] [[1]; [1]] tries.

(** A 2x3 puzzle with four empty cells. *)
Definition demo3 (g : list (list string)) (tries : Z) : Nonogram :=
  mkNonogram [[1; 0; 0]; [0; 0; 1]] 3 2 g [[1]; []; [1]] [[1]; [1]] tries.

(** Every solution-filled cell is [Filled] already or is [Unmarked] and
    among the cells still to be clicked. *)
Definition pending (self : Nonogram) (cells : list (Z * Z)) : Prop :=
  forall y x, in_bounds self y x -> solution_cell self y x = Ok 1 ->
    play_cell self y x = Ok Filled
    \/ (play_cell self y x = Ok Unmarked /\ (y, x) ∈ cells).

(** The clicks that may reach [on_click]: those on a cell of the grid. *)
Definition allowed (self : Nonogram) (a : action) : Prop :=
  match a with
  | Click _ x y => in_bounds self y x
  | Restart | Load _ => True
  end.

(** The states of a game: the object that [__init__] builds, and every
    object that an allowed action which returns leaves behind. *)
Inductive reachable (MAX_TRIES : Z) (files : Utils.puzzle_store)
    (py_int : string -> option Z) : Nonogram -> Prop :=
  | reachable_new self t :
      new_game MAX_TRIES files py_int = Ok (self, t) ->
      reachable MAX_TRIES files py_int self
  | reachable_step self a self' t :
      reachable MAX_TRIES files py_int self ->
      allowed self a ->
      run MAX_TRIES files py_int a self = (self', t, Ok tt) ->
      reachable MAX_TRIES files py_int self'.

(** The objects that any sequence of actions can leave behind, whatever
    the click and also when an exception escapes the action. *)
Inductive reachable_any (MAX_TRIES : Z) (files : Utils.puzzle_store)
    (py_int : string -> option Z) : Nonogram -> Prop :=
  | reachable_any_new self t :
      new_game MAX_TRIES files py_int = Ok (self, t) ->
      reachable_any MAX_TRIES files py_int self
  | reachable_any_step self a self' t r :
      reachable_any MAX_TRIES files py_int self ->
      run MAX_TRIES files py_int a self = (self', t, r) ->
      reachable_any MAX_TRIES files py_int self'.

(** A puzzle directory with the single file [puzzle_1.txt], holding the
    2x2 puzzle in two lines, the first ended by a newline, and the integer
    parser on the tokens that occur in it. *)
Definition newline : string := String "010"%char EmptyString.

Definition demo_files : Utils.puzzle_store :=
  fun n =>
    if n =? 1 then Some [("1 0" +:+ newline)%string; "0 1"%string] else None.

Definition demo_int (token : string) : option Z :=
  if String.eqb token "0" || String.eqb token ("0" +:+ newline) then Some 0
  else if String.eqb token "1" || String.eqb token ("1" +:+ newline)
  then Some 1
  else None.

End GameSpec.

(** ** Further notions about grids and puzzle files *)

Module GridSpec.

Import HintSpec.

(** The grid whose rows are the first [m] columns of [grid]. *)
Definition transpose (grid : list (list Z)) (m : nat) : list (list Z) :=
  map (column grid) (seq 0 m).

(** No row of the grid is shorter than [first]. *)
Definition covers (first : list Z) (grid : list (list Z)) : bool :=
  forallb (fun row => (length first <=? length row)%nat) grid.

(** The hints that fit a line of [n] cells: runs and the gaps between them
    need [sum + count - 1] cells. *)
Definition fits (n : nat) (hint : list Z) : Prop :=
  hint_sum hint + Z.of_nat (length hint) <= Z.of_nat n + 1.

End GridSpec.

Module FileSpec.

(** [" ".join(pieces)]. *)
Fixpoint join_space (pieces : list string) : string :=
  match pieces with
  | [] => EmptyString
  | [piece] => piece
  | piece :: rest => (piece +:+ String " "%char (join_space rest))%string
  end.

(** Whether a space occurs in a string. *)
Fixpoint has_space (s : string) : bool :=
  match s with
  | EmptyString => false
  | String c rest => Ascii.eqb c " "%char || has_space rest
  end.

(** The number of spaces of a string. *)
Fixpoint count_spaces (s : string) : nat :=
  match s with
  | EmptyString => O
  | String c rest =>
      ((if Ascii.eqb c " "%char then 1 else 0) + count_spaces rest)%nat
  end.

(** [row] holds the integers of the tokens of [line], in order. *)
Definition parses (py_int : string -> option Z) (line : string)
    (row : list Z) : Prop :=
  Forall2 (fun token v => py_int token = Some v) (Utils.split_space line) row.

End FileSpec.

Module LoadSpec.

Import Game.

(** The object that a load of [solution] leaves behind when it returns:
    the dimensions of the solution, a fresh play grid, its hints, all
    tries. *)
Definition loaded (MAX_TRIES : Z) (solution : list (list Z)) (m : nat)
    (hints : list (list Z) * list (list Z)) : Nonogram :=
  mkNonogram solution (Z.of_nat m) (len solution)
    (fresh_grid (Z.of_nat m) (len solution)) (fst hints) (snd hints)
    MAX_TRIES.

(** The solution has no filled cell inside the grid. *)
Definition no_filled_cell (self : Nonogram) : Prop :=
  forall y x, GameSpec.in_bounds self y x ->
    GameSpec.solution_cell self y x <> Ok 1.

(** A puzzle directory next to the one of [demo_files]: [puzzle_2.txt]
    holds a token that is no integer, [puzzle_3.txt] is empty, and the
    second line of [puzzle_4.txt] is shorter than the first. *)
Definition broken_files : Utils.puzzle_store :=
  fun n =>
    if n =? 2 then Some ["1 a"%string]
    else if n =? 3 then Some []
    else if n =? 4 then
      Some [("1 0" +:+ GameSpec.newline)%string; "1"%string]
    else GameSpec.demo_files n.

End LoadSpec.

(** ** What [draw] puts on the canvas *)

Module Scene.

Import Game.

(** The calls of [draw] on the subplot.  A text is kept with the integers
    that its position is computed from: a column hint is written at
    [(0.35 + column_number, n_rows + 0.25 + hint_number)], a row hint at
    [(-0.8 - hint_number, 0.25 + row_number)]. *)
Inductive shape : Type :=
  | Fill (j i : Z)            (* fill([j, j, j+1, j+1], [i, i+1, i+1, i]) *)
  | Cross (j i : Z)           (* the two plot calls of an "x" cell *)
  | HLine (i width : Z)       (* axhline(i, linewidth=width) *)
  | VLine (i width : Z)       (* axvline(i, linewidth=width) *)
  | XLim (low high : Z)       (* set_xlim(low, high) *)
  | YLim (low high : Z)       (* set_ylim(low, high) *)
  | ColumnText (column_number n_rows hint_number hint : Z)
  | RowText (row_number hint_number hint : Z).

(** [enumerate(l)]. *)
Definition enumerate {A} (l : list A) : list (Z * A) :=
  imap (fun k a => (Z.of_nat k, a)) l.

(** [range(start, 0, -5)]. *)
Definition range_down5 (start : Z) : list Z :=
  map (fun k => start - 5 * k) (range ((start + 4) / 5)).

(** The inner loop over the cells of row [i]. *)
Fixpoint cell_cols (self : Nonogram) (i : Z) (js : list Z)
    : result (list shape) :=
  match js with
  | [] => Ok []
  | j :: rest =>
      try! cell := getitem2 (grid self) i j in
      try! more := cell_cols self i rest in
      Ok ((if String.eqb cell "1" then [Fill j i]
           else if String.eqb cell "x" then [Cross j i]
           else []) ++ more)
  end.

Fixpoint cell_rows (self : Nonogram) (rows : list Z) : result (list shape) :=
  match rows with
  | [] => Ok []
  | i :: rest =>
      try! row := cell_cols self i (range (n_columns self)) in
      try! more := cell_rows self rest in
      Ok (row ++ more)
  end.

(** The three loops that draw the grid lines. *)
Definition grid_lines (self : Nonogram) : list shape :=
  map (fun i => HLine i 1) (range (n_rows self + 1))
  ++ map (fun i => HLine i 2) (range_down5 (n_rows self))
  ++ flat_map
       (fun i => VLine i 1 :: (if i mod 5 =? 0 then [VLine i 2] else []))
       (range (n_columns self + 1)).

(** The two loops that write the hints. *)
Definition column_texts (self : Nonogram) : list shape :=
  flat_map
    (fun '(column_number, column_hint) =>
       map (fun '(hint_number, hint) =>
              ColumnText column_number (n_rows self) hint_number hint)
         (enumerate (reverse column_hint)))
    (enumerate (column_hints self)).

Definition row_texts (self : Nonogram) : list shape :=
  flat_map
    (fun '(row_number, row_hint) =>
       map (fun '(hint_number, hint) => RowText row_number hint_number hint)
         (enumerate (reverse row_hint)))
    (enumerate (reverse (row_hints self))).

(** The calls of [draw()] on the subplot, in order, up to [canvas.draw()]. *)
Definition draw_scene (self : Nonogram) : result (list shape) :=
  try! cells := cell_rows self (range (n_rows self)) in
  try! max_hints_column := max_len (column_hints self) in
  try! max_hints_row := max_len (row_hints self) in
  Ok (cells
      ++ grid_lines self
      ++ [XLim (- max_hints_row) (n_columns self);
          YLim 0 (n_rows self + max_hints_column)]
      ++ column_texts self
      ++ row_texts self).

End Scene.

Module SceneDemo.

Import Game GameSpec.

(** The play grid of a game in progress on the 2x2 puzzle, and what [draw]
    puts on the canvas for it. *)
Definition demo_game : Nonogram := demo [["0"; "1"]; ["x"; "0"]] 2.

Definition demo_scene : list Scene.shape :=
  [Scene.Fill 1 0; Scene.Cross 0 1;
   Scene.HLine 0 1; Scene.HLine 1 1; Scene.HLine 2 1; Scene.HLine 2 2;
   Scene.VLine 0 1; Scene.VLine 0 2; Scene.VLine 1 1; Scene.VLine 2 1;
   Scene.XLim (-1) 2; Scene.YLim 0 3;
   Scene.ColumnText 0 2 0 1; Scene.ColumnText 1 2 0 1;
   Scene.RowText 0 0 1; Scene.RowText 1 0 1].

End SceneDemo.

(* ================================================================== *)
(** * Properties *)
(* ================================================================== *)

Example determine_hints_ex :
  Utils.determine_hints [[1;1;0;1];[0;1;1;1];[1;0;0;0]]
  = Ok ([[1;1];[2];[1];[2]], [[2;1];[3];[1]]).
Proof. reflexivity. Qed.

Example run_lengths_ex :
  HintSpec.run_lengths [1;1;0;1;0;0;1;1;1] = [2;1;3].
Proof. reflexivity. Qed.

Section HintProofs.

Import Utils HintSpec Aux.

Lemma scan_emit cells : forall hint count,
  scan_finish (fold_left scan_step cells (hint, count))
  = hint ++ emit count cells.
Proof.
  induction cells as [|square rest IH]; intros hint count; simpl.
  - destruct (count >? 0); [reflexivity | by rewrite app_nil_r].
  - destruct (square =? 1); [apply IH |].
    destruct (count >? 0); [| apply IH].
    rewrite IH, <- app_assoc. reflexivity.
Qed.

Lemma emit_runs line :
  (forall count, 0 < count ->
     emit count line = (count + Z.of_nat (run_len line)) :: runs_from true line)
  /\ emit 0 line = runs_from false line.
Proof.
  induction line as [|v rest [IHpos IHzero]]; simpl.
  - split; [intros count Hc | reflexivity].
    destruct (Z.gtb_spec count 0); [f_equal; lia | lia].
  - unfold filled. destruct (Z.eqb_spec v 1) as [->|Hv]; simpl.
    + split.
      * intros count Hc. rewrite IHpos by lia. f_equal. lia.
      * rewrite (IHpos (0 + 1)) by lia. f_equal. lia.
    + split; [| exact IHzero].
      intros count Hc. destruct (Z.gtb_spec count 0); [| lia].
      rewrite IHzero. f_equal. lia.
Qed.



Lemma filled_at_cons v rest i :
  filled_at (v :: rest) (S i) = filled_at rest i.
Proof. reflexivity. Qed.

Lemma run_len_prefix line : forall i,
  (i < run_len line)%nat -> filled_at line i = true.
Proof.
  induction line as [|v rest IH]; simpl; intros i Hi; [lia |].
  destruct (filled v) eqn:Hv; [| lia].
  destruct i as [|i]; [exact Hv |].
  rewrite filled_at_cons. apply IH. lia.
Qed.

Lemma run_len_stop line : filled_at line (run_len line) = false.
Proof.
  induction line as [|v rest IH]; simpl; [reflexivity |].
  destruct (filled v) eqn:Hv; [exact IH |].
  unfold filled_at. simpl. exact Hv.
Qed.

Lemma run_len_unique line n :
  (forall i, (i < n)%nat -> filled_at line i = true) ->
  filled_at line n = false ->
  n = run_len line.
Proof.
  intros Hall Hstop.
  destruct (Nat.lt_trichotomy n (run_len line)) as [Hlt|[Heq|Hgt]].
  - rewrite (run_len_prefix line n Hlt) in Hstop. discriminate.
  - exact Heq.
  - pose proof (run_len_stop line) as Hs.
    rewrite (Hall _ Hgt) in Hs. discriminate.
Qed.

Lemma run_len_le line : (run_len line <= length line)%nat.
Proof.
  induction line as [|v rest IH]; simpl; [lia |].
  destruct (filled v); lia.
Qed.

Lemma filled_at_drop line s i :
  filled_at (drop s line) i = filled_at line (s + i).
Proof. unfold filled_at. by rewrite lookup_drop. Qed.

Lemma is_block_iff line s n :
  is_block line s n = true
  <-> block_start line s = true /\ (0 < n)%nat /\ n = run_len (drop s line).
Proof.
  unfold is_block, block_start.
  rewrite !andb_true_iff, forallb_forall, Nat.ltb_lt, negb_true_iff.
  split.
  - intros [[[Hn Hall] Hprev] Hstop]. split; [split |]; [| exact Hprev |].
    + apply Hall, in_seq. lia.
    + split; [exact Hn |]. apply run_len_unique.
      * intros i Hi. rewrite filled_at_drop. apply Hall, in_seq. lia.
      * by rewrite filled_at_drop.
  - intros [[Hs Hprev] [Hn ->]]. split; [split; [split |] |]; try done.
    + intros i [Hlo Hhi]%in_seq.
      replace i with (s + (i - s))%nat by lia.
      rewrite <- filled_at_drop. apply run_len_prefix. lia.
    + rewrite <- filled_at_drop. apply run_len_stop.
Qed.

Lemma flat_map_none {A B} (f : A -> list B) (l : list A) :
  (forall a, In a l -> f a = []) -> flat_map f l = [].
Proof.
  induction l as [|a l IH]; simpl; intros H; [reflexivity |].
  rewrite H by (by left). apply IH. intros b Hb. apply H. by right.
Qed.

Lemma flat_map_only {A B} (p : A -> bool) (g : A -> B) (l : list A) a0 :
  NoDup l -> In a0 l ->
  (forall a, In a l -> p a = true <-> a = a0) ->
  flat_map (fun a => if p a then [g a] else []) l = [g a0].
Proof.
  intros Hnd Hin Hp.
  apply in_split in Hin as (l1 & l2 & ->).
  apply NoDup_app in Hnd as (_ & Hdisj & [Hnot _]%NoDup_cons).
  rewrite flat_map_app. simpl.
  assert (p a0 = true) as -> by (apply Hp; [apply in_elt | reflexivity]).
  rewrite !flat_map_none; [reflexivity | |].
  - intros a Ha. destruct (p a) eqn:Hpa; [| reflexivity].
    apply Hp in Hpa as ->; [| apply in_or_app; right; by right].
    exfalso. apply Hnot. by apply list_elem_of_In.
  - intros a Ha. destruct (p a) eqn:Hpa; [| reflexivity].
    apply Hp in Hpa as ->; [| apply in_or_app; by left].
    exfalso. apply (Hdisj a0); [by apply list_elem_of_In | left].
Qed.


Lemma blocks_at line s :
  flat_map (fun n => if is_block line s n then [Z.of_nat n] else [])
    (seq 1 (length line))
  = if block_start line s then [Z.of_nat (run_len (drop s line))] else [].
Proof.
  destruct (block_start line s) eqn:Hs.
  - assert (0 < run_len (drop s line))%nat as Hpos.
    { unfold block_start in Hs. apply andb_true_iff in Hs as [Hs _].
      rewrite <- (Nat.add_0_r s), <- filled_at_drop in Hs.
      destruct (drop s line) as [|v rest]; [discriminate |].
      unfold filled_at in Hs. simpl in *. rewrite Hs. lia. }
    apply (flat_map_only (is_block line s) Z.of_nat).
    + apply NoDup_seq.
    + apply in_seq. pose proof (run_len_le (drop s line)) as Hle.
      rewrite length_drop in Hle. lia.
    + intros n _. rewrite is_block_iff. intuition lia.
  - apply flat_map_none. intros n _.
    destruct (is_block line s n) eqn:Hb; [| reflexivity].
    apply is_block_iff in Hb as [Hb _]. congruence.
Qed.

Lemma last_filled_snoc pre v : last_filled (pre ++ [v]) = filled v.
Proof.
  unfold last_filled, filled_at. rewrite length_app, Nat.add_1_r.
  by rewrite list_lookup_middle.
Qed.

Lemma block_start_middle pre v rest :
  block_start (pre ++ v :: rest) (length pre)
  = filled v && negb (last_filled pre).
Proof.
  unfold block_start, last_filled, filled_at.
  rewrite list_lookup_middle by reflexivity. f_equal.
  destruct (length pre) as [|p] eqn:Hp; [reflexivity |].
  rewrite lookup_app_l by lia. reflexivity.
Qed.

Lemma blocks_from pre : forall suf : list Z,
  flat_map
    (fun s =>
       flat_map
         (fun n => if is_block (pre ++ suf) s n then [Z.of_nat n] else [])
         (seq 1 (length (pre ++ suf))))
    (seq (length pre) (length suf))
  = runs_from (last_filled pre) suf.
Proof.
  intros suf. revert pre.
  induction suf as [|v rest IH]; intros pre; [reflexivity |].
  simpl length. simpl seq. simpl flat_map. simpl runs_from.
  rewrite blocks_at, block_start_middle, drop_app_length. f_equal.
  - simpl. destruct (filled v); reflexivity.
  - specialize (IH (pre ++ [v])).
    rewrite <- app_assoc, last_filled_snoc in IH.
    replace (length (pre ++ [v])) with (S (length pre)) in IH
      by (rewrite length_app; simpl; lia).
    exact IH.
Qed.

Lemma run_lengths_runs line : run_lengths line = runs_from false line.
Proof. exact (blocks_from [] line). Qed.

Lemma scan_run_lengths line :
  scan_finish (fold_left scan_step line ([], 0)) = run_lengths line.
Proof.
  rewrite scan_emit, run_lengths_runs. apply emit_runs.
Qed.


Lemma py_pos_in n i : 0 <= i < n -> py_pos n i = Some (Z.to_nat i).
Proof.
  intros [Hlo Hhi]. unfold py_pos.
  destruct (Z.ltb_spec i 0); [lia |].
  destruct (Z.leb_spec 0 i); [| lia].
  destruct (Z.ltb_spec i n); [reflexivity | lia].
Qed.

Lemma py_getitem_nat {A} (l : list A) (i : nat) a :
  l !! i = Some a -> py_getitem l (Z.of_nat i) = Ok a.
Proof.
  intros Hl. unfold py_getitem, len.
  rewrite py_pos_in by (apply lookup_lt_Some in Hl; lia).
  by rewrite Nat2Z.id, Hl.
Qed.

Lemma col_scan_column (j : nat) : forall (rest pre : list (list Z)) acc,
  Forall (fun row => (j < length row)%nat) rest ->
  col_scan (pre ++ rest) (Z.of_nat j) (seqZ (len pre) (len rest)) acc
  = Ok (fold_left scan_step (column rest j) acc).
Proof.
  induction rest as [|row rest IH]; intros pre acc Hrows; [reflexivity |].
  apply Forall_cons in Hrows as [Hrow Hrest].
  unfold len at 2. rewrite seqZ_cons by (simpl; lia). simpl col_scan.
  unfold len at 1. rewrite (py_getitem_nat _ _ row) by (by apply list_lookup_middle).
  simpl. apply lookup_lt_is_Some in Hrow as [v Hv].
  rewrite (py_getitem_nat _ _ v Hv). simpl. rewrite Hv. simpl.
  specialize (IH (pre ++ [row]) (scan_step acc v) Hrest).
  rewrite <- app_assoc in IH. simpl in IH. rewrite <- IH. f_equal.
  unfold len. rewrite length_app. simpl. f_equal; lia.
Qed.

Lemma col_loop_columns solution (m : nat) : forall (cols : list nat) hints,
  Forall (fun row => length row = m) solution ->
  Forall (fun j => (j < m)%nat) cols ->
  col_loop solution (map Z.of_nat cols) hints
  = Ok (hints ++ map (fun j => run_lengths (column solution j)) cols).
Proof.
  induction cols as [|j cols IH]; intros hints Hrect Hcols; simpl.
  - by rewrite app_nil_r.
  - apply Forall_cons in Hcols as [Hj Hcols].
    assert (col_scan solution (Z.of_nat j) (range (len solution)) ([], 0)
            = Ok (fold_left scan_step (column solution j) ([], 0))) as ->.
    { apply (col_scan_column j solution [] ([], 0)).
      eapply Forall_impl; [exact Hrect |]. simpl. intros row ->. exact Hj. }
    simpl. rewrite scan_run_lengths, IH by assumption.
    by rewrite <- app_assoc.
Qed.

Lemma row_loop_rows : forall solution hints,
  fold_left
    (fun row_hints row =>
       row_hints ++ [scan_finish (fold_left scan_step row ([], 0))])
    solution hints
  = hints ++ map run_lengths solution.
Proof.
  induction solution as [|row rest IH]; intros hints; simpl.
  - by rewrite app_nil_r.
  - rewrite IH, scan_run_lengths, <- app_assoc. reflexivity.
Qed.

Lemma range_seq (n : nat) : range (Z.of_nat n) = map Z.of_nat (seq 0 n).
Proof.
  unfold range, seqZ. rewrite Nat2Z.id. apply map_ext. intros i. lia.
Qed.



Lemma run_lengths_emit line : run_lengths line = emit 0 line.
Proof. by rewrite <- scan_run_lengths, scan_emit. Qed.

Lemma run_lengths_no_filled line :
  Forall (fun v => v <> 1) line -> run_lengths line = [].
Proof.
  rewrite run_lengths_emit.
  induction 1 as [|v rest Hv _ IH]; simpl; [reflexivity |].
  destruct (Z.eqb_spec v 1); [done | exact IH].
Qed.

Lemma emit_positive line : forall count,
  0 <= count -> Forall (fun h => 0 < h) (emit count line).
Proof.
  induction line as [|v rest IH]; intros count Hc; simpl.
  - destruct (Z.gtb_spec count 0); [| constructor].
    constructor; [lia | constructor].
  - destruct (v =? 1); [apply IH; lia |].
    destruct (Z.gtb_spec count 0); [| by apply IH].
    constructor; [lia | by apply IH].
Qed.

Lemma emit_sum line : forall count,
  0 <= count -> hint_sum (emit count line) = count + filled_count line.
Proof.
  unfold hint_sum, filled_count.
  induction line as [|v rest IH]; intros count Hc; simpl.
  - destruct (Z.gtb_spec count 0); simpl; lia.
  - unfold filled at 1. destruct (v =? 1).
    + rewrite IH by lia. simpl length. lia.
    + destruct (Z.gtb_spec count 0); simpl; rewrite IH; lia.
Qed.

Lemma run_lengths_positive line : Forall (fun h => 0 < h) (run_lengths line).
Proof. rewrite run_lengths_emit. by apply emit_positive. Qed.

Lemma run_lengths_sum line : hint_sum (run_lengths line) = filled_count line.
Proof. rewrite run_lengths_emit, emit_sum; lia. Qed.

Lemma hint_sum_add {A} (f g : A -> Z) (l : list A) :
  hint_sum (map (fun a => f a + g a) l) = hint_sum (map f l) + hint_sum (map g l).
Proof. induction l as [|a l IH]; simpl; [reflexivity | rewrite IH; lia]. Qed.

Lemma filled_count_cons v line :
  filled_count (v :: line) = cell_count v + filled_count line.
Proof.
  unfold filled_count, cell_count. simpl. destruct (filled v); simpl length; lia.
Qed.

Lemma row_count_by_index (row : list Z) :
  hint_sum (map (fun j => cell_count (default 0 (row !! j))) (seq 0 (length row)))
  = filled_count row.
Proof.
  induction row as [|v rest IH]; [reflexivity |].
  simpl length. rewrite filled_count_cons, <- IH.
  simpl seq. rewrite <- seq_shift. simpl map. rewrite map_map. reflexivity.
Qed.

Lemma column_count_total (m : nat) : forall solution,
  rectangular solution m ->
  hint_sum (map (fun j => filled_count (column solution j)) (seq 0 m))
  = hint_sum (map filled_count solution).
Proof.
  induction solution as [|row rest IH]; intros Hrect.
  - simpl. induction (seq 0 m) as [|j l IHl]; simpl; [reflexivity | exact IHl].
  - apply Forall_cons in Hrect as [Hrow Hrest].
    simpl. rewrite <- (IH Hrest), <- row_count_by_index, Hrow, <- hint_sum_add.
    f_equal. apply map_ext. intros j. apply filled_count_cons.
Qed.

Lemma determine_hints_rectangular (solution : list (list Z)) (m : nat) :
  solution <> [] ->
  rectangular solution m ->
  determine_hints solution
  = Ok (map (fun j => run_lengths (column solution j)) (seq 0 m),
        map run_lengths solution).
Proof.
  intros Hne Hrect. unfold determine_hints.
  destruct solution as [|first rest]; [done |].
  change (py_getitem (first :: rest) 0) with (Ok first : result (list Z)).
  simpl result_bind.
  assert (length first = m) as Hfirst by (by inversion Hrect).
  unfold len at 1. rewrite Hfirst, range_seq.
  rewrite (col_loop_columns _ m)
    by (try done; apply Forall_forall;
        intros j Hj%list_elem_of_In%in_seq; lia).
  simpl result_bind. unfold row_loop. by rewrite row_loop_rows.
Qed.

(** C1: on a non-empty rectangular grid [determine_hints] returns, for every
    column in column order and every row in row order, the lengths of the
    maximal contiguous blocks of filled cells of that line in scan order;
    a line without a filled cell has the empty sequence. *)
Theorem determine_hints_run_lengths (solution : list (list Z)) (m : nat) :
  solution <> [] ->
  rectangular solution m ->
  determine_hints solution
  = Ok (map (fun j => run_lengths (column solution j)) (seq 0 m),
        map run_lengths solution)
  /\ (forall line, Forall (fun v => v <> 1) line -> run_lengths line = []).
Proof.
  intros Hne Hrect.
  split; [by apply determine_hints_rectangular | apply run_lengths_no_filled].
Qed.

Lemma determine_hints_run_lengths_witness :
  Utils.determine_hints [[1;1;0;1];[0;0;0;0];[1;0;1;1]]
  = Ok (map (fun j => run_lengths (column [[1;1;0;1];[0;0;0;0];[1;0;1;1]] j))
          (seq 0 4),
        map run_lengths [[1;1;0;1];[0;0;0;0];[1;0;1;1]])
  /\ (forall line, Forall (fun v => v <> 1) line -> run_lengths line = []).
Proof.
  apply (determine_hints_run_lengths [[1;1;0;1];[0;0;0;0];[1;0;1;1]] 4).
  - discriminate.
  - repeat constructor.
Defined.

(** C10: on a non-empty rectangular grid the hints have one sequence per
    row and one per column, every hint is strictly positive, the hints of a
    line sum to its number of filled cells, and the row hints and the column
    hints have the same grand total. *)
Theorem determine_hints_counts (solution : list (list Z)) (m : nat) :
  solution <> [] ->
  rectangular solution m ->
  exists column_hints row_hints,
    determine_hints solution = Ok (column_hints, row_hints)
    /\ length row_hints = length solution
    /\ length column_hints = m
    /\ Forall (Forall (fun h => 0 < h)) row_hints
    /\ Forall (Forall (fun h => 0 < h)) column_hints
    /\ map hint_sum row_hints = map filled_count solution
    /\ map hint_sum column_hints
       = map (fun j => filled_count (column solution j)) (seq 0 m)
    /\ hint_total row_hints = hint_total column_hints.
Proof.
  intros Hne Hrect.
  pose proof (determine_hints_rectangular solution m Hne Hrect) as Hdet.
  eexists _, _. split; [exact Hdet |].
  assert (map hint_sum (map run_lengths solution) = map filled_count solution)
    as Hrows.
  { rewrite map_map. apply map_ext, run_lengths_sum. }
  assert (map hint_sum
            (map (fun j => run_lengths (column solution j)) (seq 0 m))
          = map (fun j => filled_count (column solution j)) (seq 0 m))
    as Hcols.
  { rewrite map_map. apply map_ext. intros j. apply run_lengths_sum. }
  repeat split.
  - by rewrite length_map.
  - by rewrite length_map, length_seq.
  - apply Forall_forall. intros hint (line & <- & _)%list_elem_of_In%in_map_iff.
    apply run_lengths_positive.
  - apply Forall_forall. intros hint (j & <- & _)%list_elem_of_In%in_map_iff.
    apply run_lengths_positive.
  - exact Hrows.
  - exact Hcols.
  - unfold hint_total. rewrite Hrows, Hcols. symmetry.
    by apply column_count_total.
Qed.

Lemma determine_hints_counts_witness :
  exists column_hints row_hints,
    Utils.determine_hints [[1;1;0];[0;1;1]] = Ok (column_hints, row_hints)
    /\ length row_hints = 2%nat
    /\ length column_hints = 3%nat
    /\ Forall (Forall (fun h => 0 < h)) row_hints
    /\ Forall (Forall (fun h => 0 < h)) column_hints
    /\ map hint_sum row_hints = map filled_count [[1;1;0];[0;1;1]]
    /\ map hint_sum column_hints
       = map (fun j => filled_count (column [[1;1;0];[0;1;1]] j)) (seq 0 3)
    /\ hint_total row_hints = hint_total column_hints.
Proof.
  apply (determine_hints_counts [[1;1;0];[0;1;1]] 3).
  - discriminate.
  - repeat constructor.
Defined.

End HintProofs.

(** ** The game state machine *)

Import Game GameSpec.

Lemma py_getitem_in {A} (l : list A) (i : Z) :
  0 <= i < len l -> exists a, l !! Z.to_nat i = Some a /\ py_getitem l i = Ok a.
Proof.
  intros Hi. unfold py_getitem. rewrite py_pos_in by exact Hi.
  destruct (lookup_lt_is_Some_2 l (Z.to_nat i)) as [a Ha];
    [unfold len in Hi; lia |].
  exists a. by rewrite Ha.
Qed.

Lemma py_getitem_lookup {A} (l : list A) (i : Z) a :
  0 <= i -> l !! Z.to_nat i = Some a -> py_getitem l i = Ok a.
Proof.
  intros Hi Ha. unfold py_getitem.
  rewrite py_pos_in, Ha; [reflexivity |].
  apply lookup_lt_Some in Ha. unfold len. lia.
Qed.

Lemma py_getitem_Ok_in {A} (l : list A) (i : Z) a :
  0 <= i -> py_getitem l i = Ok a -> l !! Z.to_nat i = Some a.
Proof.
  intros Hi. unfold py_getitem, py_pos.
  destruct (Z.ltb_spec i 0); [lia |].
  destruct (0 <=? i); simpl; [| discriminate].
  destruct (i <? len l); [| discriminate].
  destruct (l !! Z.to_nat i); [congruence | discriminate].
Qed.

Lemma getitem2_lookup {A} (g : list (list A)) (y x : Z) a :
  0 <= y -> 0 <= x ->
  getitem2 g y x = Ok a
  <-> exists row, g !! Z.to_nat y = Some row /\ row !! Z.to_nat x = Some a.
Proof.
  intros Hy Hx. unfold getitem2. split.
  - destruct (py_getitem g y) as [row|] eqn:Hrow; simpl; [| discriminate].
    intros Ha. exists row. split; by apply py_getitem_Ok_in.
  - intros (row & Hrow & Ha).
    rewrite (py_getitem_lookup g y row) by assumption. simpl.
    by apply py_getitem_lookup.
Qed.

Lemma setitem2_in {A} (g : list (list A)) (y x : Z) v row :
  0 <= y -> 0 <= x ->
  g !! Z.to_nat y = Some row -> (Z.to_nat x < length row)%nat ->
  setitem2 g y x v
  = Ok (<[Z.to_nat y := <[Z.to_nat x := v]> row]> g).
Proof.
  intros Hy Hx Hrow Hlen. unfold setitem2, py_setitem.
  rewrite py_pos_in, Hrow by (apply lookup_lt_Some in Hrow; unfold len; lia).
  rewrite py_pos_in by (unfold len; lia). reflexivity.
Qed.

Lemma elem_of_range n i : i ∈ range n <-> 0 <= i < n.
Proof. unfold range. rewrite elem_of_seqZ. lia. Qed.

Lemma wf_play_cell self y x :
  wf self -> in_bounds self y x -> exists c, play_cell self y x = Ok c.
Proof.
  intros Hwf [Hy Hx]. unfold play_cell, getitem2.
  destruct (py_getitem_in (grid self) y) as (row & Hrow & ->);
    [rewrite (wf_grid_rows _ Hwf); lia |].
  simpl.
  destruct (py_getitem_in row x) as (c & _ & ->); [| by exists c].
  pose proof (wf_grid_columns _ Hwf) as Hcols.
  rewrite Forall_lookup in Hcols. rewrite (Hcols _ _ Hrow). lia.
Qed.

Lemma wf_solution_cell self y x :
  wf self -> in_bounds self y x -> exists s, solution_cell self y x = Ok s.
Proof.
  intros Hwf [Hy Hx]. unfold solution_cell, getitem2.
  destruct (py_getitem_in (solution self) (n_rows self - y - 1))
    as (row & Hrow & ->); [rewrite <- (wf_n_rows _ Hwf); lia |].
  simpl.
  destruct (py_getitem_in row x) as (s & _ & ->); [| by exists s].
  pose proof (wf_solution _ Hwf) as Hsol.
  rewrite Forall_lookup in Hsol. specialize (Hsol _ _ Hrow). simpl in Hsol. lia.
Qed.

Lemma draw_cols_ok self i js :
  (forall j, j ∈ js -> exists c, getitem2 (grid self) i j = Ok c) ->
  draw_cols self i js = Ok tt.
Proof.
  induction js as [|j rest IH]; intros Hjs; simpl; [reflexivity |].
  destruct (Hjs j) as [c ->]; [left |]. simpl.
  apply IH. intros j' Hj'. apply Hjs. by right.
Qed.

Lemma draw_rows_ok self rows :
  (forall i j, i ∈ rows -> j ∈ range (n_columns self) ->
     exists c, getitem2 (grid self) i j = Ok c) ->
  draw_rows self rows = Ok tt.
Proof.
  induction rows as [|i rest IH]; intros Hrows; simpl; [reflexivity |].
  rewrite draw_cols_ok by (intros j Hj; apply Hrows; [left | exact Hj]).
  simpl. apply IH. intros i' j Hi' Hj. apply Hrows; [by right | exact Hj].
Qed.

Lemma col_loop_length solution : forall cols hints column_hints,
  Utils.col_loop solution cols hints = Ok column_hints ->
  length column_hints = (length hints + length cols)%nat.
Proof.
  induction cols as [|col rest IH]; intros hints column_hints; simpl.
  - intros [= <-]. lia.
  - destruct (Utils.col_scan _ _ _ _) as [acc|]; simpl; [| discriminate].
    intros Hloop%IH. rewrite length_app in Hloop. simpl in Hloop. lia.
Qed.

Lemma row_loop_length solution : length (Utils.row_loop solution) = length solution.
Proof.
  unfold Utils.row_loop.
  assert (forall hints : list (list Z),
    length (fold_left
      (fun row_hints row =>
         row_hints ++ [Utils.scan_finish (fold_left Utils.scan_step row ([], 0))])
      solution hints) = (length hints + length solution)%nat) as Hgen.
  { induction solution as [|row rest IH]; intros hints; simpl; [lia |].
    rewrite IH, length_app. simpl. lia. }
  apply (Hgen []).
Qed.

Lemma length_range n : 0 <= n -> len (range n) = n.
Proof. intros Hn. unfold len, range. rewrite length_seqZ. lia. Qed.

Lemma wf_hints_nonempty self :
  wf self -> column_hints self <> [] /\ row_hints self <> [].
Proof.
  intros Hwf. pose proof (wf_hints _ Hwf) as Hhints.
  destruct (wf_n_columns _ Hwf) as (first & Hfirst & Hcols).
  pose proof (wf_columns_pos _ Hwf) as Hpos.
  unfold Utils.determine_hints in Hhints.
  rewrite (py_getitem_lookup _ 0 first) in Hhints by (done || lia).
  simpl in Hhints.
  destruct (Utils.col_loop _ _ _) as [ch|] eqn:Hloop; simpl in Hhints;
    [| discriminate].
  injection Hhints as <- <-.
  apply col_loop_length in Hloop.
  unfold range in Hloop. rewrite length_seqZ in Hloop.
  pose proof (row_loop_length (solution self)) as Hrows.
  apply lookup_lt_Some in Hfirst. unfold len in *.
  split; intros Heq; rewrite Heq in *; simpl in *; lia.
Qed.

Lemma draw_ok self : wf self -> draw self = (self, [CanvasDraw], Ok tt).
Proof.
  intros Hwf. unfold draw, bind, reads, signal.
  rewrite draw_rows_ok.
  - destruct (wf_hints_nonempty self Hwf) as [Hc Hr].
    destruct (column_hints self); [done |].
    destruct (row_hints self); [done |]. reflexivity.
  - intros i j Hi%elem_of_range Hj%elem_of_range.
    by apply (wf_play_cell self i j Hwf).
Qed.

Lemma check_cols_spec self i js :
  (forall j, j ∈ js ->
     (exists s, getitem2 (solution self) (n_rows self - i - 1) j = Ok s)
     /\ (exists c, getitem2 (grid self) i j = Ok c)) ->
  exists b, check_cols self i js = Ok b
    /\ (b = true <->
        forall j, j ∈ js ->
          getitem2 (solution self) (n_rows self - i - 1) j = Ok 1 ->
          getitem2 (grid self) i j = Ok Filled).
Proof.
  induction js as [|j rest IH]; intros Hjs; simpl.
  - exists true. split; [reflexivity |]. split; [| reflexivity].
    intros _ j Hj. by apply elem_of_nil in Hj.
  - destruct (Hjs j) as [[s Hs] [c Hc]]; [left |].
    destruct IH as (b & Hb & Hiff);
      [intros j' Hj'; apply Hjs; by right |].
    rewrite Hs. simpl. destruct (Z.eqb_spec s 1) as [->|Hne].
    + rewrite Hc. simpl. destruct (String.eqb_spec c "1") as [->|Hc1]; simpl.
      * exists b. split; [exact Hb |]. rewrite Hiff. split.
        -- intros Hrest j' [->|Hj']%elem_of_cons; [done | by apply Hrest].
        -- intros Hall j' Hj'. apply Hall. by right.
      * exists false. split; [reflexivity |]. split; [discriminate |].
        intros Hall. specialize (Hall j (list_elem_of_here _ _) Hs).
        rewrite Hc in Hall. injection Hall as ->. done.
    + exists b. split; [exact Hb |]. rewrite Hiff. split.
      * intros Hrest j' [->|Hj']%elem_of_cons; [| by apply Hrest].
        rewrite Hs. intros [= ->]. done.
      * intros Hall j' Hj'. apply Hall. by right.
Qed.

Lemma check_rows_spec self rows :
  (forall i j, i ∈ rows -> j ∈ range (n_columns self) ->
     (exists s, getitem2 (solution self) (n_rows self - i - 1) j = Ok s)
     /\ (exists c, getitem2 (grid self) i j = Ok c)) ->
  exists b, check_rows self rows = Ok b
    /\ (b = true <->
        forall i j, i ∈ rows -> j ∈ range (n_columns self) ->
          getitem2 (solution self) (n_rows self - i - 1) j = Ok 1 ->
          getitem2 (grid self) i j = Ok Filled).
Proof.
  induction rows as [|i rest IH]; intros Hrows; simpl.
  - exists true. split; [reflexivity |]. split; [| reflexivity].
    intros _ i j Hi. by apply elem_of_nil in Hi.
  - destruct (check_cols_spec self i (range (n_columns self)))
      as (b & -> & Hiff); [intros j Hj; apply Hrows; [left | exact Hj] |].
    destruct IH as (b' & Hb' & Hiff');
      [intros i' j Hi' Hj; apply Hrows; [by right | exact Hj] |].
    simpl. destruct b.
    + exists b'. split; [exact Hb' |]. rewrite Hiff'. split.
      * intros Hrest i' j [->|Hi']%elem_of_cons Hj; [| by apply Hrest].
        by apply Hiff.
      * intros Hall i' j Hi' Hj. apply Hall; [by right | exact Hj].
    + exists false. split; [reflexivity |]. split; [discriminate |].
      intros Hall. apply Hiff. intros j Hj. apply Hall; [left | exact Hj].
Qed.

Lemma check_state_solved self :
  wf self ->
  exists won, check_state self = (self, [], Ok won) /\ (won = true <-> solved self).
Proof.
  intros Hwf. unfold check_state, reads.
  destruct (check_rows_spec self (range (n_rows self))) as (b & -> & Hiff).
  - intros i j Hi%elem_of_range Hj%elem_of_range. split.
    + by apply (wf_solution_cell self i j Hwf).
    + by apply (wf_play_cell self i j Hwf).
  - exists b. split; [reflexivity |]. rewrite Hiff. unfold solved, in_bounds.
    split.
    + intros Hall y x [Hy Hx]. apply Hall; by apply elem_of_range.
    + intros Hall i j Hi%elem_of_range Hj%elem_of_range. by apply Hall.
Qed.

Lemma after_click_ok self :
  wf self ->
  exists won,
    after_click self = (self, CanvasDraw :: won_dialog won, Ok tt)
    /\ (won = true <-> solved self).
Proof.
  intros Hwf. destruct (check_state_solved self Hwf) as (won & Hcheck & Hiff).
  exists won. split; [| exact Hiff].
  unfold after_click, bind. rewrite (draw_ok self Hwf), Hcheck.
  destruct won; reflexivity.
Qed.

Lemma wf_grid_row self y x :
  wf self -> in_bounds self y x ->
  exists row, grid self !! Z.to_nat y = Some row
              /\ (Z.to_nat x < length row)%nat.
Proof.
  intros Hwf [Hy Hx].
  destruct (lookup_lt_is_Some_2 (grid self) (Z.to_nat y)) as [row Hrow].
  { pose proof (wf_grid_rows _ Hwf) as Hrows. unfold len in Hrows. lia. }
  exists row. split; [exact Hrow |].
  pose proof (wf_grid_columns _ Hwf) as Hcols.
  rewrite Forall_lookup in Hcols. specialize (Hcols _ _ Hrow).
  unfold len in Hcols. lia.
Qed.

Lemma mark_in self y x v :
  wf self -> in_bounds self y x ->
  exists row,
    grid self !! Z.to_nat y = Some row
    /\ (Z.to_nat x < length row)%nat
    /\ setitem2 (grid self) y x v
       = Ok (<[Z.to_nat y := <[Z.to_nat x := v]> row]> (grid self))
    /\ mark self y x v
       = set_grid (<[Z.to_nat y := <[Z.to_nat x := v]> row]> (grid self)) self.
Proof.
  intros Hwf Hin. destruct (wf_grid_row self y x Hwf Hin) as (row & Hrow & Hlen).
  exists row. destruct Hin as [Hy Hx].
  assert (setitem2 (grid self) y x v
          = Ok (<[Z.to_nat y := <[Z.to_nat x := v]> row]> (grid self))) as Hset
    by (apply setitem2_in; (lia || done)).
  repeat split; try done. unfold mark. by rewrite Hset.
Qed.

Lemma set_cell_in self y x v :
  wf self -> in_bounds self y x ->
  set_cell y x v self = (mark self y x v, [], Ok tt).
Proof.
  intros Hwf Hin. destruct (mark_in self y x v Hwf Hin) as (row & _ & _ & Hset & Hmark).
  unfold set_cell. by rewrite Hset, Hmark.
Qed.

Lemma mark_wf self y x v : wf self -> in_bounds self y x -> wf (mark self y x v).
Proof.
  intros Hwf Hin.
  destruct (mark_in self y x v Hwf Hin) as (row & Hrow & Hlen & _ & ->).
  destruct Hwf as [H1 H2 H3 H4 H5 H6 H7].
  constructor; simpl; try done.
  - unfold len. by rewrite length_insert.
  - apply Forall_insert; [exact H6 |].
    rewrite Forall_lookup in H6. specialize (H6 _ _ Hrow). simpl in H6.
    unfold len in *. by rewrite length_insert.
Qed.

Lemma mark_same self y x v :
  wf self -> in_bounds self y x -> play_cell (mark self y x v) y x = Ok v.
Proof.
  intros Hwf Hin.
  destruct (mark_in self y x v Hwf Hin) as (row & Hrow & Hlen & _ & ->).
  destruct Hin as [Hy Hx]. unfold play_cell. simpl.
  apply getitem2_lookup; [lia | lia |].
  exists (<[Z.to_nat x := v]> row). split.
  - apply list_lookup_insert_eq. by apply lookup_lt_Some in Hrow.
  - by apply list_lookup_insert_eq.
Qed.

Lemma mark_other self y x v y' x' :
  wf self -> in_bounds self y x -> in_bounds self y' x' ->
  (y', x') <> (y, x) ->
  play_cell (mark self y x v) y' x' = play_cell self y' x'.
Proof.
  intros Hwf Hin Hin' Hne.
  destruct (wf_play_cell self y' x' Hwf Hin') as [c Hc]. rewrite Hc.
  destruct (mark_in self y x v Hwf Hin) as (row & Hrow & Hlen & _ & ->).
  destruct Hin as [Hy Hx], Hin' as [Hy' Hx']. unfold play_cell in *. simpl.
  apply getitem2_lookup in Hc as (row' & Hrow' & Hc'); [| lia | lia].
  apply getitem2_lookup; [lia | lia |].
  destruct (decide (y' = y)) as [->|Hyy].
  - exists (<[Z.to_nat x := v]> row). split.
    + apply list_lookup_insert_eq. by apply lookup_lt_Some in Hrow.
    + assert (row' = row) as -> by congruence.
      rewrite list_lookup_insert_ne; [exact Hc' |].
      intros Heq. apply Hne. f_equal. lia.
  - exists row'. split; [| exact Hc'].
    rewrite list_lookup_insert_ne; [exact Hrow' | lia].
Qed.

Lemma mark_solution_cell self y x v y' x' :
  solution_cell (mark self y x v) y' x' = solution_cell self y' x'.
Proof. unfold mark. by destruct (setitem2 _ _ _ _). Qed.

Lemma mark_in_bounds self y x v y' x' :
  in_bounds (mark self y x v) y' x' <-> in_bounds self y' x'.
Proof. unfold mark. by destruct (setitem2 _ _ _ _). Qed.

Lemma mark_tries self y x v : tries_left (mark self y x v) = tries_left self.
Proof. unfold mark. by destruct (setitem2 _ _ _ _). Qed.

Section ClickCases.

Variable MAX_TRIES : Z.

Local Arguments after_click : simpl never.
Local Arguments restart_game : simpl never.
Local Arguments set_cell : simpl never.

Lemma fresh_grid_lookup n_columns n_rows (i : nat) row :
  fresh_grid n_columns n_rows !! i = Some row ->
  row = map (fun _ => Unmarked) (range n_columns).
Proof.
  unfold fresh_grid. rewrite list_lookup_fmap.
  destruct (range n_rows !! i); simpl; [by intros [= <-] | discriminate].
Qed.

Lemma fresh_wf self : wf self -> wf (fresh MAX_TRIES self).
Proof.
  intros [H1 H2 H3 H4 H5 H6 H7]. constructor; simpl; try done.
  - unfold fresh_grid, len. rewrite length_map.
    apply (length_range (n_rows self)). rewrite H1. unfold len. lia.
  - apply Forall_lookup. intros i row ->%fresh_grid_lookup.
    unfold len. rewrite length_map. apply length_range. lia.
Qed.

Lemma fresh_play_cell self y x :
  wf self -> in_bounds self y x ->
  play_cell (fresh MAX_TRIES self) y x = Ok Unmarked.
Proof.
  intros Hwf Hin.
  destruct (wf_play_cell _ y x (fresh_wf self Hwf) Hin) as [c Hc].
  rewrite Hc. f_equal. destruct Hin as [Hy Hx].
  apply getitem2_lookup in Hc as (row & Hrow & Hc); [| lia | lia].
  simpl in Hrow. apply fresh_grid_lookup in Hrow as ->.
  rewrite list_lookup_fmap in Hc.
  destruct (range (n_columns self) !! Z.to_nat x); simpl in Hc;
    [by injection Hc as <- | discriminate].
Qed.

Lemma restart_game_ok self :
  wf self ->
  restart_game MAX_TRIES self
  = (fresh MAX_TRIES self, [LabelConfig MAX_TRIES; CanvasDraw], Ok tt).
Proof.
  intros Hwf. pose proof (draw_ok _ (fresh_wf self Hwf)) as Hdraw.
  unfold restart_game, bind, write, read, reads, signal. simpl.
  rewrite (wf_hints _ Hwf). simpl.
  unfold fresh in Hdraw. unfold set_hints, set_tries_left, set_grid. simpl.
  rewrite Hdraw. reflexivity.
Qed.

Lemma on_click_fill self y x :
  wf self -> in_bounds self y x ->
  play_cell self y x = Ok Unmarked ->
  solution_cell self y x = Ok 1 ->
  exists won,
    on_click MAX_TRIES Primary x y self
    = (mark self y x Filled, CanvasDraw :: won_dialog won, Ok tt)
    /\ (won = true <-> solved (mark self y x Filled)).
Proof.
  intros Hwf Hin Hcell Hsol.
  destruct (after_click_ok _ (mark_wf self y x Filled Hwf Hin))
    as (won & Hafter & Hiff).
  exists won. split; [| exact Hiff].
  unfold play_cell, solution_cell, Filled, Crossed, Unmarked in *.
  unfold on_click, bind, reads. simpl. rewrite Hcell. simpl. rewrite Hsol. simpl.
  rewrite (set_cell_in self y x _ Hwf Hin). rewrite Hafter. reflexivity.
Qed.

Lemma on_click_mistake self y x s :
  wf self -> in_bounds self y x ->
  play_cell self y x = Ok Unmarked ->
  solution_cell self y x = Ok s -> s <> 1 ->
  tries_left self - 1 <> 0 ->
  exists won,
    on_click MAX_TRIES Primary x y self
    = (set_tries_left (tries_left self - 1) (mark self y x Crossed),
       [LabelConfig (tries_left self - 1); ShowInfo "Mistake"; CanvasDraw]
       ++ won_dialog won,
       Ok tt)
    /\ (won = true
        <-> solved (set_tries_left (tries_left self - 1)
                      (mark self y x Crossed))).
Proof.
  intros Hwf Hin Hcell Hsol Hs Htries.
  assert (wf (set_tries_left (tries_left self - 1) (mark self y x Crossed)))
    as Hwf'.
  { destruct (mark_wf self y x Crossed Hwf Hin). by constructor. }
  destruct (after_click_ok _ Hwf') as (won & Hafter & Hiff).
  exists won. split; [| exact Hiff].
  unfold play_cell, solution_cell, Filled, Crossed, Unmarked in *.
  unfold on_click, bind, reads. simpl. rewrite Hcell. simpl. rewrite Hsol. simpl.
  destruct (Z.eqb_spec s 1); [done |].
  rewrite (set_cell_in self y x _ Hwf Hin). unfold write, read, signal. simpl.
  rewrite mark_tries.
  destruct (Z.eqb_spec (tries_left self - 1) 0); [done |].
  rewrite Hafter. reflexivity.
Qed.

Lemma on_click_game_over self y x s :
  wf self -> in_bounds self y x ->
  play_cell self y x = Ok Unmarked ->
  solution_cell self y x = Ok s -> s <> 1 ->
  tries_left self - 1 = 0 ->
  on_click MAX_TRIES Primary x y self
  = (fresh MAX_TRIES self,
     [LabelConfig 0; ShowInfo "Game over"; LabelConfig MAX_TRIES; CanvasDraw],
     Ok tt).
Proof.
  intros Hwf Hin Hcell Hsol Hs Htries.
  assert (wf (set_tries_left (tries_left self - 1) (mark self y x Crossed)))
    as Hwf'.
  { destruct (mark_wf self y x Crossed Hwf Hin). by constructor. }
  pose proof (restart_game_ok _ Hwf') as Hrestart.
  unfold play_cell, solution_cell, Filled, Crossed, Unmarked in *.
  unfold on_click, bind, reads. simpl. rewrite Hcell. simpl. rewrite Hsol. simpl.
  destruct (Z.eqb_spec s 1); [done |].
  rewrite (set_cell_in self y x _ Hwf Hin). unfold write, read, signal. simpl.
  rewrite mark_tries, Htries. simpl.
  rewrite Htries in Hrestart. rewrite Hrestart. simpl.
  f_equal. f_equal. unfold fresh, mark.
  by destruct (setitem2 _ _ _ _).
Qed.

Lemma on_click_marked self y x c :
  wf self ->
  play_cell self y x = Ok c -> c <> Unmarked ->
  exists won,
    on_click MAX_TRIES Primary x y self
    = (self, CanvasDraw :: won_dialog won, Ok tt)
    /\ (won = true <-> solved self).
Proof.
  intros Hwf Hcell Hc.
  destruct (after_click_ok _ Hwf) as (won & Hafter & Hiff).
  exists won. split; [| exact Hiff].
  unfold play_cell, Filled, Crossed, Unmarked in *.
  unfold on_click, bind, reads. simpl. rewrite Hcell. simpl.
  destruct (String.eqb_spec c "0"); [done |]. rewrite Hafter. reflexivity.
Qed.


Lemma mark_id self y x c :
  wf self -> in_bounds self y x ->
  play_cell self y x = Ok c -> mark self y x c = self.
Proof.
  intros Hwf Hin Hc.
  destruct (mark_in self y x c Hwf Hin) as (row & Hrow & Hlen & _ & ->).
  destruct Hin as [Hy Hx].
  apply getitem2_lookup in Hc as (row' & Hrow' & Hc); [| lia | lia].
  assert (row' = row) as -> by congruence.
  rewrite (list_insert_id row), (list_insert_id (grid self)) by done.
  by destruct self.
Qed.

Lemma on_click_secondary self y x c :
  wf self -> in_bounds self y x ->
  play_cell self y x = Ok c ->
  exists won,
    on_click MAX_TRIES Secondary x y self
    = (mark self y x (toggle c), CanvasDraw :: won_dialog won, Ok tt)
    /\ (won = true <-> solved (mark self y x (toggle c))).
Proof.
  intros Hwf Hin Hcell.
  destruct (after_click_ok _ (mark_wf self y x (toggle c) Hwf Hin))
    as (won & Hafter & Hiff).
  exists won. split; [| exact Hiff].
  revert Hafter. unfold toggle, Unmarked, Crossed.
  unfold play_cell, Filled, Crossed, Unmarked in *.
  unfold on_click, bind, reads. simpl. rewrite Hcell. simpl.
  destruct (String.eqb_spec c "0") as [->|Hc0].
  - rewrite (set_cell_in self y x _ Hwf Hin). by intros ->.
  - rewrite Hcell. destruct (String.eqb_spec c "x") as [->|Hcx].
    + rewrite (set_cell_in self y x _ Hwf Hin). by intros ->.
    + rewrite (mark_id self y x c Hwf Hin Hcell). by intros ->.
Qed.

End ClickCases.

Lemma demo_wf c00 c01 c10 c11 tries :
  wf (demo [[c00; c01]; [c10; c11]] tries).
Proof.
  constructor; simpl; try reflexivity.
  - by exists [1; 0].
  - repeat constructor; unfold len; simpl; lia.
  - by repeat constructor.
Defined.

Section WinCheck.

Lemma bool_iff_eq (a b : bool) (P : Prop) :
  (a = true <-> P) -> (b = true <-> P) -> a = b.
Proof. destruct a, b; intuition congruence. Qed.

(** C2: on a state of the game [check_state] changes nothing and calls
    nothing, and it returns [True] exactly when every cell that the solution
    marks filled is [Filled] in the play grid; the cells that the solution
    leaves empty are not looked at, so another play grid that agrees on the
    solution-filled cells gets the same answer. *)
Theorem check_state_solved_iff (self : Nonogram) :
  wf self ->
  exists won,
    check_state self = (self, [], Ok won)
    /\ (won = true <-> solved self)
    /\ (forall other,
          wf other ->
          solution other = solution self ->
          n_rows other = n_rows self ->
          n_columns other = n_columns self ->
          (forall y x, in_bounds self y x ->
             solution_cell self y x = Ok 1 ->
             play_cell other y x = play_cell self y x) ->
          check_state other = (other, [], Ok won)).
Proof.
  intros Hwf. destruct (check_state_solved self Hwf) as (won & Hcheck & Hiff).
  exists won. split; [exact Hcheck |]. split; [exact Hiff |].
  intros other Hwf' Hsol Hrows Hcols Hsame.
  destruct (check_state_solved other Hwf') as (won' & Hcheck' & Hiff').
  rewrite Hcheck'. do 2 f_equal.
  apply (bool_iff_eq won' won (solved self)); [| exact Hiff].
  rewrite Hiff'. unfold solved, in_bounds, solution_cell. rewrite Hrows, Hcols, Hsol.
  split; intros Hall y x Hin Hfilled.
  - rewrite <- (Hsame y x Hin Hfilled). by apply Hall.
  - rewrite (Hsame y x Hin Hfilled). by apply Hall.
Qed.

End WinCheck.

Lemma check_state_solved_iff_witness :
  exists won,
    check_state (demo [["x"; "1"]; ["1"; "0"]] 2)
    = (demo [["x"; "1"]; ["1"; "0"]] 2, [], Ok won)
    /\ (won = true <-> solved (demo [["x"; "1"]; ["1"; "0"]] 2))
    /\ (forall other,
          wf other ->
          solution other = [[1; 0]; [0; 1]] ->
          n_rows other = 2 ->
          n_columns other = 2 ->
          (forall y x, in_bounds (demo [["x"; "1"]; ["1"; "0"]] 2) y x ->
             solution_cell (demo [["x"; "1"]; ["1"; "0"]] 2) y x = Ok 1 ->
             play_cell other y x
             = play_cell (demo [["x"; "1"]; ["1"; "0"]] 2) y x) ->
          check_state other = (other, [], Ok won)).
Proof.
  apply (check_state_solved_iff (demo [["x"; "1"]; ["1"; "0"]] 2)).
  apply demo_wf.
Defined.

Section MarkedCells.

Variable MAX_TRIES : Z.

Lemma toggle_toggle c : toggle (toggle c) = c.
Proof.
  unfold toggle, Unmarked, Crossed.
  destruct (String.eqb_spec c "0") as [->|H0]; [reflexivity |].
  destruct (String.eqb_spec c "x") as [->|Hx]; [reflexivity |].
  destruct (String.eqb_spec c "0"); [done |].
  destruct (String.eqb_spec c "x"); done.
Qed.

Lemma mark_mark self y x v c :
  wf self -> in_bounds self y x ->
  play_cell self y x = Ok c ->
  mark (mark self y x v) y x c = self.
Proof.
  intros Hwf Hin Hc.
  pose proof (mark_wf self y x v Hwf Hin) as Hwf'.
  assert (in_bounds (mark self y x v) y x) as Hin' by (by apply mark_in_bounds).
  destruct (mark_in _ y x c Hwf' Hin') as (row' & Hrow' & _ & _ & ->).
  destruct (mark_in self y x v Hwf Hin) as (row & Hrow & Hlen & _ & Hmark).
  rewrite Hmark in *. simpl in *.
  rewrite list_lookup_insert_eq in Hrow' by (by apply lookup_lt_Some in Hrow).
  injection Hrow' as <-.
  destruct Hin as [Hy Hx].
  apply getitem2_lookup in Hc as (row0 & Hrow0 & Hc); [| lia | lia].
  assert (row0 = row) as -> by congruence.
  rewrite list_insert_insert_eq, list_insert_insert_eq.
  rewrite (list_insert_id row), (list_insert_id (grid self)) by done.
  by destruct self.
Qed.

(** C6: a secondary click turns an [Unmarked] cell into a [Crossed] one and
    a [Crossed] cell into an [Unmarked] one, whatever the solution holds
    there, leaves a [Filled] cell (and then the whole object) as it is, never
    touches another cell, the tries counter or the solution, and a second
    secondary click on the same cell gives back the object from before the
    first. *)
Theorem secondary_click_toggles (self : Nonogram) (y x : Z) (c : string) :
  wf self ->
  in_bounds self y x ->
  play_cell self y x = Ok c ->
  exists self' won won',
    on_click MAX_TRIES Secondary x y self
    = (self', CanvasDraw :: won_dialog won, Ok tt)
    /\ (c = Unmarked -> play_cell self' y x = Ok Crossed)
    /\ (c = Crossed -> play_cell self' y x = Ok Unmarked)
    /\ (c = Filled -> self' = self)
    /\ (forall y' x', in_bounds self y' x' -> (y', x') <> (y, x) ->
          play_cell self' y' x' = play_cell self y' x')
    /\ tries_left self' = tries_left self
    /\ solution self' = solution self
    /\ on_click MAX_TRIES Secondary x y self'
       = (self, CanvasDraw :: won_dialog won', Ok tt).
Proof.
  intros Hwf Hin Hcell.
  destruct (on_click_secondary MAX_TRIES self y x c Hwf Hin Hcell)
    as (won & Hclick & _).
  pose proof (mark_wf self y x (toggle c) Hwf Hin) as Hwf'.
  assert (in_bounds (mark self y x (toggle c)) y x) as Hin'
    by (by apply mark_in_bounds).
  pose proof (mark_same self y x (toggle c) Hwf Hin) as Hcell'.
  destruct (on_click_secondary MAX_TRIES _ y x _ Hwf' Hin' Hcell')
    as (won' & Hclick' & _).
  rewrite toggle_toggle, (mark_mark self y x _ c Hwf Hin Hcell) in Hclick'.
  exists (mark self y x (toggle c)), won, won'.
  split; [exact Hclick |].
  split; [by intros -> |]. split; [by intros -> |].
  split; [intros ->; by apply mark_id |].
  split; [intros y' x' Hin2 Hne; by apply mark_other |].
  split; [apply mark_tries |].
  split; [| exact Hclick'].
  unfold mark. by destruct (setitem2 _ _ _ _).
Qed.

(** C9: a primary click on a cell that is [Filled] or [Crossed] leaves the
    whole object as it is: play grid, tries counter, solution and hints. Only
    the redraw and the win check follow. *)
Theorem primary_click_on_marked_cell (self : Nonogram) (y x : Z) (c : string) :
  wf self ->
  play_cell self y x = Ok c ->
  c = Filled \/ c = Crossed ->
  exists won,
    on_click MAX_TRIES Primary x y self
    = (self, CanvasDraw :: won_dialog won, Ok tt).
Proof.
  intros Hwf Hcell Hc.
  destruct (on_click_marked MAX_TRIES self y x c Hwf Hcell) as (won & Hclick & _).
  - by destruct Hc as [->| ->].
  - by exists won.
Qed.

End MarkedCells.

Lemma secondary_click_toggles_witness :
  exists self' won won',
    on_click 3 Secondary 0 1 (demo [["x"; "1"]; ["0"; "0"]] 2)
    = (self', CanvasDraw :: won_dialog won, Ok tt)
    /\ ("0"%string = Unmarked -> play_cell self' 1 0 = Ok Crossed)
    /\ ("0"%string = Crossed -> play_cell self' 1 0 = Ok Unmarked)
    /\ ("0"%string = Filled -> self' = demo [["x"; "1"]; ["0"; "0"]] 2)
    /\ (forall y' x', in_bounds (demo [["x"; "1"]; ["0"; "0"]] 2) y' x' ->
          (y', x') <> (1, 0) ->
          play_cell self' y' x'
          = play_cell (demo [["x"; "1"]; ["0"; "0"]] 2) y' x')
    /\ tries_left self' = 2
    /\ solution self' = [[1; 0]; [0; 1]]
    /\ on_click 3 Secondary 0 1 self'
       = (demo [["x"; "1"]; ["0"; "0"]] 2, CanvasDraw :: won_dialog won', Ok tt).
Proof.
  apply (secondary_click_toggles 3 (demo [["x"; "1"]; ["0"; "0"]] 2) 1 0 "0").
  - apply demo_wf.
  - unfold in_bounds. simpl. lia.
  - reflexivity.
Defined.

Lemma primary_click_on_marked_cell_witness :
  exists won,
    on_click 3 Primary 0 0 (demo [["x"; "1"]; ["0"; "0"]] 2)
    = (demo [["x"; "1"]; ["0"; "0"]] 2, CanvasDraw :: won_dialog won, Ok tt).
Proof.
  apply (primary_click_on_marked_cell 3 (demo [["x"; "1"]; ["0"; "0"]] 2) 0 0 "x").
  - apply demo_wf.
  - reflexivity.
  - right. reflexivity.
Defined.

Lemma demo3_wf c00 c01 c02 c10 c11 c12 tries :
  wf (demo3 [[c00; c01; c02]; [c10; c11; c12]] tries).
Proof.
  constructor; simpl; try reflexivity.
  - by exists [1; 0; 0].
  - repeat constructor; unfold len; simpl; lia.
  - by repeat constructor.
Defined.

Section Mistakes.

Variable MAX_TRIES : Z.

Lemma mistake_wf self y x t :
  wf self -> in_bounds self y x ->
  wf (set_tries_left t (mark self y x Crossed)).
Proof.
  intros Hwf Hin. destruct (mark_wf self y x Crossed Hwf Hin). by constructor.
Qed.

Lemma fresh_mistake self y x t :
  fresh MAX_TRIES (set_tries_left t (mark self y x Crossed))
  = fresh MAX_TRIES self.
Proof. unfold fresh, mark. by destruct (setitem2 _ _ _ _). Qed.

(** C3, as amended: a primary click on an [Unmarked] cell that the solution
    leaves empty crosses the cell and takes one try; while tries remain, the
    "Mistake" dialog follows the label update. When the counter reaches 0
    the "Game over" dialog is shown in place of the "Mistake" dialog, then
    [restart_game] runs in the same call: the play grid is all [Unmarked]
    again and the counter is back at [MAX_TRIES]. With [MAX_TRIES = 3] three
    mistaken primary clicks on three distinct cells take the counter from 3
    through 2 and 1 to 0 and end in that restart. *)
Theorem mistaken_primary_click :
  (forall self y x s,
     wf self -> in_bounds self y x ->
     play_cell self y x = Ok Unmarked ->
     solution_cell self y x = Ok s -> s <> 1 ->
     play_cell (mark self y x Crossed) y x = Ok Crossed
     /\ (tries_left self - 1 <> 0 ->
         exists won,
           on_click MAX_TRIES Primary x y self
           = (set_tries_left (tries_left self - 1) (mark self y x Crossed),
              [LabelConfig (tries_left self - 1); ShowInfo "Mistake";
               CanvasDraw] ++ won_dialog won,
              Ok tt))
     /\ (tries_left self - 1 = 0 ->
         on_click MAX_TRIES Primary x y self
         = (fresh MAX_TRIES self,
            [LabelConfig 0; ShowInfo "Game over";
             LabelConfig MAX_TRIES; CanvasDraw],
            Ok tt)
         /\ tries_left (fresh MAX_TRIES self) = MAX_TRIES
         /\ forall y' x', in_bounds self y' x' ->
              play_cell (fresh MAX_TRIES self) y' x' = Ok Unmarked))
  /\ (forall self y1 x1 s1 y2 x2 s2 y3 x3 s3,
        MAX_TRIES = 3 ->
        wf self -> tries_left self = 3 ->
        in_bounds self y1 x1 -> in_bounds self y2 x2 -> in_bounds self y3 x3 ->
        (y1, x1) <> (y2, x2) -> (y1, x1) <> (y3, x3) -> (y2, x2) <> (y3, x3) ->
        play_cell self y1 x1 = Ok Unmarked ->
        play_cell self y2 x2 = Ok Unmarked ->
        play_cell self y3 x3 = Ok Unmarked ->
        solution_cell self y1 x1 = Ok s1 -> s1 <> 1 ->
        solution_cell self y2 x2 = Ok s2 -> s2 <> 1 ->
        solution_cell self y3 x3 = Ok s3 -> s3 <> 1 ->
        exists won1 won2,
          (on_click MAX_TRIES Primary x1 y1 ;;
           on_click MAX_TRIES Primary x2 y2 ;;
           on_click MAX_TRIES Primary x3 y3) self
          = (fresh 3 self,
             ([LabelConfig 2; ShowInfo "Mistake"; CanvasDraw]
              ++ won_dialog won1)
             ++ ([LabelConfig 1; ShowInfo "Mistake"; CanvasDraw]
                 ++ won_dialog won2)
             ++ [LabelConfig 0; ShowInfo "Game over";
                 LabelConfig 3; CanvasDraw],
             Ok tt)).
Proof.
  split.
  - intros self y x s Hwf Hin Hcell Hsol Hs.
    split; [by apply mark_same |]. split.
    + intros Htries.
      destruct (on_click_mistake MAX_TRIES self y x s) as (won & Hclick & _);
        try done.
      by exists won.
    + intros Htries. split; [by apply (on_click_game_over _ _ _ _ s) |].
      split; [reflexivity |]. intros y' x' Hin'. by apply fresh_play_cell.
  - intros self y1 x1 s1 y2 x2 s2 y3 x3 s3 HMAX Hwf Htries Hin1 Hin2 Hin3
      H12 H13 H23 Hc1 Hc2 Hc3 Hs1 Hn1 Hs2 Hn2 Hs3 Hn3.
    destruct (on_click_mistake MAX_TRIES self y1 x1 s1) as (won1 & Hclick1 & _);
      try done; [lia |].
    set (self1 := set_tries_left (tries_left self - 1) (mark self y1 x1 Crossed))
      in *.
    assert (wf self1) as Hwf1 by (by apply mistake_wf).
    assert (forall y x, in_bounds self1 y x <-> in_bounds self y x) as Hb1
      by (intros y x; apply (mark_in_bounds self y1 x1 Crossed y x)).
    assert (forall y x, solution_cell self1 y x = solution_cell self y x) as Hsol1
      by (intros y x; apply (mark_solution_cell self y1 x1 Crossed y x)).
    assert (forall y x, in_bounds self y x -> (y, x) <> (y1, x1) ->
              play_cell self1 y x = play_cell self y x) as Hp1
      by (intros y x Hin Hne; by apply (mark_other self y1 x1 Crossed y x)).
    assert (tries_left self1 = 2) as Ht1 by (unfold self1; simpl; lia).
    destruct (on_click_mistake MAX_TRIES self1 y2 x2 s2) as (won2 & Hclick2 & _);
      try done; [by apply Hb1 | rewrite Hp1; done | by rewrite Hsol1 | lia |].
    set (self2 := set_tries_left (tries_left self1 - 1)
                    (mark self1 y2 x2 Crossed)) in *.
    assert (wf self2) as Hwf2 by (apply mistake_wf; [done | by apply Hb1]).
    assert (in_bounds self2 y3 x3) as Hin3'
      by (by apply (mark_in_bounds self1 y2 x2 Crossed), Hb1).
    assert (play_cell self2 y3 x3 = Ok Unmarked) as Hc3'.
    { unfold self2.
      change (play_cell (mark self1 y2 x2 Crossed) y3 x3 = Ok Unmarked).
      rewrite mark_other; try done; [| by apply Hb1 | by apply Hb1].
      rewrite Hp1; done. }
    assert (solution_cell self2 y3 x3 = Ok s3) as Hs3'.
    { unfold self2.
      change (solution_cell (mark self1 y2 x2 Crossed) y3 x3 = Ok s3).
      by rewrite mark_solution_cell, Hsol1. }
    assert (tries_left self2 - 1 = 0) as Ht2 by (unfold self2; simpl; lia).
    pose proof (on_click_game_over MAX_TRIES self2 y3 x3 s3 Hwf2 Hin3' Hc3' Hs3'
                  Hn3 Ht2) as Hclick3.
    assert (fresh MAX_TRIES self2 = fresh MAX_TRIES self) as Hfresh
      by (unfold self2, self1; by rewrite !fresh_mistake).
    rewrite Hfresh in Hclick3.
    exists won1, won2. unfold bind at 1. rewrite Hclick1.
    unfold bind. rewrite Hclick2, Hclick3.
    rewrite Ht1, Htries, HMAX. reflexivity.
Qed.

End Mistakes.

Lemma mistaken_primary_click_witness :
  (on_click 3 Primary 0 0 (demo [["0"; "1"]; ["0"; "x"]] 1)
   = (fresh 3 (demo [["0"; "1"]; ["0"; "x"]] 1),
      [LabelConfig 0; ShowInfo "Game over"; LabelConfig 3; CanvasDraw],
      Ok tt)
   /\ tries_left (fresh 3 (demo [["0"; "1"]; ["0"; "x"]] 1)) = 3
   /\ forall y' x', in_bounds (demo [["0"; "1"]; ["0"; "x"]] 1) y' x' ->
        play_cell (fresh 3 (demo [["0"; "1"]; ["0"; "x"]] 1)) y' x'
        = Ok Unmarked)
  /\ exists won1 won2,
      (on_click 3 Primary 1 0 ;; on_click 3 Primary 0 0 ;;
       on_click 3 Primary 1 1)
        (demo3 [["0"; "0"; "0"]; ["0"; "0"; "0"]] 3)
      = (fresh 3 (demo3 [["0"; "0"; "0"]; ["0"; "0"; "0"]] 3),
         ([LabelConfig 2; ShowInfo "Mistake"; CanvasDraw] ++ won_dialog won1)
         ++ ([LabelConfig 1; ShowInfo "Mistake"; CanvasDraw]
             ++ won_dialog won2)
         ++ [LabelConfig 0; ShowInfo "Game over"; LabelConfig 3; CanvasDraw],
         Ok tt).
Proof.
  split.
  - apply (proj1 (mistaken_primary_click 3)
             (demo [["0"; "1"]; ["0"; "x"]] 1) 0 0 0);
      try reflexivity; try discriminate.
    + apply demo_wf.
    + unfold in_bounds. simpl. lia.
  - apply (proj2 (mistaken_primary_click 3)
             (demo3 [["0"; "0"; "0"]; ["0"; "0"; "0"]] 3) 0 1 0 0 0 0 1 1 0);
      try reflexivity; try discriminate;
      try (unfold in_bounds; simpl; lia).
    apply demo3_wf.
Defined.

(** On the click that uses up the last try the "Mistake" dialog is not
    shown: the "Game over" dialog takes its place. *)
Lemma last_try_shows_no_mistake_dialog :
  on_click 3 Primary 0 0 (demo [["0"; "0"]; ["0"; "0"]] 1)
  = (demo [["0"; "0"]; ["0"; "0"]] 3,
     [LabelConfig 0; ShowInfo "Game over"; LabelConfig 3; CanvasDraw],
     Ok tt)
  /\ ~ In (ShowInfo "Mistake")
         (snd (fst (on_click 3 Primary 0 0 (demo [["0"; "0"]; ["0"; "0"]] 1)))).
Proof.
  split; [reflexivity |].
  simpl. intros [H|[H|[H|[H|[]]]]]; discriminate.
Qed.

Section Winning.

Variable MAX_TRIES : Z.


Lemma click_all_pending : forall cells self,
  wf self ->
  (forall y x, (y, x) ∈ cells ->
     in_bounds self y x /\ solution_cell self y x = Ok 1) ->
  pending self cells ->
  exists final trace,
    click_all MAX_TRIES cells self = (final, trace, Ok tt)
    /\ wf final /\ solved final.
Proof.
  induction cells as [|[y0 x0] rest IH]; intros self Hwf Hcells Hpend.
  - exists self, []. split; [reflexivity |]. split; [exact Hwf |].
    intros y x Hin Hsol. destruct (Hpend y x Hin Hsol) as [H|[_ H]]; [exact H |].
    by apply elem_of_nil in H.
  - destruct (Hcells y0 x0) as [Hin0 Hsol0]; [left |].
    destruct (Hpend y0 x0 Hin0 Hsol0) as [Hfilled|[Hunmarked _]].
    + destruct (on_click_marked MAX_TRIES self y0 x0 Filled Hwf Hfilled)
        as (won & Hclick & _); [done |].
      destruct (IH self Hwf) as (final & trace & Hrun & Hwf' & Hsolved).
      * intros y x Hyx. apply Hcells. by right.
      * intros y x Hin Hsol. destruct (Hpend y x Hin Hsol) as [H|[H Hel]];
          [by left |].
        apply elem_of_cons in Hel as [[= -> ->]|Hel]; [| right; done].
        rewrite Hfilled in H. discriminate.
      * exists final, ((CanvasDraw :: won_dialog won) ++ trace).
        split; [| done]. simpl click_all. unfold bind.
        by rewrite Hclick, Hrun.
    + destruct (on_click_fill MAX_TRIES self y0 x0 Hwf Hin0 Hunmarked Hsol0)
        as (won & Hclick & _).
      destruct (IH (mark self y0 x0 Filled)) as (final & trace & Hrun & Hwf' & Hsolved).
      * by apply mark_wf.
      * intros y x Hyx. rewrite mark_in_bounds, mark_solution_cell.
        apply Hcells. by right.
      * intros y x Hin Hsol. rewrite mark_solution_cell in Hsol.
        apply (proj1 (mark_in_bounds self y0 x0 Filled y x)) in Hin.
        destruct (decide ((y, x) = (y0, x0))) as [[= -> ->]|Hne].
        -- left. by apply mark_same.
        -- rewrite mark_other by done.
           destruct (Hpend y x Hin Hsol) as [H|[H Hel]]; [by left |].
           right. split; [exact H |].
           apply elem_of_cons in Hel as [Heq|Hel]; [done | exact Hel].
      * exists final, ((CanvasDraw :: won_dialog won) ++ trace).
        split; [| done]. simpl click_all. unfold bind.
        by rewrite Hclick, Hrun.
Qed.

Lemma solved_check_state final :
  wf final -> solved final -> check_state final = (final, [], Ok true).
Proof.
  intros Hwf Hsolved.
  destruct (check_state_solved final Hwf) as (won & -> & Hiff).
  apply Hiff in Hsolved as ->. reflexivity.
Qed.

(** C5: after a restart, primary clicks on every cell that the solution
    marks filled, each of them correct, and nothing else, leave a state in
    which [check_state] returns [True]; the same holds from any state of the
    same puzzle whose solution-filled cells are [Unmarked], whatever its
    other cells hold. *)
Theorem filling_every_solution_cell_wins
    (self : Nonogram) (cells : list (Z * Z)) :
  wf self ->
  (forall y x, (y, x) ∈ cells ->
     in_bounds self y x /\ solution_cell self y x = Ok 1) ->
  (forall y x, in_bounds self y x -> solution_cell self y x = Ok 1 ->
     (y, x) ∈ cells) ->
  (exists final trace,
     click_all MAX_TRIES cells (fresh MAX_TRIES self) = (final, trace, Ok tt)
     /\ check_state final = (final, [], Ok true))
  /\ (forall start,
        wf start ->
        solution start = solution self ->
        n_rows start = n_rows self ->
        n_columns start = n_columns self ->
        (forall y x, in_bounds self y x -> solution_cell self y x = Ok 1 ->
           play_cell start y x = Ok Unmarked) ->
        exists final trace,
          click_all MAX_TRIES cells start = (final, trace, Ok tt)
          /\ check_state final = (final, [], Ok true)).
Proof.
  intros Hwf Hcells Hcover.
  assert (forall start,
            wf start ->
            solution start = solution self ->
            n_rows start = n_rows self ->
            n_columns start = n_columns self ->
            (forall y x, in_bounds self y x -> solution_cell self y x = Ok 1 ->
               play_cell start y x = Ok Unmarked) ->
            exists final trace,
              click_all MAX_TRIES cells start = (final, trace, Ok tt)
              /\ check_state final = (final, [], Ok true)) as Hgen.
  { intros start Hwf' Hsol Hrows Hcols Hunmarked.
    assert (forall y x, in_bounds start y x <-> in_bounds self y x) as Hb
      by (intros y x; unfold in_bounds; by rewrite Hrows, Hcols).
    assert (forall y x, solution_cell start y x = solution_cell self y x) as Hs
      by (intros y x; unfold solution_cell; by rewrite Hrows, Hsol).
    destruct (click_all_pending cells start Hwf')
      as (final & trace & Hrun & Hwff & Hsolved).
    - intros y x Hyx. rewrite Hb, Hs. by apply Hcells.
    - intros y x Hin Hfilled. apply (proj1 (Hb y x)) in Hin.
      rewrite Hs in Hfilled. right.
      split; [by apply Hunmarked | by apply Hcover].
    - exists final, trace. split; [exact Hrun |].
      by apply solved_check_state. }
  split; [| exact Hgen].
  apply Hgen; try reflexivity; [by apply fresh_wf |].
  intros y x Hin _. by apply fresh_play_cell.
Qed.

End Winning.

Lemma filling_every_solution_cell_wins_witness :
  (exists final trace,
     click_all 3 [(0, 1); (1, 0)] (fresh 3 (demo [["x"; "1"]; ["0"; "x"]] 1))
     = (final, trace, Ok tt)
     /\ check_state final = (final, [], Ok true))
  /\ (forall start,
        wf start ->
        solution start = [[1; 0]; [0; 1]] ->
        n_rows start = 2 ->
        n_columns start = 2 ->
        (forall y x, in_bounds (demo [["x"; "1"]; ["0"; "x"]] 1) y x ->
           solution_cell (demo [["x"; "1"]; ["0"; "x"]] 1) y x = Ok 1 ->
           play_cell start y x = Ok Unmarked) ->
        exists final trace,
          click_all 3 [(0, 1); (1, 0)] start = (final, trace, Ok tt)
          /\ check_state final = (final, [], Ok true)).
Proof.
  apply (filling_every_solution_cell_wins 3 (demo [["x"; "1"]; ["0"; "x"]] 1)
           [(0, 1); (1, 0)]).
  - apply demo_wf.
  - intros y x Hyx.
    apply elem_of_cons in Hyx as [Heq|Hyx];
      [injection Heq as -> ->; split; [unfold in_bounds; simpl; lia | reflexivity] |].
    apply elem_of_cons in Hyx as [Heq|Hyx];
      [injection Heq as -> ->; split; [unfold in_bounds; simpl; lia | reflexivity] |].
    by apply elem_of_nil in Hyx.
  - intros y x [Hy Hx] Hsol. simpl in Hy, Hx.
    assert (y = 0 \/ y = 1) as [-> | ->] by lia;
      (assert (x = 0 \/ x = 1) as [-> | ->] by lia);
      try discriminate Hsol.
    + left.
    + right. left.
Defined.

Lemma py_getitem_raise {A} (l : list A) i e :
  py_getitem l i = Raise e -> e = IndexError.
Proof.
  unfold py_getitem. destruct (py_pos _ _); [| congruence].
  destruct (l !! n); [discriminate | congruence].
Qed.

Lemma col_scan_raise solution col : forall rows acc e,
  Utils.col_scan solution col rows acc = Raise e -> e = IndexError.
Proof.
  induction rows as [|row rest IH]; intros acc e; simpl; [discriminate |].
  destruct (py_getitem solution row) as [r|e1] eqn:Hr; simpl;
    [| intros [= <-]; by apply py_getitem_raise in Hr].
  destruct (py_getitem r col) as [v|e2] eqn:Hv; simpl;
    [apply IH | intros [= <-]; by apply py_getitem_raise in Hv].
Qed.

Lemma col_loop_raise solution : forall cols hints e,
  Utils.col_loop solution cols hints = Raise e -> e = IndexError.
Proof.
  induction cols as [|col rest IH]; intros hints e; simpl; [discriminate |].
  destruct (Utils.col_scan _ _ _ _) as [acc|e1] eqn:Hscan; simpl;
    [apply IH | intros [= <-]; by apply col_scan_raise in Hscan].
Qed.

Lemma determine_hints_raise solution e :
  Utils.determine_hints solution = Raise e -> e = IndexError.
Proof.
  unfold Utils.determine_hints.
  destruct (py_getitem solution 0) as [first|e1] eqn:Hfirst; simpl;
    [| intros [= <-]; by apply py_getitem_raise in Hfirst].
  destruct (Utils.col_loop _ _ _) as [ch|e2] eqn:Hloop; simpl;
    [discriminate | intros [= <-]; by apply col_loop_raise in Hloop].
Qed.

Section Parsing.

Variable py_int : string -> option Z.

Lemma parse_row_raise tokens e :
  Utils.parse_row py_int tokens = Raise e -> e = ValueError.
Proof.
  induction tokens as [|x rest IH]; simpl; [discriminate |].
  destruct (py_int x); [| congruence].
  destruct (Utils.parse_row py_int rest); simpl; [discriminate |].
  intros [= <-]. by apply IH.
Qed.

Lemma parse_lines_raise : forall lines solution e,
  Utils.parse_lines py_int lines solution = Raise e -> e = ValueError.
Proof.
  induction lines as [|line rest IH]; intros solution e; simpl; [discriminate |].
  destruct (Utils.parse_row py_int _) as [row|e1] eqn:Hrow; simpl;
    [apply IH | intros [= <-]; by apply parse_row_raise in Hrow].
Qed.

Lemma get_solution_missing files n :
  Utils.get_solution py_int files n = Raise FileNotFoundError
  <-> files n = None.
Proof.
  unfold Utils.get_solution. destruct (files n) as [lines|]; [| done].
  split; [| discriminate].
  intros Hraise%parse_lines_raise. discriminate.
Qed.

End Parsing.

Lemma getitem2_raise {A} (g : list (list A)) y x e :
  getitem2 g y x = Raise e -> e = IndexError.
Proof.
  unfold getitem2. destruct (py_getitem g y) as [row|e1] eqn:Hrow; simpl.
  - apply py_getitem_raise.
  - intros [= <-]. by apply py_getitem_raise in Hrow.
Qed.

Lemma draw_cols_raise self i : forall js e,
  draw_cols self i js = Raise e -> e = IndexError.
Proof.
  induction js as [|j rest IH]; intros e; simpl; [discriminate |].
  destruct (getitem2 (grid self) i j) as [c|e1] eqn:Hc; simpl;
    [apply IH | intros [= <-]; by apply getitem2_raise in Hc].
Qed.

Lemma draw_rows_raise self : forall rows e,
  draw_rows self rows = Raise e -> e = IndexError.
Proof.
  induction rows as [|i rest IH]; intros e; simpl; [discriminate |].
  destruct (draw_cols self i _) as [[]|e1] eqn:Hc; simpl;
    [apply IH | intros [= <-]; by apply draw_cols_raise in Hc].
Qed.

(** [draw] leaves the object as it is, shows no dialog, and when it returns
    there is at least one column hint sequence. *)
Lemma draw_cases self :
  exists t r,
    draw self = (self, t, r)
    /\ (t = [] \/ t = [CanvasDraw])
    /\ r <> Raise FileNotFoundError
    /\ (r = Ok tt -> column_hints self <> [] /\ row_hints self <> []).
Proof.
  unfold draw, bind, reads, signal.
  destruct (draw_rows self _) as [[]|e] eqn:Hrows.
  - destruct (column_hints self) as [|c cs]; simpl.
    + exists [], (Raise ValueError). repeat split; (done || by left).
    + destruct (row_hints self) as [|r rs]; simpl.
      * exists [], (Raise ValueError). repeat split; (done || by left).
      * exists [CanvasDraw], (Ok tt). repeat split; (done || by right).
  - apply draw_rows_raise in Hrows as ->.
    exists [], (Raise IndexError). repeat split; (done || by left).
Qed.

Section Restart.

Variable MAX_TRIES : Z.

(** Whatever the object, [restart_game] leaves a fresh play grid and all
    tries behind, also when an exception escapes it. *)
Lemma restart_game_cases self :
  exists self' t r,
    restart_game MAX_TRIES self = (self', t, r)
    /\ solution self' = solution self
    /\ n_rows self' = n_rows self
    /\ n_columns self' = n_columns self
    /\ grid self' = fresh_grid (n_columns self) (n_rows self)
    /\ tries_left self' = MAX_TRIES
    /\ ~ In (ShowError "Error") t
    /\ r <> Raise FileNotFoundError
    /\ (r = Ok tt ->
        Utils.determine_hints (solution self)
        = Ok (column_hints self', row_hints self')
        /\ column_hints self' <> []).
Proof.
  unfold restart_game, bind, write, read, reads, signal. simpl.
  destruct (Utils.determine_hints (solution self)) as [hints|e] eqn:Hhints.
  - match goal with |- context [draw ?s] => destruct (draw_cases s)
      as (t & r & -> & Ht & Hr & Hok) end.
    eexists _, _, _. split; [reflexivity |]. simpl.
    repeat split; try done.
    + destruct Ht as [-> | ->]; simpl; intuition discriminate.
    + by destruct hints.
    + by apply Hok.
  - apply determine_hints_raise in Hhints as ->.
    eexists _, _, _. split; [reflexivity |]. simpl.
    repeat split; try done. intuition discriminate.
Qed.

End Restart.

Section Load.

Variable MAX_TRIES : Z.
Variable files : Utils.puzzle_store.
Variable py_int : string -> option Z.

Lemma load_puzzle_missing self n :
  files n = None ->
  load_puzzle MAX_TRIES files py_int n self
  = (self, [ShowError "Error"], Ok tt).
Proof.
  intros Hnone. unfold load_puzzle, try_except, bind, reads.
  unfold Utils.get_solution. rewrite Hnone. reflexivity.
Qed.

(** A load whose file exists: the error dialog is not shown, and when the
    load returns, the object holds the new solution with a fresh grid. *)
Lemma load_puzzle_found self n lines :
  files n = Some lines ->
  exists self' t r,
    load_puzzle MAX_TRIES files py_int n self = (self', t, r)
    /\ ~ In (ShowError "Error") t
    /\ r <> Raise FileNotFoundError
    /\ (tries_left self' = tries_left self \/ tries_left self' = MAX_TRIES)
    /\ (r = Ok tt ->
        exists first,
          solution self' !! 0%nat = Some first
          /\ n_columns self' = len first
          /\ n_rows self' = len (solution self')
          /\ grid self' = fresh_grid (n_columns self') (n_rows self')
          /\ tries_left self' = MAX_TRIES
          /\ Utils.determine_hints (solution self')
             = Ok (column_hints self', row_hints self')
          /\ column_hints self' <> []).
Proof.
  intros Hsome. unfold load_puzzle, try_except, bind, reads, write.
  unfold Utils.get_solution. rewrite Hsome.
  destruct (Utils.parse_lines py_int lines []) as [sol|e] eqn:Hparse.
  - simpl. destruct (py_getitem sol 0) as [first|e] eqn:Hfirst.
    + match goal with |- context [restart_game _ ?s] =>
        destruct (restart_game_cases MAX_TRIES s)
          as (self' & t & r & -> & Hsol & Hrows & Hcols & Hgrid & Htries
              & Ht & Hr & Hok) end.
      simpl in *.
      assert (forall X (a b : Nonogram * list effect * result X),
                match r with
                | Raise e' => if exn_eqb e' FileNotFoundError then a else b
                | Ok _ => b
                end = b) as Hmatch.
      { intros X a b. destruct r as [|[]]; done. }
      destruct r as [[]|e'].
      * eexists _, _, _. split; [reflexivity |]. repeat split; try done;
          [by right |].
        intros _. exists first. destruct (Hok eq_refl) as [Hhints Hne].
        rewrite Hsol, Hrows, Hcols.
        repeat split; try done.
        by apply (py_getitem_Ok_in sol 0 first).
      * destruct e'; try done;
          (eexists _, _, _; split; [reflexivity |]; repeat split;
           try done; by right).
    + apply py_getitem_raise in Hfirst as ->. simpl.
      eexists _, _, _. split; [reflexivity |]. repeat split; try done;
        [simpl; tauto | by left].
  - apply parse_lines_raise in Hparse as ->. simpl.
    eexists _, _, _. split; [reflexivity |]. repeat split; try done;
      [simpl; tauto | by left].
Qed.

(** C4: when the puzzle file does not exist, [load_puzzle] shows the error
    dialog and leaves the whole object (solution, play grid, dimensions,
    hints, tries counter) as it was; and the error dialog is shown in no
    other case. *)
Theorem load_puzzle_not_found_atomic (self : Nonogram) (n : Z) :
  (files n = None ->
   load_puzzle MAX_TRIES files py_int n self
   = (self, [ShowError "Error"], Ok tt))
  /\ (forall lines self' t r,
        files n = Some lines ->
        load_puzzle MAX_TRIES files py_int n self = (self', t, r) ->
        ~ In (ShowError "Error") t).
Proof.
  split; [apply load_puzzle_missing |].
  intros lines self' t r Hsome Hload.
  destruct (load_puzzle_found self n lines Hsome) as (s & t' & r' & Heq & Ht & _).
  rewrite Heq in Hload. by injection Hload as <- <- <-.
Qed.

End Load.

Lemma load_puzzle_not_found_atomic_witness :
  load_puzzle 3 demo_files demo_int 7 (demo [["0"; "1"]; ["0"; "x"]] 2)
  = (demo [["0"; "1"]; ["0"; "x"]] 2, [ShowError "Error"], Ok tt).
Proof.
  apply (proj1 (load_puzzle_not_found_atomic 3 demo_files demo_int
                  (demo [["0"; "1"]; ["0"; "x"]] 2) 7)).
  reflexivity.
Defined.

Lemma col_scan_Ok solution col : forall rows acc acc',
  Utils.col_scan solution col rows acc = Ok acc' ->
  forall r, r ∈ rows ->
    exists row v, py_getitem solution r = Ok row /\ py_getitem row col = Ok v.
Proof.
  induction rows as [|r0 rest IH]; intros acc acc' Hscan r Hr.
  - by apply elem_of_nil in Hr.
  - simpl in Hscan.
    destruct (py_getitem solution r0) as [row|] eqn:Hrow; simpl in Hscan;
      [| discriminate].
    destruct (py_getitem row col) as [v|] eqn:Hv; simpl in Hscan;
      [| discriminate].
    apply elem_of_cons in Hr as [->|Hr]; [by exists row, v |].
    by apply (IH _ _ Hscan).
Qed.

Lemma col_loop_Ok solution : forall cols hints column_hints,
  Utils.col_loop solution cols hints = Ok column_hints ->
  forall col, col ∈ cols ->
    exists acc,
      Utils.col_scan solution col (range (len solution)) ([], 0) = Ok acc.
Proof.
  induction cols as [|c0 rest IH]; intros hints column_hints Hloop col Hcol.
  - by apply elem_of_nil in Hcol.
  - simpl in Hloop.
    destruct (Utils.col_scan solution c0 _ _) as [acc|] eqn:Hscan;
      simpl in Hloop; [| discriminate].
    apply elem_of_cons in Hcol as [->|Hcol]; [by exists acc |].
    by apply (IH _ _ Hloop).
Qed.

(** When [determine_hints] returns, the grid has a first row and no row is
    shorter than it. *)
Lemma determine_hints_Ok_rows solution hints :
  Utils.determine_hints solution = Ok hints ->
  exists first,
    solution !! 0%nat = Some first
    /\ length (fst hints) = length first
    /\ Forall (fun row => len first <= len row) solution.
Proof.
  unfold Utils.determine_hints.
  destruct (py_getitem solution 0) as [first|] eqn:Hfirst; simpl;
    [| discriminate].
  destruct (Utils.col_loop _ _ _) as [ch|] eqn:Hloop; simpl; [| discriminate].
  intros [= <-]. exists first. simpl.
  split; [by apply (py_getitem_Ok_in solution 0 first) |].
  split.
  { apply col_loop_length in Hloop. unfold range in Hloop.
    rewrite length_seqZ in Hloop. unfold len in Hloop. simpl in Hloop. lia. }
  apply Forall_lookup. intros i row Hrow.
  destruct (decide (len first = 0)) as [->|Hpos]; [unfold len; lia |].
  assert (0 < len first) as Hlen by (unfold len in *; lia).
  destruct (col_loop_Ok _ _ _ _ Hloop (len first - 1)) as [acc Hscan];
    [apply elem_of_range; lia |].
  destruct (col_scan_Ok _ _ _ _ _ Hscan (Z.of_nat i)) as (row' & v & Hrow' & Hv).
  { apply elem_of_range. apply lookup_lt_Some in Hrow. unfold len. lia. }
  apply py_getitem_Ok_in in Hrow'; [| lia]. rewrite Nat2Z.id in Hrow'.
  assert (row' = row) as -> by congruence.
  apply py_getitem_Ok_in in Hv; [| lia].
  apply lookup_lt_Some in Hv. unfold len in *. lia.
Qed.

(** An object with a fresh grid whose dimensions and hints are those of its
    solution is a state of the game. *)
Lemma loaded_wf self first :
  solution self !! 0%nat = Some first ->
  n_columns self = len first ->
  n_rows self = len (solution self) ->
  grid self = fresh_grid (n_columns self) (n_rows self) ->
  Utils.determine_hints (solution self) = Ok (column_hints self, row_hints self) ->
  column_hints self <> [] ->
  wf self.
Proof.
  intros Hfirst Hcols Hrows Hgrid Hhints Hne.
  destruct (determine_hints_Ok_rows _ _ Hhints) as (first' & Hfirst' & Hlen & Hall).
  assert (first' = first) as -> by congruence. simpl in Hlen.
  assert (0 < n_columns self) as Hpos.
  { rewrite Hcols. unfold len. destruct (column_hints self); [done |].
    simpl in Hlen. lia. }
  constructor; try done.
  - by exists first.
  - by rewrite Hcols.
  - rewrite Hgrid. unfold fresh_grid, len. rewrite length_map.
    apply (length_range (n_rows self)). rewrite Hrows. unfold len. lia.
  - rewrite Hgrid. apply Forall_lookup. intros i row ->%fresh_grid_lookup.
    unfold len. rewrite length_map. apply length_range. lia.
Qed.

Lemma fresh_grid_filled_correct self :
  grid self = fresh_grid (n_columns self) (n_rows self) ->
  filled_correct self.
Proof.
  intros Hgrid y x [Hy Hx] Hcell. exfalso.
  unfold play_cell in Hcell. rewrite Hgrid in Hcell.
  apply getitem2_lookup in Hcell as (row & Hrow & Hc); [| lia | lia].
  apply fresh_grid_lookup in Hrow as ->.
  rewrite list_lookup_fmap in Hc.
  destruct (range (n_columns self) !! Z.to_nat x); simpl in Hc; discriminate.
Qed.

Section Invariants.

Variable MAX_TRIES : Z.
Variable files : Utils.puzzle_store.
Variable py_int : string -> option Z.

Lemma mark_filled_correct self y x v :
  wf self -> in_bounds self y x ->
  (v = Filled -> solution_cell self y x = Ok 1) ->
  filled_correct self -> filled_correct (mark self y x v).
Proof.
  intros Hwf Hin Hv Hcorrect y' x' Hin' Hcell.
  apply (proj1 (mark_in_bounds self y x v y' x')) in Hin'.
  rewrite mark_solution_cell.
  destruct (decide ((y', x') = (y, x))) as [[= -> ->]|Hne].
  - rewrite mark_same in Hcell by done. injection Hcell as ->. by apply Hv.
  - rewrite mark_other in Hcell by done. by apply Hcorrect.
Qed.

Lemma fresh_filled_correct self : filled_correct (fresh MAX_TRIES self).
Proof. by apply fresh_grid_filled_correct. Qed.

Lemma on_click_other self button x y :
  wf self -> button <> Primary -> button <> Secondary ->
  exists won,
    on_click MAX_TRIES button x y self
    = (self, CanvasDraw :: won_dialog won, Ok tt).
Proof.
  intros Hwf H1 H3. destruct (after_click_ok self Hwf) as (won & Hafter & _).
  exists won. unfold on_click, Primary, Secondary in *.
  destruct (Z.eqb_spec button 1); [done |].
  destruct (Z.eqb_spec button 3); done.
Qed.

Lemma toggle_filled c : toggle c = Filled -> c = Filled.
Proof.
  unfold toggle, Unmarked, Crossed, Filled.
  destruct (String.eqb c "0"); [discriminate |].
  destruct (String.eqb c "x"); [discriminate | done].
Qed.

(** An in-bounds click on a state of the game returns, leaves a state of
    the game, and fills no cell that the solution leaves empty. *)
Lemma on_click_step self button x y :
  wf self -> in_bounds self y x ->
  exists self' t,
    on_click MAX_TRIES button x y self = (self', t, Ok tt)
    /\ wf self'
    /\ (filled_correct self -> filled_correct self').
Proof.
  intros Hwf Hin.
  destruct (wf_play_cell self y x Hwf Hin) as [c Hcell].
  destruct (wf_solution_cell self y x Hwf Hin) as [s Hsol].
  destruct (decide (button = Primary)) as [->|Hb1].
  - destruct (decide (c = Unmarked)) as [->|Hc].
    + destruct (decide (s = 1)) as [->|Hs].
      * destruct (on_click_fill MAX_TRIES self y x Hwf Hin Hcell Hsol)
          as (won & -> & _).
        eexists _, _. split; [reflexivity |].
        split; [by apply mark_wf | by apply mark_filled_correct].
      * destruct (decide (tries_left self - 1 = 0)) as [Ht|Ht].
        -- rewrite (on_click_game_over MAX_TRIES self y x s) by done.
           eexists _, _. split; [reflexivity |].
           split; [by apply fresh_wf | intros _; apply fresh_filled_correct].
        -- destruct (on_click_mistake MAX_TRIES self y x s)
             as (won & -> & _); try done.
           eexists _, _. split; [reflexivity |].
           split; [by apply mistake_wf |].
           intros Hcorrect.
           change (filled_correct (mark self y x Crossed)).
           by apply mark_filled_correct.
    + destruct (on_click_marked MAX_TRIES self y x c Hwf Hcell Hc)
        as (won & -> & _).
      by eexists _, _.
  - destruct (decide (button = Secondary)) as [->|Hb3].
    + destruct (on_click_secondary MAX_TRIES self y x c Hwf Hin Hcell)
        as (won & -> & _).
      eexists _, _. split; [reflexivity |].
      split; [by apply mark_wf |]. intros Hcorrect.
      apply mark_filled_correct; try done.
      intros ->%toggle_filled. by apply Hcorrect.
    + destruct (on_click_other self button x y Hwf Hb1 Hb3) as (won & ->).
      by eexists _, _.
Qed.

Lemma new_game_facts self t :
  new_game MAX_TRIES files py_int = Ok (self, t) ->
  wf self /\ filled_correct self /\ tries_left self = MAX_TRIES.
Proof.
  unfold new_game.
  destruct (Utils.get_solution py_int files 1) as [sol|]; simpl; [| discriminate].
  destruct (py_getitem sol 0) as [first|] eqn:Hfirst; simpl; [| discriminate].
  destruct (Utils.determine_hints sol) as [hints|] eqn:Hhints; simpl;
    [| discriminate].
  match goal with |- context [draw ?s] =>
    destruct (draw_cases s) as (t' & r & -> & _ & _ & Hok) end.
  destruct r as [[]|]; [| discriminate]. intros [= <- <-].
  destruct (Hok eq_refl) as [Hne _]. simpl in Hne.
  split; [| split; [by apply fresh_grid_filled_correct | reflexivity]].
  apply (loaded_wf _ first); simpl; try done.
  - by apply (py_getitem_Ok_in sol 0 first).
  - by destruct hints.
Qed.

Lemma load_puzzle_step self n self' t :
  wf self ->
  load_puzzle MAX_TRIES files py_int n self = (self', t, Ok tt) ->
  wf self' /\ (filled_correct self -> filled_correct self').
Proof.
  intros Hwf Hload. destruct (files n) as [lines|] eqn:Hfile.
  - destruct (load_puzzle_found MAX_TRIES files py_int self n lines Hfile)
      as (s & t' & r & Heq & _ & _ & _ & Hok).
    rewrite Heq in Hload. injection Hload as -> -> ->.
    destruct (Hok eq_refl) as (first & H1 & H2 & H3 & H4 & H5 & H6 & H7).
    split; [by apply (loaded_wf _ first) |].
    intros _. by apply fresh_grid_filled_correct.
  - rewrite (load_puzzle_missing MAX_TRIES files py_int self n Hfile) in Hload.
    by injection Hload as <- _.
Qed.

Lemma reachable_wf self :
  reachable MAX_TRIES files py_int self -> wf self /\ filled_correct self.
Proof.
  induction 1 as [self t Hnew | self a self' t _ [Hwf Hcorrect] Hallowed Hrun].
  - apply new_game_facts in Hnew. tauto.
  - destruct a as [button x y | | n]; simpl in *.
    + destruct (on_click_step self button x y Hwf Hallowed)
        as (s & t' & Heq & Hwf' & Hstep).
      rewrite Heq in Hrun. injection Hrun as <- _. by split; [| apply Hstep].
    + rewrite (restart_game_ok MAX_TRIES self Hwf) in Hrun.
      injection Hrun as <- _.
      split; [by apply fresh_wf | apply fresh_filled_correct].
    + destruct (load_puzzle_step self n self' t Hwf Hrun) as [Hwf' Hstep].
      by split; [| apply Hstep].
Qed.

(** C7: in every state reached from a new game by in-bounds clicks,
    restarts and puzzle loads that return, a play-grid cell is [Filled] only
    if the solution marks that cell filled. *)
Theorem filled_cells_are_correct (self : Nonogram) :
  reachable MAX_TRIES files py_int self -> filled_correct self.
Proof. intros Hreach. by apply reachable_wf. Qed.

End Invariants.


Lemma demo_reachable :
  reachable 3 demo_files demo_int (demo [["0"; "1"]; ["0"; "x"]] 2).
Proof.
  apply (reachable_step 3 demo_files demo_int
           (demo [["0"; "1"]; ["0"; "0"]] 3) (Click Primary 1 1) _
           [LabelConfig 2; ShowInfo "Mistake"; CanvasDraw]).
  - apply (reachable_step 3 demo_files demo_int
             (demo [["0"; "0"]; ["0"; "0"]] 3) (Click Primary 1 0) _
             [CanvasDraw]).
    + by apply (reachable_new 3 demo_files demo_int _
                  [LabelConfig 3; CanvasDraw]).
    + unfold allowed, in_bounds. simpl. lia.
    + reflexivity.
  - unfold allowed, in_bounds. simpl. lia.
  - reflexivity.
Defined.

Lemma filled_cells_are_correct_witness :
  filled_correct (demo [["0"; "1"]; ["0"; "x"]] 2).
Proof.
  apply (filled_cells_are_correct 3 demo_files demo_int).
  apply demo_reachable.
Defined.

Lemma set_cell_tries y x v self :
  exists self' r,
    set_cell y x v self = (self', [], r)
    /\ tries_left self' = tries_left self.
Proof.
  unfold set_cell. destruct (setitem2 _ _ _ _); by eexists _, _.
Qed.

Lemma after_click_state self :
  exists t r, after_click self = (self, t, r).
Proof.
  unfold after_click, bind, check_state, reads.
  destruct (draw_cases self) as (t & r & -> & _).
  destruct r as [[]|e]; [| by eexists _, _].
  destruct (check_rows self _) as [[]|e]; by eexists _, _.
Qed.

Section Tries.

Variable MAX_TRIES : Z.
Variable files : Utils.puzzle_store.
Variable py_int : string -> option Z.

Local Arguments after_click : simpl never.
Local Arguments restart_game : simpl never.
Local Arguments set_cell : simpl never.

(** What a click does to the tries counter, whatever the object and the
    click: nothing, or it is a primary click on an unmarked cell that the
    solution leaves empty, and the counter goes down by one or, from one,
    back to the maximum. *)
Lemma on_click_tries self button x y self' t r :
  on_click MAX_TRIES button x y self = (self', t, r) ->
  tries_left self' = tries_left self
  \/ (button = Primary
      /\ play_cell self y x = Ok Unmarked
      /\ (exists s, solution_cell self y x = Ok s /\ s <> 1)
      /\ ((tries_left self' = tries_left self - 1
           /\ tries_left self - 1 <> 0)
          \/ (tries_left self - 1 = 0 /\ tries_left self' = MAX_TRIES))).
Proof.
  unfold on_click, play_cell, solution_cell, Primary, Unmarked.
  destruct (Z.eqb_spec button 1) as [->|Hb1].
  - unfold bind at 1. unfold reads at 1.
    destruct (getitem2 (grid self) y x) as [c|e] eqn:Hc;
      [| intros [= <- _ _]; by left].
    destruct (String.eqb_spec c "0") as [->|Hc0].
    + unfold bind at 1. unfold reads at 1.
      destruct (getitem2 (solution self) _ x) as [s|e] eqn:Hs;
        [| intros [= <- _ _]; by left].
      destruct (Z.eqb_spec s 1) as [->|Hs1].
      * unfold bind.
        destruct (set_cell_tries y x "1" self) as (s1 & r1 & -> & Ht1).
        destruct r1 as [[]|e]; [| intros [= <- _ _]; by left].
        destruct (after_click_state s1) as (t2 & r2 & ->).
        intros [= <- _ _]. by left.
      * unfold bind, write, read, signal.
        destruct (set_cell_tries y x "x" self) as (s1 & r1 & -> & Ht1).
        destruct r1 as [[]|e]; [| intros [= <- _ _]; by left].
        simpl. rewrite Ht1.
        destruct (Z.eqb_spec (tries_left self - 1) 0) as [Hz|Hz].
        -- match goal with |- context [restart_game _ ?s] =>
             destruct (restart_game_cases MAX_TRIES s)
               as (s2 & t2 & r2 & -> & _ & _ & _ & _ & Ht2 & _) end.
           intros [= <- _ _]. right. repeat split; try done.
           ++ by exists s.
           ++ by right.
        -- match goal with |- context [after_click ?s] =>
             destruct (after_click_state s) as (t2 & r2 & ->) end.
           intros [= <- _ _]. right. repeat split; try done.
           ++ by exists s.
           ++ by left.
    + destruct (after_click_state self) as (t2 & r2 & ->).
      unfold bind. intros [= <- _ _]. by left.
  - destruct (Z.eqb_spec button 3) as [->|Hb3].
    + unfold bind at 1. unfold reads at 1.
      destruct (getitem2 (grid self) y x) as [c|e] eqn:Hc;
        [| intros [= <- _ _]; by left].
      destruct (String.eqb_spec c "0") as [->|Hc0].
      * unfold bind.
        destruct (set_cell_tries y x "x" self) as (s1 & r1 & -> & Ht1).
        destruct r1 as [[]|e]; [| intros [= <- _ _]; by left].
        destruct (after_click_state s1) as (t2 & r2 & ->).
        intros [= <- _ _]. by left.
      * unfold bind at 1. unfold reads at 1. rewrite Hc.
        destruct (String.eqb_spec c "x") as [->|Hcx].
        -- unfold bind.
           destruct (set_cell_tries y x "0" self) as (s1 & r1 & -> & Ht1).
           destruct r1 as [[]|e]; [| intros [= <- _ _]; by left].
           destruct (after_click_state s1) as (t2 & r2 & ->).
           intros [= <- _ _]. by left.
        -- destruct (after_click_state self) as (t2 & r2 & ->).
           unfold bind. intros [= <- _ _]. by left.
    + destruct (after_click_state self) as (t2 & r2 & ->).
      intros [= <- _ _]. by left.
Qed.

Lemma restart_game_tries self self' t r :
  restart_game MAX_TRIES self = (self', t, r) -> tries_left self' = MAX_TRIES.
Proof.
  destruct (restart_game_cases MAX_TRIES self)
    as (s & t' & r' & -> & _ & _ & _ & _ & Ht & _).
  by intros [= <- _ _].
Qed.

Lemma load_puzzle_tries self n self' t r :
  load_puzzle MAX_TRIES files py_int n self = (self', t, r) ->
  tries_left self' = tries_left self \/ tries_left self' = MAX_TRIES.
Proof.
  destruct (files n) as [lines|] eqn:Hfile.
  - destruct (load_puzzle_found MAX_TRIES files py_int self n lines Hfile)
      as (s & t' & r' & -> & _ & _ & Ht & _).
    by intros [= <- _ _].
  - rewrite (load_puzzle_missing MAX_TRIES files py_int self n Hfile).
    intros [= <- _ _]. by left.
Qed.

Hypothesis MAX_TRIES_positive : 1 <= MAX_TRIES.

Lemma reachable_any_tries self :
  reachable_any MAX_TRIES files py_int self ->
  1 <= tries_left self <= MAX_TRIES.
Proof.
  induction 1 as [self t Hnew | self a self' t r _ IH Hrun].
  - apply new_game_facts in Hnew as (_ & _ & ->). lia.
  - destruct a as [button x y | | n]; simpl in Hrun.
    + apply on_click_tries in Hrun as [Heq|(_ & _ & _ & Hdec)]; lia.
    + apply restart_game_tries in Hrun. lia.
    + apply load_puzzle_tries in Hrun. lia.
Qed.

(** C8: with [MAX_TRIES] at least 1, the tries counter is within
    [0 .. MAX_TRIES] in every object that a sequence of clicks, restarts and
    puzzle loads leaves behind; it starts at [MAX_TRIES], a restart and a
    load of an existing puzzle set it to [MAX_TRIES], and a click changes it
    only when it is a primary click on an [Unmarked] cell that the solution
    leaves empty: then it goes down by one, or from 1 back to [MAX_TRIES]
    through the restart in the same call. *)
Theorem tries_counter_in_range :
  (forall self,
     reachable_any MAX_TRIES files py_int self ->
     0 <= tries_left self <= MAX_TRIES)
  /\ (forall self t,
        new_game MAX_TRIES files py_int = Ok (self, t) ->
        tries_left self = MAX_TRIES)
  /\ (forall self self' t r,
        restart_game MAX_TRIES self = (self', t, r) ->
        tries_left self' = MAX_TRIES)
  /\ (forall self n lines self' t,
        files n = Some lines ->
        load_puzzle MAX_TRIES files py_int n self = (self', t, Ok tt) ->
        tries_left self' = MAX_TRIES)
  /\ (forall self button x y self' t r,
        on_click MAX_TRIES button x y self = (self', t, r) ->
        tries_left self' = tries_left self
        \/ (button = Primary
            /\ play_cell self y x = Ok Unmarked
            /\ (exists s, solution_cell self y x = Ok s /\ s <> 1)
            /\ ((tries_left self' = tries_left self - 1
                 /\ tries_left self - 1 <> 0)
                \/ (tries_left self - 1 = 0
                    /\ tries_left self' = MAX_TRIES)))).
Proof.
  split; [intros self Hreach%reachable_any_tries; lia |].
  split; [intros self t Hnew; by apply new_game_facts in Hnew as (_ & _ & ->) |].
  split; [apply restart_game_tries |].
  split; [| apply on_click_tries].
  intros self n lines self' t Hfile Hload.
  destruct (load_puzzle_found MAX_TRIES files py_int self n lines Hfile)
    as (s & t' & r' & Heq & _ & _ & _ & Hok).
  rewrite Heq in Hload. injection Hload as -> -> ->.
  destruct (Hok eq_refl) as (first & _ & _ & _ & _ & Ht & _). exact Ht.
Qed.

End Tries.

Lemma demo_reachable_any :
  reachable_any 3 demo_files demo_int (demo [["0"; "1"]; ["0"; "x"]] 2).
Proof.
  apply (reachable_any_step 3 demo_files demo_int
           (demo [["0"; "1"]; ["0"; "0"]] 3) (Click Primary 1 1) _
           [LabelConfig 2; ShowInfo "Mistake"; CanvasDraw] (Ok tt)).
  - apply (reachable_any_step 3 demo_files demo_int
             (demo [["0"; "0"]; ["0"; "0"]] 3) (Click Primary 1 0) _
             [CanvasDraw] (Ok tt)).
    + by apply (reachable_any_new 3 demo_files demo_int _
                  [LabelConfig 3; CanvasDraw]).
    + reflexivity.
  - reflexivity.
Defined.

Lemma tries_counter_in_range_witness :
  0 <= tries_left (demo [["0"; "1"]; ["0"; "x"]] 2) <= 3.
Proof.
  assert (1 <= 3) as Hmax by lia.
  apply (proj1 (tries_counter_in_range 3 demo_files demo_int Hmax)).
  apply demo_reachable_any.
Defined.

(** ** Beyond the specification: more of utils.py and Nonogram.py *)

Import GridSpec FileSpec LoadSpec Scene SceneDemo.

Section MoreHints.

Import Utils HintSpec Aux GridSpec.

Lemma col_loop_columns_ge solution (m : nat) : forall (cols : list nat) hints,
  Forall (fun row => (m <= length row)%nat) solution ->
  Forall (fun j => (j < m)%nat) cols ->
  col_loop solution (map Z.of_nat cols) hints
  = Ok (hints ++ map (fun j => run_lengths (column solution j)) cols).
Proof.
  induction cols as [|j cols IH]; intros hints Hrect Hcols; simpl.
  - by rewrite app_nil_r.
  - apply Forall_cons in Hcols as [Hj Hcols].
    assert (col_scan solution (Z.of_nat j) (range (len solution)) ([], 0)
            = Ok (fold_left scan_step (column solution j) ([], 0))) as ->.
    { apply (col_scan_column j solution [] ([], 0)).
      eapply Forall_impl; [exact Hrect |]. simpl. intros row Hrow. lia. }
    simpl. rewrite scan_run_lengths, IH by assumption.
    by rewrite <- app_assoc.
Qed.

Lemma covers_Forall first grid :
  covers first grid = true
  <-> Forall (fun row => (length first <= length row)%nat) grid.
Proof.
  unfold covers. rewrite forallb_forall, Forall_forall.
  split; intros H row Hrow.
  - apply Nat.leb_le, H. by apply list_elem_of_In.
  - apply Nat.leb_le, H. by apply list_elem_of_In.
Qed.

Lemma determine_hints_covered first rest :
  covers first (first :: rest) = true ->
  determine_hints (first :: rest)
  = Ok (map (fun j => run_lengths (column (first :: rest) j))
          (seq 0 (length first)),
        map run_lengths (first :: rest)).
Proof.
  intros Hcov%covers_Forall. unfold determine_hints.
  change (py_getitem (first :: rest) 0) with (Ok first : result (list Z)).
  simpl result_bind. unfold len at 1. rewrite range_seq.
  rewrite (col_loop_columns_ge _ (length first))
    by (try done; apply Forall_forall;
        intros j Hj%list_elem_of_In%in_seq; lia).
  simpl result_bind. unfold row_loop. by rewrite row_loop_rows.
Qed.

Lemma determine_hints_uncovered first rest :
  covers first (first :: rest) = false ->
  determine_hints (first :: rest) = Raise IndexError.
Proof.
  intros Hcov.
  destruct (determine_hints (first :: rest)) as [hints|e] eqn:Hdet.
  - apply determine_hints_Ok_rows in Hdet as (first' & Hfirst & _ & Hall).
    injection Hfirst as <-.
    assert (covers first (first :: rest) = true) as Hyes; [| congruence].
    apply covers_Forall. eapply Forall_impl; [exact Hall |].
    simpl. unfold len. lia.
  - by apply determine_hints_raise in Hdet as ->.
Qed.

(** X1: what [determine_hints] does on any grid. On the empty grid it
    raises [IndexError]; when some row is shorter than the first row it
    raises [IndexError]; otherwise it returns the block lengths of the first
    [len(solution[0])] columns and of every row, so cells beyond the length
    of the first row count for the row hints only. *)
Theorem determine_hints_cases (solution : list (list Z)) :
  match solution with
  | [] => determine_hints solution = Raise IndexError
  | first :: _ =>
      if covers first solution then
        determine_hints solution
        = Ok (map (fun j => run_lengths (column solution j))
                (seq 0 (length first)),
              map run_lengths solution)
      else determine_hints solution = Raise IndexError
  end.
Proof.
  destruct solution as [|first rest]; [reflexivity |].
  destruct (covers first (first :: rest)) eqn:Hcov.
  - by apply determine_hints_covered.
  - by apply determine_hints_uncovered.
Qed.

Lemma emit_ones (n : nat) : forall count,
  0 < count + Z.of_nat n ->
  0 <= count ->
  emit count (replicate n 1) = [count + Z.of_nat n].
Proof.
  induction n as [|n IH]; intros count Hpos Hc; simpl.
  - destruct (Z.gtb_spec count 0); [f_equal; lia | lia].
  - rewrite IH by lia. f_equal. lia.
Qed.

Lemma run_lengths_ones (n : nat) :
  (0 < n)%nat -> run_lengths (replicate n 1) = [Z.of_nat n].
Proof. intros Hn. rewrite run_lengths_emit, emit_ones; [done | lia | lia]. Qed.

Lemma column_replicate (r c j : nat) (v : Z) :
  (j < c)%nat -> column (replicate r (replicate c v)) j = replicate r v.
Proof.
  intros Hj. unfold column.
  induction r as [|r IH]; simpl; [reflexivity |].
  rewrite IH. by rewrite lookup_replicate_2.
Qed.

Lemma map_const_seq {A} (f : nat -> A) (a : A) (start n : nat) :
  (forall j, (start <= j < start + n)%nat -> f j = a) ->
  map f (seq start n) = replicate n a.
Proof.
  revert start. induction n as [|n IH]; intros start Hf; simpl; [reflexivity |].
  rewrite Hf by lia. f_equal. apply IH. intros j Hj. apply Hf. lia.
Qed.

Lemma map_replicate {A B} (f : A -> B) (n : nat) (a : A) :
  map f (replicate n a) = replicate n (f a).
Proof. induction n as [|n IH]; simpl; [reflexivity | by rewrite IH]. Qed.

(** X2: on the all-filled grid of [r] rows and [c] columns every row hint
    is [[c]] and every column hint is [[r]]. *)
Theorem determine_hints_all_filled (r c : nat) :
  (0 < r)%nat -> (0 < c)%nat ->
  determine_hints (replicate r (replicate c 1))
  = Ok (replicate c [Z.of_nat r], replicate r [Z.of_nat c]).
Proof.
  intros Hr Hc.
  rewrite (determine_hints_rectangular _ c).
  - f_equal. f_equal.
    + apply map_const_seq. intros j Hj.
      rewrite column_replicate by lia. by apply run_lengths_ones.
    + rewrite map_replicate. by rewrite run_lengths_ones.
  - destruct r; [lia | discriminate].
  - apply Forall_forall. intros row [-> _]%elem_of_replicate.
    apply length_replicate.
Qed.

Lemma determine_hints_all_filled_witness :
  Utils.determine_hints (replicate 3 (replicate 2 1))
  = Ok (replicate 2 [Z.of_nat 3], replicate 3 [Z.of_nat 2]).
Proof. apply (determine_hints_all_filled 3 2); lia. Defined.

Lemma emit_fits line : forall count,
  0 <= count ->
  hint_sum (emit count line) + Z.of_nat (length (emit count line))
  <= count + Z.of_nat (length line) + 1.
Proof.
  unfold hint_sum.
  induction line as [|v rest IH]; intros count Hc; simpl.
  - destruct (Z.gtb_spec count 0); simpl; lia.
  - destruct (v =? 1).
    + specialize (IH (count + 1)). lia.
    + destruct (Z.gtb_spec count 0); simpl.
      * specialize (IH 0). lia.
      * specialize (IH count). lia.
Qed.

Lemma run_lengths_fits line : fits (length line) (run_lengths line).
Proof.
  unfold fits. rewrite run_lengths_emit.
  pose proof (emit_fits line 0). lia.
Qed.

(** X3: every hint sequence fits its line: the runs plus one gap between
    neighbours need no more cells than the line has. *)
Theorem determine_hints_fit (solution : list (list Z)) (m : nat) :
  solution <> [] ->
  rectangular solution m ->
  exists column_hints row_hints,
    determine_hints solution = Ok (column_hints, row_hints)
    /\ Forall (fits m) row_hints
    /\ Forall (fits (length solution)) column_hints.
Proof.
  intros Hne Hrect. eexists _, _.
  split; [by apply determine_hints_rectangular |]. split.
  - apply Forall_forall. intros hint (row & <- & Hrow)%list_elem_of_In%in_map_iff.
    unfold rectangular in Hrect. rewrite Forall_forall in Hrect.
    rewrite <- (Hrect row) by (by apply list_elem_of_In).
    apply run_lengths_fits.
  - apply Forall_forall. intros hint (j & <- & _)%list_elem_of_In%in_map_iff.
    replace (length solution) with (length (column solution j))
      by apply length_map.
    apply run_lengths_fits.
Qed.

Lemma determine_hints_fit_witness :
  exists column_hints row_hints,
    Utils.determine_hints [[1;0;1];[1;1;0]] = Ok (column_hints, row_hints)
    /\ Forall (fits 3) row_hints
    /\ Forall (fits 2) column_hints.
Proof.
  apply (determine_hints_fit [[1;0;1];[1;1;0]] 3).
  - discriminate.
  - repeat constructor.
Defined.

End MoreHints.

Section HintSymmetries.

Import Utils HintSpec Aux GridSpec.

Lemma column_transpose solution (m i : nat) row :
  solution !! i = Some row -> length row = m ->
  column (transpose solution m) i = row.
Proof.
  intros Hrow Hlen. unfold transpose, column. rewrite map_map.
  apply list_eq. intros j. rewrite list_lookup_fmap.
  destruct (decide (j < m)%nat) as [Hj|Hj].
  - rewrite lookup_seq_lt by done. simpl.
    rewrite list_lookup_fmap, Hrow. simpl.
    destruct (lookup_lt_is_Some_2 row j) as [v Hv]; [lia |]. by rewrite Hv.
  - rewrite lookup_seq_ge by lia. simpl. symmetry.
    apply lookup_ge_None. lia.
Qed.

(** X4: the hints of the transposed grid are the hints of the grid with
    rows and columns exchanged. *)
Theorem determine_hints_transpose (solution : list (list Z)) (m : nat) :
  solution <> [] ->
  (0 < m)%nat ->
  rectangular solution m ->
  exists column_hints row_hints,
    determine_hints solution = Ok (column_hints, row_hints)
    /\ determine_hints (transpose solution m) = Ok (row_hints, column_hints).
Proof.
  intros Hne Hm Hrect. eexists _, _.
  split; [by apply determine_hints_rectangular |].
  rewrite (determine_hints_rectangular _ (length solution)).
  - f_equal. f_equal; [| unfold transpose; by rewrite map_map].
    apply list_eq. intros i. rewrite !list_lookup_fmap.
    destruct (solution !! i) as [row|] eqn:Hrow.
    + rewrite lookup_seq_lt by (by apply lookup_lt_Some in Hrow). simpl.
      f_equal. f_equal. apply column_transpose; [done |].
      unfold rectangular in Hrect. rewrite Forall_lookup in Hrect.
      by apply (Hrect i).
    + rewrite lookup_seq_ge by (by apply lookup_ge_None). reflexivity.
  - unfold transpose. destruct m; [lia | discriminate].
  - apply Forall_forall.
    intros row (j & <- & _)%list_elem_of_In%in_map_iff. apply length_map.
Qed.

Lemma determine_hints_transpose_witness :
  exists column_hints row_hints,
    Utils.determine_hints [[1;0;1];[1;1;0]] = Ok (column_hints, row_hints)
    /\ Utils.determine_hints (transpose [[1;0;1];[1;1;0]] 3)
       = Ok (row_hints, column_hints).
Proof.
  apply (determine_hints_transpose [[1;0;1];[1;1;0]] 3).
  - discriminate.
  - lia.
  - repeat constructor.
Defined.

Lemma emit_split l1 v l2 : forall count,
  0 <= count -> v <> 1 ->
  emit count (l1 ++ v :: l2) = emit count l1 ++ emit 0 l2.
Proof.
  induction l1 as [|w rest IH]; intros count Hc Hv; simpl.
  - destruct (Z.eqb_spec v 1); [done |].
    destruct (Z.gtb_spec count 0); [reflexivity |].
    by replace count with 0 by lia.
  - destruct (w =? 1); [apply IH; lia |].
    destruct (Z.gtb_spec count 0); [| by apply IH].
    rewrite IH by lia. reflexivity.
Qed.

Lemma run_lengths_split l1 v l2 :
  v <> 1 -> run_lengths (l1 ++ v :: l2) = run_lengths l1 ++ run_lengths l2.
Proof. intros Hv. rewrite !run_lengths_emit. by apply emit_split. Qed.

Lemma run_lengths_ones_any (n : nat) :
  run_lengths (replicate n 1) = if (0 <? n)%nat then [Z.of_nat n] else [].
Proof.
  destruct n; [reflexivity |]. by rewrite run_lengths_ones by lia.
Qed.

(** A line is a run of filled cells, followed by nothing or by a cell that
    is not filled and the rest of the line. *)
Lemma line_head_run (line : list Z) :
  line = replicate (run_len line) 1
  \/ exists v rest, v <> 1 /\ line = replicate (run_len line) 1 ++ v :: rest.
Proof.
  induction line as [|w rest IH]; simpl; [by left |].
  unfold filled. destruct (Z.eqb_spec w 1) as [->|Hw].
  - destruct IH as [IH|(v & rest' & Hv & IH)].
    + left. simpl. by rewrite <- IH.
    + right. exists v, rest'. split; [done |]. simpl. by rewrite <- IH.
  - right. by exists w, rest.
Qed.

Lemma run_lengths_reverse_bounded (n : nat) : forall line,
  (length line <= n)%nat ->
  run_lengths (reverse line) = reverse (run_lengths line).
Proof.
  induction n as [|n IH]; intros line Hlen.
  - destruct line; [reflexivity | simpl in Hlen; lia].
  - destruct (line_head_run line) as [Hline|(v & rest & Hv & Hline)].
    + rewrite Hline, reverse_replicate, run_lengths_ones_any.
      by destruct (0 <? run_len line)%nat.
    + rewrite Hline at 1 2. rewrite reverse_app, reverse_cons.
      rewrite <- app_assoc. simpl.
      rewrite !run_lengths_split by done.
      rewrite reverse_app, reverse_replicate, run_lengths_ones_any.
      rewrite IH.
      * by destruct (0 <? run_len line)%nat.
      * rewrite Hline, length_app in Hlen. simpl in Hlen. lia.
Qed.

Lemma run_lengths_reverse line :
  run_lengths (reverse line) = reverse (run_lengths line).
Proof. by apply (run_lengths_reverse_bounded (length line)). Qed.

Lemma column_reverse solution j :
  column (reverse solution) j = reverse (column solution j).
Proof. unfold column. apply fmap_reverse. Qed.

Lemma column_reverse_rows solution (m j : nat) :
  rectangular solution m -> (j < m)%nat ->
  column (map reverse solution) j = column solution (m - S j).
Proof.
  intros Hrect Hj. unfold column. rewrite map_map.
  apply Forall_fmap_ext_1. eapply Forall_impl; [exact Hrect |].
  simpl. intros row Hrow. rewrite reverse_lookup by lia. by rewrite Hrow.
Qed.

Lemma map_seq_reverse {A} (f : nat -> A) (m : nat) :
  map (fun j => f (m - S j)%nat) (seq 0 m) = reverse (map f (seq 0 m)).
Proof.
  apply list_eq. intros i.
  destruct (decide (i < m)%nat) as [Hi|Hi].
  - rewrite reverse_lookup by (by rewrite length_map, length_seq).
    rewrite !list_lookup_fmap, length_map, length_seq.
    rewrite !lookup_seq_lt by lia. reflexivity.
  - rewrite !(proj2 (lookup_ge_None _ _));
      [done | rewrite length_reverse | ]; rewrite length_map, length_seq; lia.
Qed.

(** X5: turning the grid upside down reverses the list of row hints and
    each column hint; mirroring it left to right reverses the list of
    column hints and each row hint. *)
Theorem determine_hints_flip (solution : list (list Z)) (m : nat) :
  solution <> [] ->
  rectangular solution m ->
  exists column_hints row_hints,
    determine_hints solution = Ok (column_hints, row_hints)
    /\ determine_hints (reverse solution)
       = Ok (map reverse column_hints, reverse row_hints)
    /\ determine_hints (map reverse solution)
       = Ok (reverse column_hints, map reverse row_hints).
Proof.
  intros Hne Hrect. eexists _, _.
  split; [by apply determine_hints_rectangular |]. split.
  - rewrite (determine_hints_rectangular _ m).
    + f_equal. f_equal.
      * rewrite map_map. apply map_ext. intros j.
        by rewrite column_reverse, run_lengths_reverse.
      * apply (fmap_reverse run_lengths).
    + intros Hnil. apply Hne. by rewrite <- (reverse_involutive solution), Hnil.
    + by apply Forall_reverse.
  - rewrite (determine_hints_rectangular _ m).
    + f_equal. f_equal.
      * rewrite <- map_seq_reverse. apply map_ext_in.
        intros j Hj%in_seq. by rewrite (column_reverse_rows _ m) by (done || lia).
      * rewrite !map_map. apply map_ext, run_lengths_reverse.
    + by destruct solution.
    + apply Forall_fmap. eapply Forall_impl; [exact Hrect |].
      simpl. intros row <-. apply length_reverse.
Qed.

Lemma determine_hints_flip_witness :
  exists column_hints row_hints,
    Utils.determine_hints [[1;0;1];[1;1;0]] = Ok (column_hints, row_hints)
    /\ Utils.determine_hints (reverse [[1;0;1];[1;1;0]])
       = Ok (map reverse column_hints, reverse row_hints)
    /\ Utils.determine_hints (map reverse [[1;0;1];[1;1;0]])
       = Ok (reverse column_hints, map reverse row_hints).
Proof.
  apply (determine_hints_flip [[1;0;1];[1;1;0]] 3).
  - discriminate.
  - repeat constructor.
Defined.

End HintSymmetries.

Section Files.

Import Utils FileSpec.

Lemma split_space_cons c rest :
  split_space (String c rest)
  = if Ascii.eqb c " "%char then EmptyString :: split_space rest
    else match split_space rest with
         | piece :: pieces => String c piece :: pieces
         | [] => [String c EmptyString]
         end.
Proof. reflexivity. Qed.

Lemma split_space_nonempty line : split_space line <> [].
Proof.
  induction line as [|c rest IH]; [discriminate |].
  rewrite split_space_cons. destruct (Ascii.eqb c " "); [discriminate |].
  by destruct (split_space rest).
Qed.

Lemma join_space_cons piece pieces :
  pieces <> [] ->
  join_space (piece :: pieces)
  = (piece +:+ String " "%char (join_space pieces))%string.
Proof. by destruct pieces. Qed.

(** X6: [line.split(" ")] loses nothing: joining the pieces with single
    spaces gives the line back, no piece holds a space, and there is one
    piece more than the line has spaces (so never an empty list). *)
Theorem split_space_join (line : string) :
  join_space (split_space line) = line
  /\ Forall (fun piece => has_space piece = false) (split_space line)
  /\ length (split_space line) = S (count_spaces line).
Proof.
  induction line as [|c rest (IHjoin & IHpieces & IHlen)].
  - repeat split; by repeat constructor.
  - rewrite split_space_cons. simpl count_spaces.
    destruct (Ascii.eqb c " ") eqn:Hc.
    + apply Ascii.eqb_eq in Hc as ->. repeat split.
      * rewrite join_space_cons by apply split_space_nonempty.
        simpl. by rewrite IHjoin.
      * by constructor.
      * simpl. by rewrite IHlen.
    + pose proof (split_space_nonempty rest) as Hne.
      destruct (split_space rest) as [|piece pieces]; [done |].
      apply Forall_cons in IHpieces as [Hpiece Hpieces].
      repeat split.
      * rewrite <- IHjoin. by destruct pieces.
      * constructor; [simpl; by rewrite Hc | exact Hpieces].
      * exact IHlen.
Qed.

(** X7: splitting what was joined with single spaces gives the pieces
    back, when there is at least one piece and no piece holds a space. *)
Theorem join_space_split (pieces : list string) :
  pieces <> [] ->
  Forall (fun piece => has_space piece = false) pieces ->
  split_space (join_space pieces) = pieces.
Proof.
  intros Hne Hpieces.
  induction Hpieces as [|piece rest Hpiece Hrest IH]; [done |].
  destruct rest as [|p ps].
  - clear IH Hne Hrest. simpl.
    induction piece as [|c s IHs]; [reflexivity |].
    simpl in Hpiece. apply orb_false_iff in Hpiece as [Hc Hs].
    rewrite split_space_cons, Hc, (IHs Hs). reflexivity.
  - specialize (IH ltac:(discriminate)).
    rewrite join_space_cons by discriminate. clear Hne.
    induction piece as [|c s IHs].
    + change (split_space (String " " (join_space (p :: ps)))
              = EmptyString :: p :: ps).
      by rewrite split_space_cons, Ascii.eqb_refl, IH.
    + simpl in Hpiece. apply orb_false_iff in Hpiece as [Hc Hs].
      change (split_space (String c (s +:+ String " " (join_space (p :: ps))))
              = String c s :: p :: ps).
      rewrite split_space_cons, Hc, (IHs Hs). reflexivity.
Qed.

Lemma join_space_split_witness :
  split_space (join_space ["1"; "0"; ""; "1"]%string)
  = ["1"; "0"; ""; "1"]%string.
Proof.
  apply (join_space_split ["1"; "0"; ""; "1"]%string).
  - discriminate.
  - repeat constructor.
Defined.

Variable py_int : string -> option Z.

Lemma parse_row_Ok tokens row :
  parse_row py_int tokens = Ok row
  <-> Forall2 (fun token v => py_int token = Some v) tokens row.
Proof.
  revert row. induction tokens as [|token rest IH]; intros row; simpl.
  - split; [intros [= <-]; constructor | by intros ->%Forall2_nil_inv_l].
  - destruct (py_int token) as [v|] eqn:Hv.
    + destruct (parse_row py_int rest) as [row'|e] eqn:Hrest; simpl.
      * split.
        -- intros [= <-]. constructor; [done | by apply IH].
        -- intros (v' & row'' & Hv' & Hrow & ->)%Forall2_cons_inv_l.
           apply IH in Hrow. congruence.
      * split; [discriminate |].
        intros (v' & row'' & Hv' & Hrow & ->)%Forall2_cons_inv_l.
        apply IH in Hrow. discriminate.
    + split; [discriminate |].
      intros (v' & row'' & Hv' & Hrow & ->)%Forall2_cons_inv_l. congruence.
Qed.

Lemma parse_lines_Ok : forall lines acc solution,
  parse_lines py_int lines acc = Ok solution
  <-> exists rows, solution = acc ++ rows
                   /\ Forall2 (parses py_int) lines rows.
Proof.
  induction lines as [|line rest IH]; intros acc solution; simpl.
  - split.
    + intros [= <-]. exists []. by rewrite app_nil_r.
    + intros (rows & -> & ->%Forall2_nil_inv_l). by rewrite app_nil_r.
  - destruct (parse_row py_int (split_space line)) as [row|e] eqn:Hrow; simpl.
    + rewrite IH. split.
      * intros (rows & -> & Hrows). exists (row :: rows).
        rewrite <- app_assoc. split; [done |].
        constructor; [by apply parse_row_Ok | done].
      * intros (rows & -> & (row' & rows' & Hrow' & Hrows & ->)%Forall2_cons_inv_l).
        apply parse_row_Ok in Hrow'. exists rows'.
        rewrite <- app_assoc. split; [| done].
        f_equal. simpl. f_equal. congruence.
    + split; [discriminate |].
      intros (rows & -> & (row' & rows' & Hrow' & Hrows & ->)%Forall2_cons_inv_l).
      apply parse_row_Ok in Hrow'. congruence.
Qed.

Lemma get_solution_Ok (files : puzzle_store) (n : Z)
    (solution : list (list Z)) :
  get_solution py_int files n = Ok solution
  <-> exists lines, files n = Some lines
                    /\ Forall2 (parses py_int) lines solution.
Proof.
  unfold get_solution. destruct (files n) as [lines|].
  - rewrite parse_lines_Ok. split.
    + intros (rows & -> & Hrows). by exists lines.
    + intros (lines' & [= <-] & Hrows). by exists solution.
  - split; [discriminate | by intros (lines & [=] & _)].
Qed.

(** X8: [get_solution] returns a grid exactly when the file exists and
    every token of every line is an integer; the grid then has one row per
    line holding the integers of that line in order, and every row has at
    least one cell. *)
Theorem get_solution_parses (files : puzzle_store) (n : Z)
    (solution : list (list Z)) :
  (get_solution py_int files n = Ok solution
   <-> exists lines, files n = Some lines
                     /\ Forall2 (parses py_int) lines solution)
  /\ (get_solution py_int files n = Ok solution ->
      Forall (fun row => row <> []) solution).
Proof.
  split; [apply get_solution_Ok |].
  intros (lines & _ & Hrows)%get_solution_Ok.
  induction Hrows as [|line row lines rows Hrow _ IH]; [constructor |].
  constructor; [| exact IH].
  intros ->. apply Forall2_nil_inv_r in Hrow.
  by apply split_space_nonempty in Hrow.
Qed.

Lemma parse_row_Raise tokens : forall e,
  parse_row py_int tokens = Raise e
  <-> e = ValueError /\ Exists (fun token => py_int token = None) tokens.
Proof.
  induction tokens as [|token rest IH]; intros e; simpl.
  - split; [discriminate | by intros [_ ?%Exists_nil]].
  - destruct (py_int token) as [v|] eqn:Hv.
    + destruct (parse_row py_int rest) as [row|e'] eqn:Hrest; simpl.
      * split; [discriminate |].
        intros [He [Hno|Hex]%Exists_cons]; [congruence |].
        pose proof (proj2 (IH e) (conj He Hex)). discriminate.
      * destruct (proj1 (IH e') eq_refl) as [-> Hex]. split.
        -- intros [= <-]. split; [done | by right].
        -- by intros [-> _].
    + split; [intros [= <-]; split; [done | by left] | by intros [-> _]].
Qed.

Lemma parse_lines_Raise : forall lines acc e,
  parse_lines py_int lines acc = Raise e
  <-> e = ValueError
      /\ Exists (fun line =>
                   Exists (fun token => py_int token = None) (split_space line))
           lines.
Proof.
  induction lines as [|line rest IH]; intros acc e; simpl.
  - split; [discriminate | by intros [_ ?%Exists_nil]].
  - destruct (parse_row py_int (split_space line)) as [row|e'] eqn:Hrow; simpl.
    + rewrite IH. split.
      * intros [-> Hex]. split; [done | by right].
      * intros [-> [Hbad|Hex]%Exists_cons]; [| done].
        assert (parse_row py_int (split_space line) = Raise ValueError) as Hr
          by (by apply parse_row_Raise).
        congruence.
    + apply parse_row_Raise in Hrow as [-> Hbad]. split.
      * intros [= <-]. split; [done | by left].
      * by intros [-> _].
Qed.

Lemma get_solution_ValueError (files : puzzle_store) (n : Z) :
  get_solution py_int files n = Raise ValueError
  <-> exists lines,
        files n = Some lines
        /\ Exists (fun line =>
                     Exists (fun token => py_int token = None)
                       (split_space line))
             lines.
Proof.
  unfold get_solution. destruct (files n) as [lines|].
  - rewrite parse_lines_Raise. split.
    + intros [_ Hex]. by exists lines.
    + intros (lines' & [= <-] & Hex). done.
  - split; [discriminate | by intros (lines & [=] & _)].
Qed.

(** X9: the exceptions of [get_solution]: [FileNotFoundError] exactly when
    the file is missing, [ValueError] exactly when the file exists and some
    token of some line is no integer, and never [IndexError]. *)
Theorem get_solution_errors (files : puzzle_store) (n : Z) :
  (get_solution py_int files n = Raise FileNotFoundError <-> files n = None)
  /\ (get_solution py_int files n = Raise ValueError
      <-> exists lines,
            files n = Some lines
            /\ Exists (fun line =>
                         Exists (fun token => py_int token = None)
                           (split_space line))
                 lines)
  /\ get_solution py_int files n <> Raise IndexError.
Proof.
  split; [apply get_solution_missing |].
  split; [apply get_solution_ValueError |].
  unfold get_solution. destruct (files n) as [lines|]; [| discriminate].
  intros [[=] _]%parse_lines_Raise.
Qed.

End Files.

Lemma py_pos_out n i : n <= i -> 0 <= n -> py_pos n i = None.
Proof.
  intros Hi Hn. unfold py_pos.
  destruct (Z.ltb_spec i 0); [lia |].
  destruct (Z.leb_spec 0 i); [| done].
  destruct (Z.ltb_spec i n); [lia | done].
Qed.

Lemma py_getitem_out {A} (l : list A) i :
  len l <= i -> py_getitem l i = Raise IndexError.
Proof.
  intros Hi. unfold py_getitem. by rewrite py_pos_out by (unfold len in *; lia).
Qed.

Lemma py_pos_wrap n i : - n <= i < 0 -> py_pos n i = py_pos n (i + n).
Proof.
  intros Hi. unfold py_pos.
  destruct (Z.ltb_spec i 0); [| lia].
  destruct (Z.ltb_spec (i + n) 0); [lia | reflexivity].
Qed.

Lemma py_getitem_wrap {A} (l : list A) i :
  - len l <= i < 0 -> py_getitem l i = py_getitem l (i + len l).
Proof. intros Hi. unfold py_getitem. by rewrite py_pos_wrap. Qed.

Lemma py_setitem_wrap {A} (l : list A) i v :
  - len l <= i < 0 -> py_setitem l i v = py_setitem l (i + len l) v.
Proof. intros Hi. unfold py_setitem. by rewrite py_pos_wrap. Qed.

Lemma py_getitem_elem {A} (l : list A) i a : py_getitem l i = Ok a -> a ∈ l.
Proof.
  unfold py_getitem. destruct (py_pos _ _) as [k|]; [| discriminate].
  destruct (l !! k) eqn:Hk; [| discriminate].
  intros [= <-]. by apply list_elem_of_lookup_2 in Hk.
Qed.

Lemma getitem2_wrap {A} (g : list (list A)) n y x :
  Forall (fun row => len row = n) g -> - n <= x < 0 ->
  getitem2 g y x = getitem2 g y (x + n).
Proof.
  intros Hrows Hx. unfold getitem2.
  destruct (py_getitem g y) as [row|e] eqn:Hrow; [| reflexivity]. simpl.
  apply py_getitem_elem in Hrow. rewrite Forall_forall in Hrows.
  specialize (Hrows row Hrow). simpl in Hrows. subst n.
  by apply py_getitem_wrap.
Qed.

Lemma setitem2_wrap {A} (g : list (list A)) n y x v :
  Forall (fun row => len row = n) g -> - n <= x < 0 ->
  setitem2 g y x v = setitem2 g y (x + n) v.
Proof.
  intros Hrows Hx. unfold setitem2.
  destruct (py_pos (len g) y) as [k|]; [| reflexivity].
  destruct (g !! k) as [row|] eqn:Hrow; [| reflexivity].
  apply list_elem_of_lookup_2 in Hrow. rewrite Forall_forall in Hrows.
  specialize (Hrows row Hrow). simpl in Hrows. subst n.
  by rewrite py_setitem_wrap.
Qed.

Section ClickEdges.

Variable MAX_TRIES : Z.

Local Arguments after_click : simpl never.
Local Arguments restart_game : simpl never.
Local Arguments set_cell : simpl never.

Lemma play_cell_out self y x :
  wf self -> 0 <= y -> 0 <= x ->
  n_rows self <= y \/ n_columns self <= x ->
  play_cell self y x = Raise IndexError.
Proof.
  intros Hwf Hy Hx Hout. unfold play_cell, getitem2.
  destruct (py_getitem (grid self) y) as [row|e] eqn:Hrow.
  - simpl. apply py_getitem_out.
    pose proof (py_getitem_elem _ _ _ Hrow) as Hel.
    pose proof (wf_grid_columns _ Hwf) as Hcols.
    rewrite Forall_forall in Hcols. rewrite (Hcols row Hel).
    destruct Hout as [Hout|Hout]; [| done].
    rewrite py_getitem_out in Hrow; [done |].
    by rewrite (wf_grid_rows _ Hwf).
  - simpl. by apply py_getitem_raise in Hrow as ->.
Qed.

(** X10: a primary or secondary click above the top row or right of the
    last column raises [IndexError] before anything is changed or drawn. *)
Theorem click_outside_grid (self : Nonogram) (button y x : Z) :
  wf self ->
  button = Primary \/ button = Secondary ->
  0 <= y -> 0 <= x ->
  n_rows self <= y \/ n_columns self <= x ->
  on_click MAX_TRIES button x y self = (self, [], Raise IndexError).
Proof.
  intros Hwf Hb Hy Hx Hout.
  pose proof (play_cell_out self y x Hwf Hy Hx Hout) as Hcell.
  unfold play_cell in Hcell.
  destruct Hb as [-> | ->]; unfold on_click, bind, reads; simpl;
    by rewrite Hcell.
Qed.

Lemma set_cell_wrap self y x v :
  Forall (fun row => len row = n_columns self) (grid self) ->
  - n_columns self <= x < 0 ->
  set_cell y x v self = set_cell y (x + n_columns self) v self.
Proof.
  intros Hrows Hx. unfold set_cell.
  by rewrite (setitem2_wrap _ (n_columns self)).
Qed.

Lemma bind_reads {A B} (f : Nonogram -> result A) (k : A -> M B) self :
  bind (reads f) k self
  = match f self with
    | Ok a => k a self
    | Raise e => (self, [], Raise e)
    end.
Proof.
  unfold bind, reads. destruct (f self) as [a|e]; [| reflexivity].
  by destruct (k a self) as [[self2 t2] r].
Qed.

Lemma bind_same_start {A B} (m m' : M A) (k : A -> M B) self :
  m self = m' self -> bind m k self = bind m' k self.
Proof. intros Heq. unfold bind. by rewrite Heq. Qed.

(** X11: a click left of the grid is not rejected: with [x] between
    [-n_columns] and [-1] Python's negative indexing makes [on_click] act on
    column [x + n_columns], in the play grid and in the solution alike. *)
Theorem click_left_of_grid_wraps (self : Nonogram) (button y x : Z) :
  wf self ->
  Forall (fun row => len row = n_columns self) (solution self) ->
  - n_columns self <= x < 0 ->
  on_click MAX_TRIES button x y self
  = on_click MAX_TRIES button (x + n_columns self) y self.
Proof.
  intros Hwf Hsol Hx.
  pose proof (wf_grid_columns _ Hwf) as Hgrid.
  pose proof (getitem2_wrap (grid self) _ y x Hgrid Hx) as Hg.
  pose proof (getitem2_wrap (solution self) _ (n_rows self - y - 1) x Hsol Hx)
    as Hs.
  assert (forall v, set_cell y x v self
                    = set_cell y (x + n_columns self) v self) as Hset
    by (intros v; by apply set_cell_wrap).
  unfold on_click.
  destruct (button =? 1).
  - rewrite !bind_reads, Hg.
    destruct (getitem2 (grid self) y (x + n_columns self)) as [c|e];
      [| reflexivity].
    destruct (String.eqb c "0"); [| reflexivity].
    rewrite !bind_reads, Hs.
    destruct (getitem2 (solution self) (n_rows self - y - 1)
                (x + n_columns self)) as [s|e]; [| reflexivity].
    destruct (s =? 1); apply bind_same_start, Hset.
  - destruct (button =? 3); [| reflexivity].
    rewrite !bind_reads, Hg.
    destruct (getitem2 (grid self) y (x + n_columns self)) as [c|e] eqn:Hc;
      [| reflexivity].
    destruct (String.eqb c "0"); [apply bind_same_start, Hset |].
    rewrite !bind_reads, Hg, Hc.
    destruct (String.eqb c "x"); [apply bind_same_start, Hset | reflexivity].
Qed.

End ClickEdges.

Lemma click_outside_grid_witness :
  on_click 3 Primary 2 0 (demo [["0"; "1"]; ["0"; "x"]] 2)
  = (demo [["0"; "1"]; ["0"; "x"]] 2, [], Raise IndexError).
Proof.
  apply (click_outside_grid 3 (demo [["0"; "1"]; ["0"; "x"]] 2) Primary 0 2).
  - apply demo_wf.
  - by left.
  - lia.
  - lia.
  - right. simpl. lia.
Defined.

Lemma click_left_of_grid_wraps_witness :
  on_click 3 Primary (-1) 1 (demo [["0"; "1"]; ["0"; "0"]] 2)
  = on_click 3 Primary (-1 + 2) 1 (demo [["0"; "1"]; ["0"; "0"]] 2).
Proof.
  apply (click_left_of_grid_wraps 3 (demo [["0"; "1"]; ["0"; "0"]] 2) Primary 1 (-1)).
  - apply demo_wf.
  - repeat constructor.
  - simpl. lia.
Defined.

Lemma won_dialog_In won :
  In (ShowInfo "You won!") (CanvasDraw :: won_dialog won) <-> won = true.
Proof.
  destruct won; simpl; split; try done.
  - intros _. right. by left.
  - intros [H|[]]. discriminate.
Qed.

Lemma won_dialog_no_game_over won :
  ~ In (ShowInfo "Game over") (CanvasDraw :: won_dialog won).
Proof. destruct won; simpl; intuition discriminate. Qed.

Section ClickOutcomes.

Variable MAX_TRIES : Z.

Lemma on_click_other_solved self button y x :
  wf self ->
  button <> Primary -> button <> Secondary ->
  exists won,
    on_click MAX_TRIES button x y self
    = (self, CanvasDraw :: won_dialog won, Ok tt)
    /\ (won = true <-> solved self).
Proof.
  intros Hwf H1 H3. destruct (after_click_ok self Hwf) as (won & Hafter & Hiff).
  exists won. split; [| exact Hiff].
  unfold on_click, Primary, Secondary in *.
  destruct (Z.eqb_spec button 1); [done |].
  destruct (Z.eqb_spec button 3); done.
Qed.


(** The outcomes of an in-bounds click on a state of the game. *)
Lemma on_click_outcome self button y x :
  wf self -> in_bounds self y x ->
  exists self' t,
    on_click MAX_TRIES button x y self = (self', t, Ok tt)
    /\ wf self'
    /\ solution self' = solution self
    /\ n_rows self' = n_rows self
    /\ n_columns self' = n_columns self
    /\ ((self' = fresh MAX_TRIES self
         /\ t = [LabelConfig 0; ShowInfo "Game over";
                 LabelConfig MAX_TRIES; CanvasDraw])
        \/ ((exists won pre,
               t = pre ++ CanvasDraw :: won_dialog won
               /\ (won = true <-> solved self')
               /\ ~ In (ShowInfo "You won!") pre
               /\ ~ In (ShowInfo "Game over") pre)
            /\ forall y' x', in_bounds self y' x' ->
                 play_cell self y' x' = Ok Filled ->
                 play_cell self' y' x' = Ok Filled)).
Proof.
  intros Hwf Hin.
  destruct (wf_play_cell self y x Hwf Hin) as [c Hcell].
  destruct (wf_solution_cell self y x Hwf Hin) as [s Hsol].
  assert (forall v, v = Filled \/ c <> Filled ->
            forall y' x', in_bounds self y' x' ->
              play_cell self y' x' = Ok Filled ->
              play_cell (mark self y x v) y' x' = Ok Filled) as Hkeep.
  { intros v Hv y' x' Hin' Hfilled.
    destruct (decide ((y', x') = (y, x))) as [[= -> ->]|Hne].
    - rewrite mark_same by done.
      destruct Hv as [->|Hc]; [done | congruence].
    - by rewrite mark_other. }
  assert (forall v, solution (mark self y x v) = solution self
                    /\ n_rows (mark self y x v) = n_rows self
                    /\ n_columns (mark self y x v) = n_columns self) as Hframe
    by (intros v; unfold mark; by destruct (setitem2 _ _ _ _)).
  destruct (decide (button = Primary)) as [->|Hb1].
  - destruct (decide (c = Unmarked)) as [->|Hc].
    + destruct (decide (s = 1)) as [->|Hs].
      * destruct (on_click_fill MAX_TRIES self y x Hwf Hin Hcell Hsol)
          as (won & -> & Hiff).
        eexists _, _. split; [reflexivity |]. split; [by apply mark_wf |].
        do 3 (split; [apply Hframe |]). right. split; [exists won, []; repeat split; (done || apply Hiff || (simpl; tauto)) |].
        apply Hkeep. by left.
      * destruct (decide (tries_left self - 1 = 0)) as [Ht|Ht].
        -- rewrite (on_click_game_over MAX_TRIES self y x s) by done.
           eexists _, _. split; [reflexivity |].
           split; [by apply fresh_wf |]. do 3 (split; [done |]). by left.
        -- destruct (on_click_mistake MAX_TRIES self y x s)
             as (won & -> & Hiff); try done.
           eexists _, _. split; [reflexivity |].
           split; [by apply mistake_wf |].
           do 3 (split; [apply (Hframe Crossed) |]). right. split.
           ++ exists won, [LabelConfig (tries_left self - 1); ShowInfo "Mistake"].
              repeat split; try done; try apply Hiff;
                simpl; intuition discriminate.
           ++ intros y' x' Hin' Hfilled.
              change (play_cell (mark self y x Crossed) y' x' = Ok Filled).
              apply Hkeep; [by right | done | done].
    + destruct (on_click_marked MAX_TRIES self y x c Hwf Hcell Hc)
        as (won & -> & Hiff).
      eexists _, _. split; [reflexivity |]. split; [done |].
      do 3 (split; [done |]). right. split; [exists won, []; repeat split; (done || apply Hiff || (simpl; tauto)) | done].
  - destruct (decide (button = Secondary)) as [->|Hb3].
    + destruct (on_click_secondary MAX_TRIES self y x c Hwf Hin Hcell)
        as (won & -> & Hiff).
      eexists _, _. split; [reflexivity |]. split; [by apply mark_wf |].
      do 3 (split; [apply Hframe |]). right. split; [exists won, []; repeat split; (done || apply Hiff || (simpl; tauto)) |].
      apply Hkeep. destruct (decide (c = Filled)) as [->|Hc]; [by left | by right].
    + destruct (on_click_other_solved self button y x Hwf Hb1 Hb3)
        as (won & -> & Hiff).
      eexists _, _. split; [reflexivity |]. split; [done |].
      do 3 (split; [done |]). right. split; [exists won, []; repeat split; (done || apply Hiff || (simpl; tauto)) | done].
Qed.

(** X13: an in-bounds click returns. The click that uses up the last try
    restarts the game and shows no win dialog, whatever the solution; after
    every other click the "You won!" dialog is shown exactly when the play
    grid is solved. *)
Theorem click_win_dialog (self : Nonogram) (button y x : Z) :
  wf self -> in_bounds self y x ->
  exists self' t,
    on_click MAX_TRIES button x y self = (self', t, Ok tt)
    /\ (In (ShowInfo "Game over") t ->
        self' = fresh MAX_TRIES self /\ ~ In (ShowInfo "You won!") t)
    /\ (~ In (ShowInfo "Game over") t ->
        (In (ShowInfo "You won!") t <-> solved self')).
Proof.
  intros Hwf Hin.
  destruct (on_click_outcome self button y x Hwf Hin)
    as (self' & t & Hclick & _ & _ & _ & _ & Hcases).
  exists self', t. split; [exact Hclick |].
  destruct Hcases as [[-> ->]|[(won & pre & -> & Hiff & Hpre & Hover) _]].
  - split; [intros _; split; [done | simpl; intuition discriminate] |].
    intros Hno. exfalso. apply Hno. simpl. tauto.
  - assert (~ In (ShowInfo "Game over") (pre ++ CanvasDraw :: won_dialog won))
      as Hnone.
    { intros [H|H]%in_app_or; [done | by apply won_dialog_no_game_over in H]. }
    split; [done |]. intros _. rewrite <- Hiff, <- won_dialog_In.
    split; [intros [H|H]%in_app_or; done | intros H; apply in_or_app; by right].
Qed.


End ClickOutcomes.


Lemma click_win_dialog_witness :
  exists self' t,
    on_click 3 Primary 0 1 (demo [["0"; "1"]; ["0"; "x"]] 2) = (self', t, Ok tt)
    /\ (In (ShowInfo "Game over") t ->
        self' = fresh 3 (demo [["0"; "1"]; ["0"; "x"]] 2)
        /\ ~ In (ShowInfo "You won!") t)
    /\ (~ In (ShowInfo "Game over") t ->
        (In (ShowInfo "You won!") t <-> solved self')).
Proof.
  apply (click_win_dialog 3 (demo [["0"; "1"]; ["0"; "x"]] 2) Primary 1 0).
  - apply demo_wf.
  - unfold in_bounds. simpl. lia.
Defined.


Import LoadSpec.

Section Sessions.

Variable MAX_TRIES : Z.
Variable files : Utils.puzzle_store.
Variable py_int : string -> option Z.

(** X15: in a reachable state every in-bounds click, with whatever
    button, and every restart return without an exception and lead to a
    reachable state. *)
Theorem reachable_actions_return (self : Nonogram) :
  reachable MAX_TRIES files py_int self ->
  (forall button y x, in_bounds self y x ->
     exists self' t,
       on_click MAX_TRIES button x y self = (self', t, Ok tt)
       /\ reachable MAX_TRIES files py_int self')
  /\ restart_game MAX_TRIES self
     = (fresh MAX_TRIES self, [LabelConfig MAX_TRIES; CanvasDraw], Ok tt)
  /\ reachable MAX_TRIES files py_int (fresh MAX_TRIES self).
Proof.
  intros Hreach.
  destruct (reachable_wf MAX_TRIES files py_int self Hreach) as [Hwf _].
  pose proof (restart_game_ok MAX_TRIES self Hwf) as Hrestart.
  split; [| split; [exact Hrestart |]].
  - intros button y x Hin.
    destruct (on_click_step MAX_TRIES self button x y Hwf Hin)
      as (self' & t & Hclick & _).
    exists self', t. split; [exact Hclick |].
    by apply (reachable_step _ _ _ self (Click button x y) self' t).
  - by apply (reachable_step _ _ _ self Restart _
                [LabelConfig MAX_TRIES; CanvasDraw]).
Qed.

(** X16: [restart_game] on a state of the game gives the fresh state,
    after one label update and one redraw; restarting again changes
    nothing; and right after a restart [check_state] is [True] exactly when
    the solution has no filled cell. *)
Theorem restart_game_fresh (self : Nonogram) :
  wf self ->
  restart_game MAX_TRIES self
  = (fresh MAX_TRIES self, [LabelConfig MAX_TRIES; CanvasDraw], Ok tt)
  /\ restart_game MAX_TRIES (fresh MAX_TRIES self)
     = (fresh MAX_TRIES self, [LabelConfig MAX_TRIES; CanvasDraw], Ok tt)
  /\ exists won,
       check_state (fresh MAX_TRIES self) = (fresh MAX_TRIES self, [], Ok won)
       /\ (won = true <-> no_filled_cell self).
Proof.
  intros Hwf. pose proof (fresh_wf MAX_TRIES self Hwf) as Hwf'.
  split; [by apply restart_game_ok |].
  split; [by rewrite (restart_game_ok MAX_TRIES _ Hwf') |].
  destruct (check_state_solved _ Hwf') as (won & Hcheck & Hiff).
  exists won. split; [exact Hcheck |]. rewrite Hiff.
  unfold solved, no_filled_cell. split.
  - intros Hsolved y x Hin Hsol.
    specialize (Hsolved y x Hin Hsol).
    rewrite (fresh_play_cell MAX_TRIES self y x Hwf Hin) in Hsolved.
    discriminate.
  - intros Hnone y x Hin Hsol. by destruct (Hnone y x Hin).
Qed.

Lemma loaded_is_wf solution (m : nat) hints :
  solution <> [] -> HintSpec.rectangular solution m -> (0 < m)%nat ->
  Utils.determine_hints solution = Ok hints ->
  wf (loaded MAX_TRIES solution m hints).
Proof.
  intros Hne Hrect Hm Hdet.
  destruct solution as [|first rest]; [done |].
  assert (length first = m) as Hfirst by (by inversion Hrect).
  apply (loaded_wf _ first); simpl; try done.
  - unfold len. by rewrite Hfirst.
  - by destruct hints.
  - rewrite (determine_hints_rectangular _ m) in Hdet by done.
    injection Hdet as <-. simpl. destruct m; [lia | discriminate].
Qed.

Lemma load_steps self n solution first :
  Utils.get_solution py_int files n = Ok solution ->
  py_getitem solution 0 = Ok first ->
  load_puzzle MAX_TRIES files py_int n self
  = match Utils.determine_hints solution with
    | Ok hints =>
        match draw (mkNonogram solution (len first) (len solution)
                      (fresh_grid (len first) (len solution))
                      (fst hints) (snd hints) MAX_TRIES) with
        | (self', t, r) =>
            match r with
            | Raise FileNotFoundError =>
                (self', LabelConfig MAX_TRIES :: t ++ [ShowError "Error"],
                 Ok tt)
            | _ => (self', LabelConfig MAX_TRIES :: t, r)
            end
        end
    | Raise e =>
        (mkNonogram solution (len first) (len solution)
           (fresh_grid (len first) (len solution))
           (column_hints self) (row_hints self) MAX_TRIES,
         [LabelConfig MAX_TRIES], Raise e)
    end.
Proof.
  intros Hget Hfirst.
  unfold load_puzzle, try_except, bind, reads, write. rewrite Hget. simpl.
  rewrite Hfirst. simpl.
  unfold restart_game, bind, write, read, reads, signal. simpl.
  destruct (Utils.determine_hints solution) as [hints|e] eqn:Hdet.
  - unfold set_hints, set_tries_left, set_grid. simpl.
    match goal with |- context [draw ?s] =>
      destruct (draw s) as [[self' t] r] end.
    destruct r as [[]|[]]; try reflexivity.
  - apply determine_hints_raise in Hdet as ->. reflexivity.
Qed.

(** X17: loading a file that holds a rectangular grid with at least one
    row and one column replaces the whole object, whatever it was: the new
    solution and its dimensions, an all-unmarked play grid, the hints of the
    new solution and all tries. *)
Theorem load_puzzle_loads (self : Nonogram) (n : Z) (lines : list string)
    (solution : list (list Z)) (m : nat) :
  files n = Some lines ->
  Forall2 (FileSpec.parses py_int) lines solution ->
  solution <> [] -> HintSpec.rectangular solution m -> (0 < m)%nat ->
  exists hints,
    Utils.determine_hints solution = Ok hints
    /\ load_puzzle MAX_TRIES files py_int n self
       = (loaded MAX_TRIES solution m hints,
          [LabelConfig MAX_TRIES; CanvasDraw], Ok tt)
    /\ wf (loaded MAX_TRIES solution m hints).
Proof.
  intros Hfile Hparse Hne Hrect Hm.
  pose proof (determine_hints_rectangular solution m Hne Hrect) as Hdet.
  eexists. split; [exact Hdet |].
  pose proof (loaded_is_wf solution m _ Hne Hrect Hm Hdet) as Hwf.
  split; [| exact Hwf].
  assert (Utils.get_solution py_int files n = Ok solution) as Hget
    by (apply get_solution_Ok; by exists lines).
  destruct solution as [|first rest]; [done |].
  assert (length first = m) as Hfirst by (by inversion Hrect).
  assert (Z.of_nat m = len first) as Hlen by (unfold len; by rewrite Hfirst).
  rewrite (load_steps self n _ first Hget eq_refl), Hdet.
  unfold loaded in *. rewrite Hlen in *.
  rewrite (draw_ok _ Hwf). reflexivity.
Qed.

(** X18: when a token of the file is no integer, [load_puzzle] lets the
    [ValueError] escape, shows no dialog and leaves the object as it was. *)
Theorem load_puzzle_bad_token (self : Nonogram) (n : Z) (lines : list string) :
  files n = Some lines ->
  Exists (fun line =>
            Exists (fun token => py_int token = None) (Utils.split_space line))
    lines ->
  load_puzzle MAX_TRIES files py_int n self = (self, [], Raise ValueError).
Proof.
  intros Hfile Hbad.
  assert (Utils.get_solution py_int files n = Raise ValueError) as Hget
    by (apply get_solution_ValueError; by exists lines).
  unfold load_puzzle, try_except, bind, reads. by rewrite Hget.
Qed.

Lemma py_pos_zero y : py_pos 0 y = None.
Proof.
  unfold py_pos. destruct (Z.ltb_spec y 0).
  - replace (0 <=? y + 0) with false by (symmetry; apply Z.leb_gt; lia).
    reflexivity.
  - replace (y <? 0) with false by (symmetry; apply Z.ltb_ge; lia).
    by rewrite andb_false_r.
Qed.

Lemma getitem2_nil {A} y x :
  getitem2 ([] : list (list A)) y x = Raise IndexError.
Proof.
  unfold getitem2, py_getitem.
  change (len ([] : list (list A))) with 0. by rewrite py_pos_zero.
Qed.

(** X19: loading an empty file is not atomic: [IndexError] escapes after
    the solution has been replaced by the empty grid, with play grid,
    dimensions, hints and tries left as they were; from then on a primary
    click on an unmarked cell and the win check raise [IndexError]. *)
Theorem load_puzzle_empty_file (self : Nonogram) (n : Z) :
  files n = Some [] ->
  load_puzzle MAX_TRIES files py_int n self
  = (set_solution [] self, [], Raise IndexError)
  /\ (forall y x,
        play_cell self y x = Ok Unmarked ->
        on_click MAX_TRIES Primary x y (set_solution [] self)
        = (set_solution [] self, [], Raise IndexError))
  /\ (0 < n_rows self -> 0 < n_columns self ->
      check_state (set_solution [] self)
      = (set_solution [] self, [], Raise IndexError)).
Proof.
  intros Hfile. split; [| split].
  - unfold load_puzzle, try_except, bind, reads, write.
    unfold Utils.get_solution. rewrite Hfile. reflexivity.
  - intros y x Hcell. unfold play_cell in Hcell.
    unfold on_click, bind, reads. simpl. rewrite Hcell. simpl.
    by rewrite getitem2_nil.
  - intros Hrows Hcols. unfold check_state, reads, range. simpl.
    rewrite (seqZ_cons 0 (n_rows self)) by done. simpl check_rows.
    unfold range. rewrite (seqZ_cons 0 (n_columns self)) by done.
    simpl check_cols. by rewrite getitem2_nil.
Qed.

(** X20: loading a file with a row shorter than the first: [IndexError]
    escapes from [determine_hints] after solution, dimensions, play grid and
    tries have been replaced; the hints are still those of the old puzzle
    and nothing is redrawn. *)
Theorem load_puzzle_short_row (self : Nonogram) (n : Z) (lines : list string)
    (first : list Z) (rest : list (list Z)) :
  files n = Some lines ->
  Forall2 (FileSpec.parses py_int) lines (first :: rest) ->
  GridSpec.covers first (first :: rest) = false ->
  load_puzzle MAX_TRIES files py_int n self
  = (mkNonogram (first :: rest) (len first) (len (first :: rest))
       (fresh_grid (len first) (len (first :: rest)))
       (column_hints self) (row_hints self) MAX_TRIES,
     [LabelConfig MAX_TRIES], Raise IndexError).
Proof.
  intros Hfile Hparse Hcov.
  assert (Utils.get_solution py_int files n = Ok (first :: rest)) as Hget
    by (apply get_solution_Ok; by exists lines).
  rewrite (load_steps self n _ first Hget eq_refl).
  by rewrite (determine_hints_uncovered first rest Hcov).
Qed.

(** X21: [__init__] does not catch a missing [puzzle_1.txt]:
    [FileNotFoundError] escapes. On a rectangular puzzle file it builds the
    same object as [load_puzzle] does, after one label update and one
    redraw. *)
Theorem new_game_cases :
  (files 1 = None ->
   new_game MAX_TRIES files py_int = Raise FileNotFoundError)
  /\ (forall lines solution m,
        files 1 = Some lines ->
        Forall2 (FileSpec.parses py_int) lines solution ->
        solution <> [] -> HintSpec.rectangular solution m -> (0 < m)%nat ->
        exists hints,
          Utils.determine_hints solution = Ok hints
          /\ new_game MAX_TRIES files py_int
             = Ok (loaded MAX_TRIES solution m hints,
                   [LabelConfig MAX_TRIES; CanvasDraw])).
Proof.
  split.
  - intros Hfile. unfold new_game.
    by rewrite (proj2 (get_solution_missing py_int files 1) Hfile).
  - intros lines solution m Hfile Hparse Hne Hrect Hm.
    pose proof (determine_hints_rectangular solution m Hne Hrect) as Hdet.
    eexists. split; [exact Hdet |].
    pose proof (loaded_is_wf solution m _ Hne Hrect Hm Hdet) as Hwf.
    assert (Utils.get_solution py_int files 1 = Ok solution) as Hget
      by (apply get_solution_Ok; by exists lines).
    destruct solution as [|first rest]; [done |].
    assert (length first = m) as Hfirst by (by inversion Hrect).
    unfold new_game. rewrite Hget. cbn [result_bind].
    change (py_getitem (first :: rest) 0) with (Ok first : result (list Z)).
    cbn [result_bind]. rewrite Hdet. cbn [result_bind].
    assert (Z.of_nat m = len first) as Hlen by (unfold len; by rewrite Hfirst).
    unfold loaded in *. rewrite Hlen in *. cbv zeta. cbn [fst snd] in *.
    rewrite (draw_ok _ Hwf). reflexivity.
Qed.

End Sessions.

Lemma demo_parses :
  Forall2 (FileSpec.parses demo_int) [("1 0" +:+ newline)%string; "0 1"%string]
    [[1; 0]; [0; 1]].
Proof. repeat constructor. Defined.

Lemma reachable_actions_return_witness :
  (forall button y x,
     in_bounds (demo [["0"; "1"]; ["0"; "x"]] 2) y x ->
     exists self' t,
       on_click 3 button x y (demo [["0"; "1"]; ["0"; "x"]] 2)
       = (self', t, Ok tt)
       /\ reachable 3 demo_files demo_int self')
  /\ restart_game 3 (demo [["0"; "1"]; ["0"; "x"]] 2)
     = (fresh 3 (demo [["0"; "1"]; ["0"; "x"]] 2),
        [LabelConfig 3; CanvasDraw], Ok tt)
  /\ reachable 3 demo_files demo_int
       (fresh 3 (demo [["0"; "1"]; ["0"; "x"]] 2)).
Proof.
  apply (reachable_actions_return 3 demo_files demo_int).
  apply demo_reachable.
Defined.

Lemma restart_game_fresh_witness :
  restart_game 3 (demo [["0"; "1"]; ["0"; "x"]] 2)
  = (fresh 3 (demo [["0"; "1"]; ["0"; "x"]] 2),
     [LabelConfig 3; CanvasDraw], Ok tt)
  /\ restart_game 3 (fresh 3 (demo [["0"; "1"]; ["0"; "x"]] 2))
     = (fresh 3 (demo [["0"; "1"]; ["0"; "x"]] 2),
        [LabelConfig 3; CanvasDraw], Ok tt)
  /\ exists won,
       check_state (fresh 3 (demo [["0"; "1"]; ["0"; "x"]] 2))
       = (fresh 3 (demo [["0"; "1"]; ["0"; "x"]] 2), [], Ok won)
       /\ (won = true <-> no_filled_cell (demo [["0"; "1"]; ["0"; "x"]] 2)).
Proof.
  apply (restart_game_fresh 3 (demo [["0"; "1"]; ["0"; "x"]] 2)).
  apply demo_wf.
Defined.

Lemma load_puzzle_loads_witness :
  exists hints,
    Utils.determine_hints [[1; 0]; [0; 1]] = Ok hints
    /\ load_puzzle 3 broken_files demo_int 1 (demo3 [["0"; "1"; "x"]; ["0"; "x"; "1"]] 1)
       = (loaded 3 [[1; 0]; [0; 1]] 2%nat hints, [LabelConfig 3; CanvasDraw], Ok tt)
    /\ wf (loaded 3 [[1; 0]; [0; 1]] 2%nat hints).
Proof.
  apply (load_puzzle_loads 3 broken_files demo_int
           (demo3 [["0"; "1"; "x"]; ["0"; "x"; "1"]] 1) 1
           [("1 0" +:+ newline)%string; "0 1"%string]).
  - reflexivity.
  - apply demo_parses.
  - discriminate.
  - repeat constructor.
  - lia.
Defined.

Lemma load_puzzle_bad_token_witness :
  load_puzzle 3 broken_files demo_int 2 (demo [["0"; "1"]; ["0"; "x"]] 2)
  = (demo [["0"; "1"]; ["0"; "x"]] 2, [], Raise ValueError).
Proof.
  apply (load_puzzle_bad_token 3 broken_files demo_int _ 2 ["1 a"%string]).
  - reflexivity.
  - left. right. left. reflexivity.
Defined.

Lemma load_puzzle_empty_file_witness :
  load_puzzle 3 broken_files demo_int 3 (demo [["0"; "1"]; ["0"; "x"]] 2)
  = (set_solution [] (demo [["0"; "1"]; ["0"; "x"]] 2), [], Raise IndexError).
Proof.
  apply (load_puzzle_empty_file 3 broken_files demo_int
           (demo [["0"; "1"]; ["0"; "x"]] 2) 3).
  reflexivity.
Defined.

Lemma load_puzzle_short_row_witness :
  load_puzzle 3 broken_files demo_int 4 (demo [["0"; "1"]; ["0"; "x"]] 2)
  = (mkNonogram [[1; 0]; [1]] 2 2 (fresh_grid 2 2) [[1]; [1]] [[1]; [1]] 3,
     [LabelConfig 3], Raise IndexError).
Proof.
  apply (load_puzzle_short_row 3 broken_files demo_int
           (demo [["0"; "1"]; ["0"; "x"]] 2) 4
           [("1 0" +:+ newline)%string; "1"%string] [1; 0] [[1]]).
  - reflexivity.
  - repeat constructor.
  - reflexivity.
Defined.

Lemma new_game_cases_witness :
  new_game 3 (fun _ => None) demo_int = Raise FileNotFoundError
  /\ exists hints,
       Utils.determine_hints [[1; 0]; [0; 1]] = Ok hints
       /\ new_game 3 demo_files demo_int
          = Ok (loaded 3 [[1; 0]; [0; 1]] 2%nat hints, [LabelConfig 3; CanvasDraw]).
Proof.
  split.
  - apply (proj1 (new_game_cases 3 (fun _ => None) demo_int)). reflexivity.
  - apply (proj2 (new_game_cases 3 demo_files demo_int)
             [("1 0" +:+ newline)%string; "0 1"%string] [[1; 0]; [0; 1]] 2%nat).
    + reflexivity.
    + apply demo_parses.
    + discriminate.
    + repeat constructor.
    + lia.
Defined.

Import Scene.

Example draw_scene_ex :
  draw_scene (demo [["0"; "1"]; ["x"; "0"]] 2)
  = Ok [Fill 1 0; Cross 0 1;
        HLine 0 1; HLine 1 1; HLine 2 1; HLine 2 2;
        VLine 0 1; VLine 0 2; VLine 1 1; VLine 2 1;
        XLim (-1) 2; YLim 0 3;
        ColumnText 0 2 0 1; ColumnText 1 2 0 1;
        RowText 0 0 1; RowText 1 0 1].
Proof. reflexivity. Qed.

Example range_down5_ex : range_down5 12 = [12; 7; 2].
Proof. reflexivity. Qed.

Section SceneProofs.

Lemma cell_cols_elem self i : forall js shapes,
  cell_cols self i js = Ok shapes ->
  forall s, s ∈ shapes <->
    exists j, j ∈ js
      /\ ((s = Fill j i /\ getitem2 (grid self) i j = Ok Filled)
          \/ (s = Cross j i /\ getitem2 (grid self) i j = Ok Crossed)).
Proof.
  induction js as [|j rest IH]; intros shapes; simpl.
  - intros [= <-] s. split; [by intros ?%elem_of_nil |].
    by intros (j & ?%elem_of_nil & _).
  - destruct (getitem2 (grid self) i j) as [cell|] eqn:Hcell; simpl;
      [| discriminate].
    destruct (cell_cols self i rest) as [more|] eqn:Hmore; simpl;
      [| discriminate].
    intros [= <-] s. rewrite elem_of_app, (IH more eq_refl). split.
    + intros [Hs|(j' & Hj' & Hcase)].
      * exists j. split; [left |].
        destruct (String.eqb_spec cell "1") as [->|H1].
        -- apply list_elem_of_singleton in Hs as ->. by left.
        -- destruct (String.eqb_spec cell "x") as [->|Hx].
           ++ apply list_elem_of_singleton in Hs as ->. by right.
           ++ by apply elem_of_nil in Hs.
      * exists j'. split; [by right | done].
    + intros (j' & [->|Hj']%elem_of_cons & Hcase).
      * left. rewrite Hcell in Hcase.
        destruct Hcase as [[-> [= ->]]|[-> [= ->]]]; simpl; by left.
      * right. by exists j'.
Qed.

Lemma cell_rows_elem self : forall rows shapes,
  cell_rows self rows = Ok shapes ->
  forall s, s ∈ shapes <->
    exists i j, i ∈ rows /\ j ∈ range (n_columns self)
      /\ ((s = Fill j i /\ getitem2 (grid self) i j = Ok Filled)
          \/ (s = Cross j i /\ getitem2 (grid self) i j = Ok Crossed)).
Proof.
  induction rows as [|i rest IH]; intros shapes; simpl.
  - intros [= <-] s. split; [by intros ?%elem_of_nil |].
    by intros (i & j & ?%elem_of_nil & _).
  - destruct (cell_cols self i _) as [row|] eqn:Hrow; simpl; [| discriminate].
    destruct (cell_rows self rest) as [more|] eqn:Hmore; simpl;
      [| discriminate].
    intros [= <-] s.
    rewrite elem_of_app, (cell_cols_elem _ _ _ _ Hrow), (IH more eq_refl).
    split.
    + intros [(j & Hj & Hcase)|(i' & j & Hi' & Hj & Hcase)].
      * exists i, j. split; [left | done].
      * exists i', j. split; [by right | done].
    + intros (i' & j & [->|Hi']%elem_of_cons & Hj & Hcase).
      * left. by exists j.
      * right. by exists i', j.
Qed.

Lemma draw_cols_cells self i : forall js,
  draw_cols self i js
  = match cell_cols self i js with
    | Ok _ => Ok tt
    | Raise e => Raise e
    end.
Proof.
  induction js as [|j rest IH]; simpl; [reflexivity |].
  destruct (getitem2 (grid self) i j); simpl; [| reflexivity].
  rewrite IH. by destruct (cell_cols self i rest).
Qed.

Lemma draw_rows_cells self : forall rows,
  draw_rows self rows
  = match cell_rows self rows with
    | Ok _ => Ok tt
    | Raise e => Raise e
    end.
Proof.
  induction rows as [|i rest IH]; simpl; [reflexivity |].
  rewrite draw_cols_cells.
  destruct (cell_cols self i _); simpl; [| reflexivity].
  rewrite IH. by destruct (cell_rows self rest).
Qed.

(** [draw] reaches [canvas.draw()] exactly when the scene is complete, and
    lets the same exception escape otherwise. *)
Lemma draw_draw_scene self :
  draw self
  = match draw_scene self with
    | Ok _ => (self, [CanvasDraw], Ok tt)
    | Raise e => (self, [], Raise e)
    end.
Proof.
  unfold draw, draw_scene, bind, reads, signal. rewrite draw_rows_cells.
  destruct (cell_rows self _); simpl; [| reflexivity].
  destruct (max_len (column_hints self)); simpl; [| reflexivity].
  destruct (max_len (row_hints self)); reflexivity.
Qed.

Lemma draw_scene_ok self :
  wf self -> exists scene, draw_scene self = Ok scene.
Proof.
  intros Hwf. pose proof (draw_ok self Hwf) as Hdraw.
  rewrite draw_draw_scene in Hdraw.
  destruct (draw_scene self) as [scene|e]; [by exists scene | discriminate].
Qed.

Lemma elem_of_flat_map {A B} (f : A -> list B) (l : list A) (b : B) :
  b ∈ flat_map f l <-> exists a, a ∈ l /\ b ∈ f a.
Proof.
  split.
  - intros (a & Ha & Hb)%list_elem_of_In%in_flat_map.
    exists a. split; by apply list_elem_of_In.
  - intros (a & Ha & Hb). apply list_elem_of_In, in_flat_map.
    exists a. split; by apply list_elem_of_In.
Qed.

Lemma elem_of_enumerate {A} (l : list A) (k : Z) (a : A) :
  (k, a) ∈ enumerate l <-> exists n : nat, k = Z.of_nat n /\ l !! n = Some a.
Proof.
  unfold enumerate. rewrite elem_of_lookup_imap. split.
  - intros (n & a' & [= -> ->] & Hl). by exists n.
  - intros (n & -> & Hl). by exists n, a.
Qed.

Lemma elem_of_range_down5 n i :
  i ∈ range_down5 n <-> 0 < i <= n /\ (n - i) mod 5 = 0.
Proof.
  unfold range_down5. rewrite list_elem_of_fmap. split.
  - intros (k & -> & Hk%elem_of_range).
    replace (n - (n - 5 * k)) with (k * 5) by lia.
    rewrite Z.mod_mul by lia. split; [| done].
    pose proof (Z.mul_div_le (n + 4) 5). lia.
  - intros [Hi Hmod]. exists ((n - i) / 5).
    apply Z.mod_divide in Hmod as [k Hk]; [| lia].
    rewrite Hk, Z.div_mul by lia. split; [lia |].
    apply elem_of_range.
    assert (k + 1 <= (n + 4) / 5) by (apply Z.div_le_lower_bound; lia).
    lia.
Qed.

Lemma grid_lines_elem self s :
  s ∈ grid_lines self <->
    (exists i, s = HLine i 1 /\ 0 <= i <= n_rows self)
    \/ (exists i, s = HLine i 2
                  /\ 0 < i <= n_rows self /\ (n_rows self - i) mod 5 = 0)
    \/ (exists i, s = VLine i 1 /\ 0 <= i <= n_columns self)
    \/ (exists i, s = VLine i 2
                  /\ 0 <= i <= n_columns self /\ i mod 5 = 0).
Proof.
  unfold grid_lines.
  rewrite !elem_of_app, !list_elem_of_fmap, elem_of_flat_map. split.
  - intros [(i & -> & Hi%elem_of_range)
           |[(i & -> & Hi%elem_of_range_down5)|(i & Hi%elem_of_range & Hs)]].
    + left. exists i. split; [done | lia].
    + right. left. by exists i.
    + apply elem_of_cons in Hs as [->|Hs].
      * right. right. left. exists i. split; [done | lia].
      * destruct (Z.eqb_spec (i mod 5) 0) as [Hmod|Hmod];
          [| by apply elem_of_nil in Hs].
        apply list_elem_of_singleton in Hs as ->.
        right. right. right. exists i. split; [done |]. split; [lia | done].
  - intros [(i & -> & Hi)|[(i & -> & Hi)|[(i & -> & Hi)|(i & -> & Hi & Hmod)]]].
    + left. exists i. split; [done |]. apply elem_of_range. lia.
    + right. left. exists i. split; [done |]. by apply elem_of_range_down5.
    + right. right. exists i. split; [apply elem_of_range; lia | left].
    + right. right. exists i. split; [apply elem_of_range; lia |].
      right. rewrite Hmod. simpl. left.
Qed.

Lemma column_texts_elem self s :
  s ∈ column_texts self <->
    exists (c h : nat) hint v,
      s = ColumnText (Z.of_nat c) (n_rows self) (Z.of_nat h) v
      /\ column_hints self !! c = Some hint
      /\ reverse hint !! h = Some v.
Proof.
  unfold column_texts. rewrite elem_of_flat_map. split.
  - intros ([k hint] & (c & -> & Hc)%elem_of_enumerate & Hs).
    apply list_elem_of_fmap in Hs as ([k v] & -> & (h & -> & Hh)%elem_of_enumerate).
    by exists c, h, hint, v.
  - intros (c & h & hint & v & -> & Hc & Hh).
    exists (Z.of_nat c, hint). split; [apply elem_of_enumerate; by exists c |].
    apply list_elem_of_fmap. exists (Z.of_nat h, v).
    split; [done |]. apply elem_of_enumerate. by exists h.
Qed.

Lemma row_texts_elem self s :
  s ∈ row_texts self <->
    exists (r h : nat) hint v,
      s = RowText (Z.of_nat r) (Z.of_nat h) v
      /\ reverse (row_hints self) !! r = Some hint
      /\ reverse hint !! h = Some v.
Proof.
  unfold row_texts. rewrite elem_of_flat_map. split.
  - intros ([k hint] & (r & -> & Hr)%elem_of_enumerate & Hs).
    apply list_elem_of_fmap in Hs as ([k v] & -> & (h & -> & Hh)%elem_of_enumerate).
    by exists r, h, hint, v.
  - intros (r & h & hint & v & -> & Hr & Hh).
    exists (Z.of_nat r, hint). split; [apply elem_of_enumerate; by exists r |].
    apply list_elem_of_fmap. exists (Z.of_nat h, v).
    split; [done |]. apply elem_of_enumerate. by exists h.
Qed.

(** The parts of a complete scene. *)
Lemma draw_scene_parts self scene :
  draw_scene self = Ok scene ->
  exists cells mc mr,
    cell_rows self (range (n_rows self)) = Ok cells
    /\ max_len (column_hints self) = Ok mc
    /\ max_len (row_hints self) = Ok mr
    /\ forall s, s ∈ scene <->
         s ∈ cells \/ s ∈ grid_lines self
         \/ s = XLim (- mr) (n_columns self)
         \/ s = YLim 0 (n_rows self + mc)
         \/ s ∈ column_texts self \/ s ∈ row_texts self.
Proof.
  unfold draw_scene.
  destruct (cell_rows self _) as [cells|]; simpl; [| discriminate].
  destruct (max_len (column_hints self)) as [mc|]; simpl; [| discriminate].
  destruct (max_len (row_hints self)) as [mr|]; simpl; [| discriminate].
  intros [= <-]. exists cells, mc, mr. do 3 (split; [done |]).
  intros s. simpl. repeat (rewrite elem_of_app || rewrite elem_of_cons).
  tauto.
Qed.

End SceneProofs.

Section SceneTheorems.

Ltac scene_cases :=
  repeat match goal with
         | H : _ \/ _ |- _ => destruct H
         | H : exists _, _ |- _ => destruct H
         | H : _ /\ _ |- _ => destruct H
         end; try discriminate.

(** X22: [draw] fills exactly the [Filled] cells of the play grid and
    crosses exactly the [Crossed] ones, each at its own row and column. *)
Theorem draw_scene_cells (self : Nonogram) :
  wf self ->
  exists scene,
    draw_scene self = Ok scene
    /\ (forall j i, Fill j i ∈ scene
          <-> in_bounds self i j /\ play_cell self i j = Ok Filled)
    /\ (forall j i, Cross j i ∈ scene
          <-> in_bounds self i j /\ play_cell self i j = Ok Crossed).
Proof.
  intros Hwf. destruct (draw_scene_ok self Hwf) as [scene Hscene].
  exists scene. split; [exact Hscene |].
  destruct (draw_scene_parts self scene Hscene)
    as (cells & mc & mr & Hcells & _ & _ & Hparts).
  pose proof (cell_rows_elem self _ _ Hcells) as Hcell.
  split; intros j i; rewrite Hparts, Hcell, grid_lines_elem,
    column_texts_elem, row_texts_elem; unfold in_bounds, play_cell;
    setoid_rewrite elem_of_range; split.
  - intros H. scene_cases. simplify_eq. done.
  - intros [[Hi Hj] Hc]. left. exists i, j. split; [done |]. split; [done |].
    by left.
  - intros H. scene_cases. simplify_eq. done.
  - intros [[Hi Hj] Hc]. left. exists i, j. split; [done |]. split; [done |].
    by right.
Qed.

Lemma max_len_bound hints m :
  max_len hints = Ok m ->
  (forall hint, hint ∈ hints -> len hint <= m)
  /\ exists hint, hint ∈ hints /\ len hint = m.
Proof.
  destruct hints as [|line rest]; [discriminate |]. simpl. intros [= <-].
  revert line. induction rest as [|l rest IH]; intros line; simpl.
  - split.
    + intros hint ->%list_elem_of_singleton. lia.
    + exists line. split; [left | done].
  - destruct (IH (if decide (len l <= len line) then line else l))
      as [Hall (hint & Hin & Hlen)].
    assert (Z.max (len line) (len l)
            = len (if decide (len l <= len line) then line else l)) as Hmax
      by (destruct (decide _); lia).
    rewrite Hmax. split.
    + intros hint' [->|[->|Hin']%elem_of_cons]%elem_of_cons.
      * destruct (decide (len l <= len line)) as [Hle|Hle].
        -- apply Hall. left.
        -- etrans; [| apply (Hall l); left]. lia.
      * destruct (decide (len l <= len line)) as [Hle|Hle].
        -- etrans; [exact Hle | apply (Hall line); left].
        -- apply Hall. left.
      * apply Hall. by right.
    + exists hint. split; [| exact Hlen].
      apply elem_of_cons in Hin as [->|Hin].
      * destruct (decide _); [left | right; left].
      * right. by right.
Qed.

(** X23: the plot limits leave room for the hints: the x axis starts at
    minus the length of the longest row hint sequence, the y axis ends that
    many cells above the grid as the longest column hint sequence has
    entries, and every hint written has a number below that length. *)
Theorem draw_scene_limits (self : Nonogram) (scene : list shape) :
  draw_scene self = Ok scene ->
  exists max_hints_column max_hints_row,
    (forall low high, XLim low high ∈ scene
       <-> low = - max_hints_row /\ high = n_columns self)
    /\ (forall low high, YLim low high ∈ scene
          <-> low = 0 /\ high = n_rows self + max_hints_column)
    /\ (forall r h v, RowText r h v ∈ scene -> 0 <= h < max_hints_row)
    /\ (forall c nr h v, ColumnText c nr h v ∈ scene ->
          0 <= h < max_hints_column)
    /\ (exists hint, hint ∈ row_hints self /\ len hint = max_hints_row)
    /\ (exists hint, hint ∈ column_hints self
                     /\ len hint = max_hints_column).
Proof.
  intros Hscene.
  destruct (draw_scene_parts self scene Hscene)
    as (cells & mc & mr & Hcells & Hmc & Hmr & Hparts).
  pose proof (cell_rows_elem self _ _ Hcells) as Hcell.
  destruct (max_len_bound _ _ Hmc) as [Hcmax Hcex].
  destruct (max_len_bound _ _ Hmr) as [Hrmax Hrex].
  exists mc, mr. split_and!; try done.
  - intros low high. rewrite Hparts, Hcell, grid_lines_elem,
      column_texts_elem, row_texts_elem. split.
    + intros H. scene_cases. by simplify_eq.
    + intros [-> ->]. tauto.
  - intros low high. rewrite Hparts, Hcell, grid_lines_elem,
      column_texts_elem, row_texts_elem. split.
    + intros H. scene_cases. by simplify_eq.
    + intros [-> ->]. tauto.
  - intros r h v. rewrite Hparts, Hcell, grid_lines_elem,
      column_texts_elem, row_texts_elem.
    intros H. scene_cases. simplify_eq.
    rename select (reverse (row_hints self) !! _ = Some _) into Hr.
    rename select (reverse _ !! _ = Some _) into Hh.
    apply list_elem_of_lookup_2 in Hr.
    apply (proj1 (elem_of_reverse _ _)) in Hr.
    apply Hrmax in Hr.
    apply lookup_lt_Some in Hh. rewrite length_reverse in Hh.
    unfold len in *. lia.
  - intros c nr h v. rewrite Hparts, Hcell, grid_lines_elem,
      column_texts_elem, row_texts_elem.
    intros H. scene_cases. simplify_eq.
    rename select (column_hints self !! _ = Some _) into Hc.
    rename select (reverse _ !! _ = Some _) into Hh.
    apply list_elem_of_lookup_2 in Hc. apply Hcmax in Hc.
    apply lookup_lt_Some in Hh. rewrite length_reverse in Hh.
    unfold len in *. lia.
Qed.

(** X24: the grid lines: a thin line at every cell border, a thick
    horizontal line at the top border and every five rows below it, a thick
    vertical line at the left border and every five columns right of it. *)
Theorem draw_scene_grid_lines (self : Nonogram) (scene : list shape) :
  draw_scene self = Ok scene ->
  (forall i width, HLine i width ∈ scene
     <-> (width = 1 /\ 0 <= i <= n_rows self)
         \/ (width = 2 /\ 0 < i <= n_rows self
             /\ (n_rows self - i) mod 5 = 0))
  /\ (forall i width, VLine i width ∈ scene
        <-> (width = 1 /\ 0 <= i <= n_columns self)
            \/ (width = 2 /\ 0 <= i <= n_columns self /\ i mod 5 = 0)).
Proof.
  intros Hscene.
  destruct (draw_scene_parts self scene Hscene)
    as (cells & mc & mr & Hcells & _ & _ & Hparts).
  pose proof (cell_rows_elem self _ _ Hcells) as Hcell.
  split; intros i width; rewrite Hparts, Hcell, grid_lines_elem,
    column_texts_elem, row_texts_elem; split.
  - intros H. scene_cases; simplify_eq; tauto.
  - intros [[-> Hi]|[-> Hi]].
    + right. left. left. by exists i.
    + right. left. right. left. by exists i.
  - intros H. scene_cases; simplify_eq; tauto.
  - intros [[-> Hi]|[-> Hi]].
    + right. left. right. right. left. by exists i.
    + right. left. right. right. right. by exists i.
Qed.

Lemma wf_hints_formula self :
  wf self ->
  row_hints self = map HintSpec.run_lengths (solution self)
  /\ column_hints self
     = map (fun j => HintSpec.run_lengths (HintSpec.column (solution self) j))
         (seq 0 (Z.to_nat (n_columns self))).
Proof.
  intros Hwf. destruct (wf_n_columns _ Hwf) as (first & Hfirst & Hcols).
  pose proof (wf_hints _ Hwf) as Hhints.
  pose proof (wf_solution _ Hwf) as Hsol.
  destruct (solution self) as [|first' rest] eqn:Hs; [discriminate |].
  injection Hfirst as ->.
  rewrite determine_hints_covered in Hhints.
  - injection Hhints as <- <-. rewrite Hcols. unfold len.
    by rewrite Nat2Z.id.
  - apply covers_Forall. eapply Forall_impl; [exact Hsol |].
    simpl. intros row. rewrite Hcols. unfold len. lia.
Qed.

(** X25: the hints [draw] writes beside play row [r] are those of solution
    row [n_rows - r - 1], the row that [on_click] and [check_state] consult
    for that play row, and the hints above column [c] are those of solution
    column [c]; hint number 0 is the last run, written nearest the grid. *)
Theorem draw_scene_hint_texts (self : Nonogram) (scene : list shape) :
  wf self ->
  draw_scene self = Ok scene ->
  (forall r h v, RowText r h v ∈ scene
     <-> 0 <= r < n_rows self /\ 0 <= h
         /\ exists row,
              py_getitem (solution self) (n_rows self - r - 1) = Ok row
              /\ reverse (HintSpec.run_lengths row) !! Z.to_nat h = Some v)
  /\ (forall c nr h v, ColumnText c nr h v ∈ scene
        <-> nr = n_rows self /\ 0 <= c < n_columns self /\ 0 <= h
            /\ reverse (HintSpec.run_lengths
                          (HintSpec.column (solution self) (Z.to_nat c)))
                 !! Z.to_nat h = Some v).
Proof.
  intros Hwf Hscene.
  destruct (draw_scene_parts self scene Hscene)
    as (cells & mc & mr & Hcells & _ & _ & Hparts).
  pose proof (cell_rows_elem self _ _ Hcells) as Hcell.
  destruct (wf_hints_formula self Hwf) as [Hrows Hcolumns].
  pose proof (wf_n_rows _ Hwf) as Hn. unfold len in Hn.
  split.
  - intros r h v. rewrite Hparts, Hcell, grid_lines_elem,
      column_texts_elem, row_texts_elem. split.
    + intros H. scene_cases. simplify_eq.
      rename select (reverse (row_hints self) !! _ = Some _) into Hr.
      rename select (reverse _ !! _ = Some _) into Hh.
      rename select nat into r'.
      pose proof (lookup_lt_Some _ _ _ Hr) as Hlt.
      rewrite length_reverse, Hrows, length_map in Hlt.
      rewrite reverse_lookup, Hrows, length_map, list_lookup_fmap in Hr
        by (by rewrite Hrows, length_map).
      destruct (solution self !! _) as [row|] eqn:Hrow; [| discriminate].
      injection Hr as <-.
      split; [lia |]. split; [lia |]. exists row. rewrite Nat2Z.id.
      split; [| done]. apply py_getitem_lookup; [lia |].
      rewrite <- Hrow. f_equal. lia.
    + intros (Hr & Hh & row & Hrow & Hv).
      do 5 right. exists (Z.to_nat r), (Z.to_nat h), (HintSpec.run_lengths row), v.
      rewrite !Z2Nat.id by lia. split; [done |]. split; [| done].
      apply py_getitem_Ok_in in Hrow; [| lia].
      rewrite reverse_lookup, Hrows, length_map, list_lookup_fmap
        by (rewrite Hrows, length_map; lia).
      replace (length (solution self) - S (Z.to_nat r))%nat
        with (Z.to_nat (n_rows self - r - 1)) by lia.
      by rewrite Hrow.
  - intros c nr h v. rewrite Hparts, Hcell, grid_lines_elem,
      column_texts_elem, row_texts_elem. split.
    + intros H. scene_cases. simplify_eq.
      rename select (column_hints self !! _ = Some _) into Hc.
      rename select (reverse _ !! _ = Some _) into Hh.
      rewrite Hcolumns, list_lookup_fmap in Hc.
      pose proof (wf_columns_pos _ Hwf).
      destruct (seq 0 (Z.to_nat (n_columns self)) !! _) as [j|] eqn:Hj;
        [| discriminate].
      injection Hc as <-. apply lookup_seq in Hj as [-> Hlt]. simpl in *.
      rewrite !Nat2Z.id. split; [done |]. split; [lia |]. split; [lia | done].
    + intros (-> & Hc & Hh & Hv).
      do 4 right. left.
      exists (Z.to_nat c), (Z.to_nat h),
        (HintSpec.run_lengths (HintSpec.column (solution self) (Z.to_nat c))),
        v.
      rewrite !Z2Nat.id by lia. split; [done |]. split; [| exact Hv].
      rewrite Hcolumns, list_lookup_fmap, lookup_seq_lt by lia. reflexivity.
Qed.

End SceneTheorems.

Lemma get_solution_parses_witness :
  Forall (fun row => row <> []) [[1; 0]; [0; 1]].
Proof.
  apply (proj2 (get_solution_parses demo_int demo_files 1 [[1; 0]; [0; 1]])).
  reflexivity.
Defined.

Lemma draw_scene_cells_witness :
  exists scene,
    draw_scene demo_game = Ok scene
    /\ (forall j i, Fill j i ∈ scene
          <-> in_bounds demo_game i j /\ play_cell demo_game i j = Ok Filled)
    /\ (forall j i, Cross j i ∈ scene
          <-> in_bounds demo_game i j /\ play_cell demo_game i j = Ok Crossed).
Proof. apply (draw_scene_cells demo_game). apply demo_wf. Defined.

Lemma draw_scene_limits_witness :
  exists max_hints_column max_hints_row,
    (forall low high, XLim low high ∈ demo_scene
       <-> low = - max_hints_row /\ high = n_columns demo_game)
    /\ (forall low high, YLim low high ∈ demo_scene
          <-> low = 0 /\ high = n_rows demo_game + max_hints_column)
    /\ (forall r h v, RowText r h v ∈ demo_scene -> 0 <= h < max_hints_row)
    /\ (forall c nr h v, ColumnText c nr h v ∈ demo_scene ->
          0 <= h < max_hints_column)
    /\ (exists hint, hint ∈ row_hints demo_game /\ len hint = max_hints_row)
    /\ (exists hint, hint ∈ column_hints demo_game
                     /\ len hint = max_hints_column).
Proof. apply (draw_scene_limits demo_game demo_scene). reflexivity. Defined.

Lemma draw_scene_grid_lines_witness :
  (forall i width, HLine i width ∈ demo_scene
     <-> (width = 1 /\ 0 <= i <= n_rows demo_game)
         \/ (width = 2 /\ 0 < i <= n_rows demo_game
             /\ (n_rows demo_game - i) mod 5 = 0))
  /\ (forall i width, VLine i width ∈ demo_scene
        <-> (width = 1 /\ 0 <= i <= n_columns demo_game)
            \/ (width = 2 /\ 0 <= i <= n_columns demo_game /\ i mod 5 = 0)).
Proof. apply (draw_scene_grid_lines demo_game demo_scene). reflexivity. Defined.

Lemma draw_scene_hint_texts_witness :
  (forall r h v, RowText r h v ∈ demo_scene
     <-> 0 <= r < n_rows demo_game /\ 0 <= h
         /\ exists row,
              py_getitem (solution demo_game) (n_rows demo_game - r - 1)
              = Ok row
              /\ reverse (HintSpec.run_lengths row) !! Z.to_nat h = Some v)
  /\ (forall c nr h v, ColumnText c nr h v ∈ demo_scene
        <-> nr = n_rows demo_game /\ 0 <= c < n_columns demo_game /\ 0 <= h
            /\ reverse (HintSpec.run_lengths
                          (HintSpec.column (solution demo_game) (Z.to_nat c)))
                 !! Z.to_nat h = Some v).
Proof.
  apply (draw_scene_hint_texts demo_game demo_scene).
  - apply demo_wf.
  - reflexivity.
Defined.
